(** * Shamsi calendar: a shallow embedding of [shamsi_calendar.py]

    The program is a Tk desktop calendar over the solar Hijri calendar.  Its
    state is a dictionary [events] from date keys [(year, month, day)] to
    lists of event records, two entry widgets holding the displayed year and
    month, and two JSON files ([events.json], [settings.json]).

    Conventions of the embedding:
    - a Python [str] is a [string]; its characters are the code points 0..255;
    - a Python [int] is a [Z];
    - a JSON value (and so every field of an event) is a [pyval];
    - a Python tuple and a Python list are both sequences and both become a
      Rocq [list]: [json.dump] writes either as a JSON array;
    - a Python [dict] is an insertion-ordered association list ([PyDict]);
    - list objects live in a [heap] and are named by their location, because
      the windows of the program keep references to the lists of the store
      and mutate them in place;
    - a raised exception is an explicit result ([None], or [Raised]);
    - Tk widgets other than the two entries are not part of the state.  *)

From Stdlib Require Import ZArith Ascii String Bool Lia Permutation Sorted.
From stdpp Require Import base option list sorting strings.

Local Open Scope Z_scope.
Set Warnings "-register-all".

(** ** Python values *)

(** What [json.load] can return, and what an event field can hold.  A
    float is given by the 64 bits of its IEEE 754 encoding. *)
Inductive pyval : Type :=
  | VNone
  | VBool (b : bool)
  | VInt (z : Z)
  | VFloat (bits : Z)
  | VStr (s : string)
  | VList (l : list pyval)
  | VDict (d : list (string * pyval)).

(** An event record: the tuple [(text, color, time, priority)]. *)
Definition event : Type := list pyval.

(** A date key: the tuple [(year, month, day)], or whatever tuple of
    integers [load_events] reads from a file. *)
Definition key : Type := list Z.

(** Truth value of an optional string ([None] and [""] are false). *)
Definition truthy (o : option string) : bool :=
  match o with
  | Some (String _ _) => true
  | _ => false
  end.

(** [o or d] for an optional string. *)
Definition or_else (o : option string) (d : string) : string :=
  match o with
  | Some (String c s) => String c s
  | _ => d
  end.

(** ** Characters and decimal numerals *)

Module Chars.

Definition code (c : ascii) : nat := nat_of_ascii c.

(** A character class [[lo-hi]] of a regular expression. *)
Definition in_range (lo hi c : ascii) : bool :=
  (code lo <=? code c)%nat && (code c <=? code hi)%nat.

Definition is_digit (c : ascii) : bool := in_range "0" "9" c.

(** Whitespace that [str.strip] removes: TAB..CR, FS..US, space, NEL,
    NBSP. *)
Definition is_space (c : ascii) : bool :=
  let n := code c in
  ((9 <=? n) && (n <=? 13) || (28 <=? n) && (n <=? 32)
   || (n =? 133) || (n =? 160))%nat.

(** Whitespace that [int] skips around a numeral: TAB..CR, space, NEL and
    NBSP.  Unlike [str.strip] it does not skip FS..US: [int] raises
    [ValueError] on a string that begins or ends with one of them. *)
Definition is_int_space (c : ascii) : bool :=
  let n := code c in
  ((9 <=? n) && (n <=? 13) || (n =? 32) || (n =? 133) || (n =? 160))%nat.

Definition digit_val (c : ascii) : Z := Z.of_nat (code c) - 48.

Definition digit_char (d : Z) : ascii := ascii_of_nat (Z.to_nat d + 48).

Definition newline : ascii := ascii_of_nat 10.

End Chars.

Module PyStr.
Import Chars.

(** Digits of [n], most significant first, in front of [acc]. *)
Fixpoint digits_go (fuel : nat) (n : Z) (acc : string) : string :=
  match fuel with
  | O => acc
  | S fuel' =>
      let acc' := String (digit_char (n mod 10)) acc in
      if n / 10 =? 0 then acc' else digits_go fuel' (n / 10) acc'
  end.

(** A number below [2 ^ k] has at most [k] decimal digits. *)
Definition digits_fuel (n : Z) : nat := S (Z.to_nat (Z.log2 n)).

Definition digits (n : Z) : string := digits_go (digits_fuel n) n "".

(** [str(z)] for an integer. *)
Definition py_str (z : Z) : string :=
  if z <? 0 then String "-" (digits (- z)) else digits z.

(** [s] without the characters of the class [space] at its start, and at
    its end. *)
Fixpoint lstrip (space : ascii -> bool) (s : string) : string :=
  match s with
  | String c r => if space c then lstrip space r else s
  | EmptyString => EmptyString
  end.

Fixpoint rstrip (space : ascii -> bool) (s : string) : string :=
  match s with
  | EmptyString => EmptyString
  | String c r =>
      match rstrip space r with
      | EmptyString => if space c then EmptyString else String c EmptyString
      | r' => String c r'
      end
  end.

(** [s.strip()] *)
Definition strip (s : string) : string :=
  rstrip is_space (lstrip is_space s).

(** The digits of an integer literal: decimal digits, with single
    underscores allowed between two digits.  [prev] tells whether the
    previous character was a digit. *)
Fixpoint parse_digits (prev : bool) (acc : Z) (s : string) : option Z :=
  match s with
  | EmptyString => if prev then Some acc else None
  | String c r =>
      if is_digit c then parse_digits true (10 * acc + digit_val c) r
      else if Ascii.eqb c "_" && prev then parse_digits false acc r
      else None
  end.

(** [int(s)]; [None] is [ValueError].  Whitespace around the numeral is
    skipped, a sign may come first, and nothing else may stand between the
    sign and the digits. *)
Definition py_int (s : string) : option Z :=
  match rstrip is_int_space (lstrip is_int_space s) with
  | String c r =>
      if Ascii.eqb c "-" then Z.opp <$> parse_digits false 0 r
      else if Ascii.eqb c "+" then parse_digits false 0 r
      else parse_digits false 0 (String c r)
  | EmptyString => None
  end.

(** [sep.join(l)] *)
Fixpoint join (sep : string) (l : list string) : string :=
  match l with
  | [] => EmptyString
  | [x] => x
  | x :: r => x +:+ sep +:+ join sep r
  end.

(** [s.split(sep)] for a separator of one character. *)
Fixpoint split (sep : ascii) (s : string) : list string :=
  match s with
  | EmptyString => [EmptyString]
  | String c r =>
      if Ascii.eqb c sep then EmptyString :: split sep r
      else match split sep r with
           | h :: t => String c h :: t
           | [] => [String c EmptyString]
           end
  end.

Fixpoint mem (c : ascii) (s : string) : bool :=
  match s with
  | EmptyString => false
  | String d r => Ascii.eqb d c || mem c r
  end.

Fixpoint all_digits (s : string) : bool :=
  match s with
  | EmptyString => true
  | String c r => is_digit c && all_digits r
  end.

(** The number that the digits of [s] denote, after the digits read so
    far denote [acc]. *)
Fixpoint val_of (acc : Z) (s : string) : Z :=
  match s with
  | EmptyString => acc
  | String c r => val_of (10 * acc + digit_val c) r
  end.

End PyStr.

(** ** Python dictionaries

    A [dict] keeps its keys in insertion order; assigning to a key that is
    present replaces the value in place, assigning to a new key appends. *)

Module PyDict.
Section Dict.
Context {K : Type} `{EqDecision K} {V : Type}.

Definition dict : Type := list (K * V).

(** [d.get(k)] *)
Fixpoint get (k : K) (d : dict) : option V :=
  match d with
  | [] => None
  | (k', v) :: r => if decide (k' = k) then Some v else get k r
  end.

(** [d[k] = v] *)
Fixpoint set (k : K) (v : V) (d : dict) : dict :=
  match d with
  | [] => [(k, v)]
  | (k', v') :: r =>
      if decide (k' = k) then (k', v) :: r else (k', v') :: set k v r
  end.

(** [d.update(items)] *)
Definition update (d : dict) (items : list (K * V)) : dict :=
  fold_left (fun acc kv => set kv.1 kv.2 acc) items d.

(** [{k: v for k, v in items}] *)
Definition of_items (items : list (K * V)) : dict := update [] items.

Definition keys (d : dict) : list K := d.*1.

End Dict.
Arguments dict : clear implicits.
End PyDict.

(** ** Comparing Python values

    [list.sort] compares the keys of the records with [<]; tuples and
    lists compare their items with [==] first.  Both are defined here on
    the values that a field of a record can hold. *)

Module PyVal.

(** The number that a [bool], an [int] or a [float] stands for:
    [m * 2 ^ e], an infinity, or not a number. *)
Inductive number : Type :=
  | Finite (m e : Z)
  | Infinite (negative : bool)
  | NaN.

(** The float with the given bits: the sign, 11 bits of exponent and 52
    bits of fraction. *)
Definition float_of_bits (bits : Z) : number :=
  let negative := Z.testbit bits 63 in
  let expo := Z.land (Z.shiftr bits 52) 2047 in
  let frac := Z.land bits (Z.ones 52) in
  if expo =? 2047 then
    if frac =? 0 then Infinite negative else NaN
  else
    let m := if expo =? 0 then frac else frac + 2 ^ 52 in
    let e := (if expo =? 0 then 1 else expo) - 1075 in
    Finite (if negative then - m else m) e.

Definition to_number (v : pyval) : option number :=
  match v with
  | VBool b => Some (Finite (if b then 1 else 0) 0)
  | VInt z => Some (Finite z 0)
  | VFloat bits => Some (float_of_bits bits)
  | _ => None
  end.

(** The order of [m1 * 2 ^ e1] and [m2 * 2 ^ e2].  Python compares an
    [int] with a [float] exactly, without rounding the [int]. *)
Definition compare_finite (m1 e1 m2 e2 : Z) : comparison :=
  let e := Z.min e1 e2 in
  (m1 * 2 ^ (e1 - e) ?= m2 * 2 ^ (e2 - e)).

(** [a < b] on numbers; it is false whenever one of them is a NaN. *)
Definition number_lt (a b : number) : bool :=
  match a, b with
  | Finite m1 e1, Finite m2 e2 =>
      match compare_finite m1 e1 m2 e2 with Lt => true | _ => false end
  | Finite _ _, Infinite negative => negb negative
  | Infinite negative, Finite _ _ => negative
  | Infinite n1, Infinite n2 => n1 && negb n2
  | _, _ => false
  end.

(** Equality of numbers as the items of a tuple or a list.  [nan == nan]
    is false, but an item equals itself, and every NaN that [json.load]
    returns is one and the same object. *)
Definition number_eq (a b : number) : bool :=
  match a, b with
  | Finite m1 e1, Finite m2 e2 =>
      match compare_finite m1 e1 m2 e2 with Eq => true | _ => false end
  | Infinite n1, Infinite n2 => Bool.eqb n1 n2
  | NaN, NaN => true
  | _, _ => false
  end.

(** [bool(v)] *)
Definition is_true (v : pyval) : bool :=
  match v with
  | VNone => false
  | VStr s => match s with EmptyString => false | _ => true end
  | VList l => match l with [] => false | _ => true end
  | VDict d => match d with [] => false | _ => true end
  | _ =>
      match to_number v with
      | Some (Finite 0 _) => false
      | _ => true
      end
  end.

(** [hash(v)] returns: it raises [TypeError] for a list and for a dict. *)
Definition hashable (v : pyval) : bool :=
  match v with
  | VList _ | VDict _ => false
  | _ => true
  end.

(** [a == b], as the items of tuples and lists are compared.  Values of
    different kinds are not equal; numbers are equal by their value, so
    [True == 1 == 1.0]; dictionaries are equal when they have the same
    members, in whatever order. *)
Fixpoint py_eq (a b : pyval) : bool :=
  match a, b with
  | VNone, VNone => true
  | VStr s1, VStr s2 => String.eqb s1 s2
  | VList l1, VList l2 =>
      (fix items (l1 l2 : list pyval) : bool :=
         match l1, l2 with
         | [], [] => true
         | x :: r1, y :: r2 => py_eq x y && items r1 r2
         | _, _ => false
         end) l1 l2
  | VDict d1, VDict d2 =>
      (length d1 =? length d2)%nat
      && (fix members (d : list (string * pyval)) : bool :=
            match d with
            | [] => true
            | (name, x) :: r =>
                match PyDict.get name d2 with
                | Some y => py_eq x y
                | None => false
                end
                && members r
            end) d1
  | _, _ =>
      match to_number a, to_number b with
      | Some x, Some y => number_eq x y
      | _, _ => false
      end
  end.

(** [a < b]; [None] is [TypeError].  Numbers are ordered by their value
    and strings by their characters; lists are ordered by the first items
    that are not equal, a prefix coming first; nothing else is ordered,
    and no value of one kind with a value of another. *)
Fixpoint py_lt (a b : pyval) : option bool :=
  match a, b with
  | VStr s1, VStr s2 => Some (String.ltb s1 s2)
  | VList l1, VList l2 =>
      (fix items (l1 l2 : list pyval) : option bool :=
         match l1, l2 with
         | [], [] => Some false
         | [], _ :: _ => Some true
         | _ :: _, [] => Some false
         | x :: r1, y :: r2 => if py_eq x y then items r1 r2 else py_lt x y
         end) l1 l2
  | _, _ =>
      match to_number a, to_number b with
      | Some x, Some y => Some (number_lt x y)
      | _, _ => None
      end
  end.

End PyVal.

(** ** The pure helpers of the program *)

(** [l[i]] with Python's negative indices; [None] is [IndexError]. *)
Definition py_index {A : Type} (l : list A) (i : Z) : option A :=
  let n := Z.of_nat (length l) in
  if 0 <=? i then l !! Z.to_nat i
  else if - n <=? i then l !! Z.to_nat (n + i)
  else None.

Definition default_color : string := "#cccccc".

Definition shades : list string :=
  [ "#cce5ff"; "#99ccff"; "#66b3ff"; "#3399ff"; "#1a8cff";
    "#0073e6"; "#0059b3"; "#004080"; "#00264d"; "#001a33" ].

(** The index that [get_event_color] computes before it selects a colour. *)
Definition shade_index (event_count : Z) : Z := Z.min event_count 10 - 1.

(** [get_event_color(event_count, event_color)]:
    [event_color or shades[index] if event_count > 0 else default_color]. *)
Definition get_event_color (event_count : Z) (event_color : option string)
  : option string :=
  let index := shade_index event_count in
  if event_count >? 0 then
    if truthy event_color then Some (or_else event_color EmptyString)
    else py_index shades index
  else Some default_color.

(** *** Regular expressions, as far as [validate_time] needs them *)

Module Re.
Import Chars.

Inductive regex : Type :=
  | Bol                      (* ^ *)
  | Eol                      (* $ *)
  | Lit (c : ascii)
  | Cls (lo hi : ascii)      (* [lo-hi] *)
  | Cat (r1 r2 : regex)
  | Alt (r1 r2 : regex)
  | Opt (r : regex).         (* r? *)

(** Without [re.MULTILINE], [$] matches at the end of the string and
    just before a newline that ends the string. *)
Definition at_eol (s : string) : bool :=
  match s with
  | EmptyString => true
  | String c EmptyString => Ascii.eqb c newline
  | _ => false
  end.

(** Backtracking matcher: [pos] is the number of characters consumed,
    [k] the continuation that matches the rest of the pattern. *)
Fixpoint rmatch (r : regex) (pos : nat) (s : string)
         (k : nat -> string -> bool) : bool :=
  match r with
  | Bol => (pos =? 0)%nat && k pos s
  | Eol => at_eol s && k pos s
  | Lit c =>
      match s with
      | String d s' => Ascii.eqb d c && k (S pos) s'
      | EmptyString => false
      end
  | Cls lo hi =>
      match s with
      | String d s' => in_range lo hi d && k (S pos) s'
      | EmptyString => false
      end
  | Cat r1 r2 => rmatch r1 pos s (fun pos' s' => rmatch r2 pos' s' k)
  | Alt r1 r2 => rmatch r1 pos s k || rmatch r2 pos s k
  | Opt r1 => rmatch r1 pos s k || k pos s
  end.

(** [bool(re.match(r, s))]: some prefix of [s] matches [r]. *)
Definition re_match (r : regex) (s : string) : bool :=
  rmatch r 0 s (fun _ _ => true).

Fixpoint seq (rs : list regex) (last : regex) : regex :=
  match rs with
  | [] => last
  | r :: rs' => Cat r (seq rs' last)
  end.

End Re.

(** [r'^([0-1]?[0-9]|2[0-3]):[0-5][0-9]$'] *)
Definition time_pattern : Re.regex :=
  Re.seq
    [ Re.Bol;
      Re.Alt (Re.Cat (Re.Opt (Re.Cls "0" "1")) (Re.Cls "0" "9"))
             (Re.Cat (Re.Lit "2") (Re.Cls "0" "3"));
      Re.Lit ":";
      Re.Cls "0" "5";
      Re.Cls "0" "9" ]
    Re.Eol.

(** [validate_time(time_str)] *)
Definition validate_time (time_str : string) : bool :=
  match time_str with
  | EmptyString => true
  | _ => Re.re_match time_pattern time_str
  end.

(** The time format that the docstring of [validate_time] names: HH:MM on
    the 24-hour clock, the hour 0..23 in one or two digits, the minute
    00..59 in two digits, and nothing else. *)
Definition is_hhmm (s : string) : bool :=
  match s with
  | String h (String c (String m1 (String m2 EmptyString))) =>
      Chars.is_digit h && Ascii.eqb c ":"
      && Chars.in_range "0" "5" m1 && Chars.is_digit m2
  | String h1 (String h2 (String c (String m1 (String m2 EmptyString)))) =>
      Chars.is_digit h1 && Chars.is_digit h2
      && (10 * Chars.digit_val h1 + Chars.digit_val h2 <=? 23)
      && Ascii.eqb c ":"
      && Chars.in_range "0" "5" m1 && Chars.is_digit m2
  | _ => false
  end.

(** [s] without the newline that ends it, if one does. *)
Fixpoint drop_final_newline (s : string) : option string :=
  match s with
  | EmptyString => None
  | String c EmptyString =>
      if Ascii.eqb c Chars.newline then Some EmptyString else None
  | String c r => String c <$> drop_final_newline r
  end.

(** What [validate_time] accepts: the empty string, a time in the format
    of its docstring, and such a time followed by one newline. *)
Definition accepted_time (s : string) : bool :=
  match s with
  | EmptyString => true
  | _ => is_hhmm s
         || match drop_final_newline s with
            | Some t => is_hhmm t
            | None => false
            end
  end.

(** [priority_to_str(priority)] *)
Definition priority_to_str (priority : Z) : string :=
  default "Unknown"
    (PyDict.get priority [(1, "High"); (2, "Medium"); (3, "Low")]).

(** [str_to_priority(priority_str)] *)
Definition str_to_priority (priority_str : string) : Z :=
  default 2
    (PyDict.get priority_str [("High", 1); ("Medium", 2); ("Low", 3)]).

(** *** Month lengths

    [jdatetime] is a library outside the repository.  [jdate_valid y m d]
    tells whether [jdatetime.date(y, m, d)] returns a date; it raises
    [ValueError] otherwise. *)

Section MonthLength.
Variable jdate_valid : Z -> Z -> Z -> bool.

(** [is_leap_year(year)] *)
Definition is_leap_year (year : Z) : bool := jdate_valid year 12 30.

(** [get_days_in_month(year, month)] *)
Definition get_days_in_month (year month : Z) : Z :=
  if month <=? 6 then 31
  else if month <=? 11 then 30
  else if is_leap_year year then 30 else 29.

End MonthLength.

(** ** Date keys in the events file *)

(** ["-".join(map(str, k))] *)
Definition encode_key (k : key) : string :=
  PyStr.join "-" (PyStr.py_str <$> k).

(** [tuple(map(int, s.split("-")))]; [None] is the [ValueError] of [int]. *)
Definition decode_key (s : string) : option key :=
  mapM PyStr.py_int (PyStr.split "-" s).

(** [{"-".join(map(str, k)): v for k, v in events.items()}] *)
Definition encode_store {V : Type} (d : PyDict.dict key V)
  : PyDict.dict string V :=
  PyDict.of_items ((fun kv => (encode_key kv.1, kv.2)) <$> d).

(** [{tuple(map(int, k.split("-"))): v for k, v in raw.items()}] *)
Definition decode_store {V : Type} (raw : PyDict.dict string V)
  : option (PyDict.dict key V) :=
  PyDict.of_items <$> mapM (fun kv => k ← decode_key kv.1; Some (k, kv.2)) raw.

(** ** Sorting the events of a day *)

Module PySort.

(** [l.sort(key=...)] is stable: it is embedded as the stable insertion
    sort on the list decorated with its keys, comparing keys with [lt]
    only, as [list.sort] does.  An element goes in front of the first
    one that is not smaller, so it stays ahead of its equals. *)
Section Sort.
Context {A B : Type} (lt : B -> B -> bool).

Fixpoint insert (x : B * A) (l : list (B * A)) : list (B * A) :=
  match l with
  | [] => [x]
  | y :: r => if lt y.1 x.1 then y :: insert x r else x :: y :: r
  end.

Fixpoint isort (l : list (B * A)) : list (B * A) :=
  match l with
  | [] => []
  | x :: r => insert x (isort r)
  end.

(** [x] may stand in front of [y]: the key of [y] is not smaller. *)
Definition le_key (x y : B * A) : Prop := lt y.1 x.1 = false.

End Sort.

(** What [list.sort] needs of [<] on the keys at hand to leave one
    definite order behind; [lt a b] is [None] where [a < b] raises. *)
Section Order.
Context {B : Type} (lt : B -> B -> option bool).

(** [a < b] holds. *)
Definition below (a b : B) : bool := default false (lt a b).

Definition defined (o : option bool) : bool :=
  match o with
  | Some _ => true
  | None => false
  end.

(** Any two of the keys can be compared, in both directions. *)
Fixpoint comparable (ks : list B) : bool :=
  match ks with
  | [] => true
  | k :: r =>
      forallb (fun k' => defined (lt k k') && defined (lt k' k)) r
      && comparable r
  end.

(** On the keys, [<] is asymmetric and "not smaller" is transitive.
    Numbers and strings are ordered so; numbers with a NaN among them are
    not, since a NaN is neither smaller nor greater than any number. *)
Definition coherent (ks : list B) : bool :=
  forallb
    (fun a =>
       forallb
         (fun b =>
            negb (below a b && below b a)
            && forallb
                 (fun c =>
                    implb (negb (below b a) && negb (below c b))
                          (negb (below c a)))
                 ks)
         ks)
    ks.

End Order.

(** Python's [<] on the tuples [(bool, value)]: the first items that are
    not equal decide, and [False < True]. *)
Definition tuple_lt (a b : bool * pyval) : option bool :=
  if Bool.eqb a.1 b.1 then
    if PyVal.py_eq a.2 b.2 then Some false else PyVal.py_lt a.2 b.2
  else Some (negb a.1 && b.1).

(** [(e[2] == "", e[2] or "25:00")]; [None] is the [IndexError] of a
    record without a third field. *)
Definition time_key (e : event) : option (bool * pyval) :=
  v ← e !! 2%nat;
  Some (PyVal.py_eq v (VStr EmptyString),
        if PyVal.is_true v then v else VStr "25:00").

(** [e[3]]; [None] is [IndexError]. *)
Definition priority_key (e : event) : option pyval := e !! 3%nat.

(** [l.sort(key=key)], the keys compared with [lt].  When every key can be
    computed, any two keys can be compared and [<] orders them
    consistently, the list is left in the one stable order, whatever
    comparisons the sort makes.  [None] otherwise: the key function
    raises (the list stays as it is), a comparison raises (the list is
    left in some order), or the order that is left is not fixed by the
    language. *)
Definition sort_with {B : Type} (lt : B -> B -> option bool)
           (key : event -> option B) (l : list event)
  : option (list event) :=
  ks ← mapM (fun e => k ← key e; Some (k, e)) l;
  if comparable lt ks.*1 && coherent lt ks.*1
  then Some ((isort (below lt) ks).*2)
  else None.

(** [day_events.sort(key=lambda e: (e[2] == "", e[2] or "25:00"))] *)
Definition by_time (l : list event) : option (list event) :=
  sort_with tuple_lt time_key l.

(** [day_events.sort(key=lambda e: e[3])] *)
Definition by_priority (l : list event) : option (list event) :=
  sort_with PyVal.py_lt priority_key l.

End PySort.

(** ** Importing records *)

(** [event[0]]; [None] is [IndexError], [KeyError] or [TypeError]. *)
Definition index0 (ev : pyval) : option pyval :=
  match ev with
  | VList (x :: _) => Some x
  | VStr (String c _) => Some (VStr (String c EmptyString))
  | _ => None
  end.

(** [event[i] if isinstance(event, (list, tuple)) and len(event) > i else d] *)
Definition field_or (ev : pyval) (i : nat) (d : pyval) : pyval :=
  match ev with
  | VList l => default d (l !! i)
  | _ => d
  end.

(** The tuple that [import_events] builds from one imported value. *)
Definition import_record (ev : pyval) : option event :=
  e0 ← index0 ev;
  Some [ e0;
         field_or ev 1 (VStr default_color);
         field_or ev 2 (VStr EmptyString);
         field_or ev 3 (VInt 2) ].

Fixpoint chars (s : string) : list pyval :=
  match s with
  | EmptyString => []
  | String c r => VStr (String c EmptyString) :: chars r
  end.

(** [for event in value]; [None] is the [TypeError] of a value that cannot
    be iterated. *)
Definition iterate (value : pyval) : option (list pyval) :=
  match value with
  | VList l => Some l
  | VStr s => Some (chars s)
  | VDict d => Some (VStr <$> d.*1)
  | _ => None
  end.

(** The dictionary [imported_events]; [None] when building it raises. *)
Definition imported_events (raw : pyval) : option (PyDict.dict key (list event)) :=
  match raw with
  | VDict items =>
      PyDict.of_items <$>
        mapM (fun kv =>
                k ← decode_key kv.1;
                evs ← iterate kv.2;
                recs ← mapM import_record evs;
                Some (k, recs)) items
  | _ => None
  end.

(** The same for the file that the user chooses, when there is one and it
    holds a JSON value. *)
Definition imported_events_of (file : option (option pyval))
  : option (PyDict.dict key (list event)) :=
  match file with
  | Some (Some raw) => imported_events raw
  | _ => None
  end.

(** ** The line of a record

    A list box, the dialog of [edit_events] and the edit panel show a
    record as
    [f"{e[0]} (Time: {e[2] or 'N/A'}, Priority: {priority_to_str(e[3])})"].
    Formatting a value never raises.  [e[3]] raises [IndexError] for a
    record of fewer than four fields, and the dictionary lookup of
    [priority_to_str] raises [TypeError] for a priority that cannot be
    hashed.  [displayable e] tells that neither happens. *)
Definition displayable (e : event) : bool :=
  match e !! 3%nat with
  | Some priority => PyVal.hashable priority
  | None => false
  end.

(** ** The state of the application *)

(** A call of [messagebox.showerror] or [messagebox.showinfo], with its
    message up to the first value that is formatted into it. *)
Inductive dialog : Type :=
  | ShowError (message : string)
  | ShowInfo (message : string).

(** - [heap]: the list objects, by location; a location is never reused;
    - [events]: the global dictionary, from a key to the location of its list;
    - [windows]: the day pages and edit panels opened so far, each with the
      key it was opened for and the list [day_events] that its closures hold;
    - [year_entry], [month_entry], [view_mode]: the widgets of the top bar;
    - [events_file], [settings_file]: the JSON documents on disk, [None]
      while the file does not exist;
    - [disk_ok]: whether [open] succeeds; it raises [IOError] otherwise;
    - [dialogs]: the message boxes shown so far, latest first. *)
Record app : Type := mkApp {
  heap : list (list event);
  events : PyDict.dict key nat;
  windows : list (key * nat);
  year_entry : string;
  month_entry : string;
  view_mode : string;
  events_file : option (PyDict.dict string (list event));
  settings_file : option (Z * Z);
  disk_ok : bool;
  dialogs : list dialog
}.

Definition set_store (h : list (list event)) (e : PyDict.dict key nat)
           (s : app) : app :=
  mkApp h e (windows s) (year_entry s) (month_entry s) (view_mode s)
        (events_file s) (settings_file s) (disk_ok s) (dialogs s).

Definition open_window (w : key * nat) (s : app) : app :=
  mkApp (heap s) (events s) (w :: windows s) (year_entry s) (month_entry s)
        (view_mode s) (events_file s) (settings_file s) (disk_ok s) (dialogs s).

Definition set_entries (y m : string) (s : app) : app :=
  mkApp (heap s) (events s) (windows s) y m (view_mode s)
        (events_file s) (settings_file s) (disk_ok s) (dialogs s).

Definition set_view_mode (v : string) (s : app) : app :=
  mkApp (heap s) (events s) (windows s) (year_entry s) (month_entry s) v
        (events_file s) (settings_file s) (disk_ok s) (dialogs s).

Definition write_events (f : PyDict.dict string (list event)) (s : app) : app :=
  mkApp (heap s) (events s) (windows s) (year_entry s) (month_entry s)
        (view_mode s) (Some f) (settings_file s) (disk_ok s) (dialogs s).

Definition write_settings (y m : Z) (s : app) : app :=
  mkApp (heap s) (events s) (windows s) (year_entry s) (month_entry s)
        (view_mode s) (events_file s) (Some (y, m)) (disk_ok s) (dialogs s).

Definition set_disk (ok : bool) (s : app) : app :=
  mkApp (heap s) (events s) (windows s) (year_entry s) (month_entry s)
        (view_mode s) (events_file s) (settings_file s) ok (dialogs s).

Definition show (d : dialog) (s : app) : app :=
  mkApp (heap s) (events s) (windows s) (year_entry s) (month_entry s)
        (view_mode s) (events_file s) (settings_file s) (disk_ok s)
        (d :: dialogs s).

(** The list object at a location. *)
Definition deref (h : list (list event)) (loc : nat) : list event :=
  default [] (h !! loc).

(** [events.get(k, [])], read only. *)
Definition day_events (k : key) (s : app) : list event :=
  match PyDict.get k (events s) with
  | Some loc => deref (heap s) loc
  | None => []
  end.

(** The list stored under a key, if the key is present. *)
Definition events_at (k : key) (s : app) : option (list event) :=
  deref (heap s) <$> PyDict.get k (events s).

(** The dictionary [events] with its lists read from the heap. *)
Definition snapshot (s : app) : PyDict.dict key (list event) :=
  (fun kv => (kv.1, deref (heap s) kv.2)) <$> events s.

(** [events[k] = l] for a list object [l] that is new. *)
Definition assign (k : key) (l : list event) (s : app) : app :=
  set_store (heap s ++ [l]) (PyDict.set k (length (heap s)) (events s)) s.

(** A mutation in place of the list object at [loc]. *)
Definition mutate (loc : nat) (f : list event -> list event) (s : app) : app :=
  set_store (alter f loc (heap s)) (events s) s.

(** [events.setdefault(k, []).append(ev)] *)
Definition append_event (k : key) (ev : event) (s : app) : app :=
  match PyDict.get k (events s) with
  | Some loc => mutate loc (fun l => l ++ [ev]) s
  | None => assign k [ev] s
  end.

(** [l.insert(j, x)]: past the end, it appends. *)
Definition list_insert_at {A : Type} (j : nat) (x : A) (l : list A) : list A :=
  take j l ++ x :: drop j l.

(** [events.update(d)] for a dictionary [d] whose lists are new objects. *)
Definition update_events (d : PyDict.dict key (list event)) (s : app) : app :=
  fold_left (fun acc kv => assign kv.1 kv.2 acc) d s.

(** How a handler ends: it returns, or an exception leaves it (Tk reports
    it and goes on with the state as it is). *)
Inductive outcome : Type :=
  | Done (s : app)
  | Raised (s : app).

Definition final (o : outcome) : app :=
  match o with
  | Done s => s
  | Raised s => s
  end.

Definition and_then (o : outcome) (f : app -> outcome) : outcome :=
  match o with
  | Done s => f s
  | Raised s => Raised s
  end.

Notation "o >>> f" := (and_then o f) (at level 50, left associativity).

(** What the user answers in the dialogs of [add_event]. *)
Record add_input : Type := {
  in_text : option string;
  in_time : option string;
  in_priority : option Z;
  in_color : option string
}.

(** What the widgets of the edit panel hold when Save is pressed. *)
Record edit_form : Type := {
  f_text : string;
  f_time : string;
  f_priority : string;
  f_color : string
}.

(** How drawing the calendar ends: it returns, [jdatetime] raises
    [ValueError], or something else raises. *)
Inductive draw_result : Type :=
  | Drawn
  | DrawValueError
  | DrawFailure.

(** ** Export

    [export_events] is a handler that does not draw. *)

(** The document that [export_events] and [save_events] write, as the
    JSON value that [json.load] reads back: an object of arrays of
    arrays. *)
Definition json_of_events (doc : PyDict.dict string (list event)) : pyval :=
  VDict ((fun kv => (kv.1, VList (VList <$> kv.2))) <$> doc).

(** [export_events()]: [chosen] tells whether the user picked a file; the
    second component is the document written to it. *)
Definition export_events (chosen : bool) (s : app)
  : app * option (PyDict.dict string (list event)) :=
  if chosen then
    if disk_ok s then
      (show (ShowInfo "Events exported successfully.") s,
       Some (encode_store (snapshot s)))
    else (show (ShowError "Failed to export events: ") s, None)
  else (s, None).

(** ** The handlers *)

Section Handlers.

(** Drawing ([show_calendar], [show_full_year_calendar]) changes widgets
    only.  [draw year_view y m store] tells how it ends. *)
Variable draw : bool -> Z -> Z -> PyDict.dict key (list event) -> draw_result.

(** [save_events()] *)
Definition save_events (s : app) : app :=
  if disk_ok s then write_events (encode_store (snapshot s)) s
  else show (ShowError "Failed to save events: ") s.

(** [save_settings(year, month)] *)
Definition save_settings (year month : Z) (s : app) : app :=
  if disk_ok s then write_settings year month s
  else show (ShowError "Failed to save settings: ") s.

(** [load_events()], run once when the program starts: [events] becomes
    a new dictionary whose lists are new objects.  The [ValueError] of a
    key that [int] rejects is not caught. *)
Definition load_events (s : app) : outcome :=
  match events_file s with
  | None => Done s
  | Some raw =>
      if disk_ok s then
        match decode_store raw with
        | Some d => Done (update_events d (set_store (heap s) [] s))
        | None => Raised s
        end
      else Done (show (ShowError "Failed to load events: ") s)
  end.

(** [set_calendar()] *)
Definition set_calendar (s : app) : outcome :=
  match PyStr.py_int (year_entry s), PyStr.py_int (month_entry s) with
  | Some y, Some m =>
      if (1 <=? m) && (m <=? 12) then
        let s1 := save_settings y m s in
        match draw (String.eqb (view_mode s1) "year") y m (snapshot s1) with
        | Drawn => Done s1
        | DrawValueError => Done (show (ShowError "Invalid input: ") s1)
        | DrawFailure => Raised s1
        end
      else Done (show (ShowError "Invalid input: ") s)
  | _, _ => Done (show (ShowError "Invalid input: ") s)
  end.

(** The month and year that [change_month] moves to. *)
Definition shift_month (y m delta : Z) : Z * Z :=
  let m := m + delta in
  if m <? 1 then (y - 1, 12)
  else if m >? 12 then (y + 1, 1)
  else (y, m).

(** [change_month(delta)] *)
Definition change_month (delta : Z) (s : app) : outcome :=
  match PyStr.py_int (year_entry s), PyStr.py_int (month_entry s) with
  | Some y, Some m =>
      let ym := shift_month y m delta in
      Done (set_entries (PyStr.py_str ym.1) (PyStr.py_str ym.2) s)
      >>> set_calendar
      >>> (fun s => Done (save_settings ym.1 ym.2 s))
  | _, _ => Done (show (ShowError "Please enter valid numbers.") s)
  end.

(** The tuple [(event, color_code, time or "", priority)]. *)
Definition new_record (text : string) (color : option string)
           (time : option string) (priority : Z) : event :=
  [ VStr text;
    match color with Some c => VStr c | None => VNone end;
    VStr (or_else time EmptyString);
    VInt priority ].

(** The dialogs of [add_event] up to the point where the record is
    stored: the record, or the state in which the handler returns. *)
Definition ask_event (inp : add_input) (s : app) : event + app :=
  if truthy (in_text inp) then
    if truthy (in_time inp)
       && negb (validate_time (or_else (in_time inp) EmptyString))
    then inr (show (ShowError "Invalid time format. Use HH:MM (24-hour).") s)
    else match in_priority inp with
         | None => inr s
         | Some p =>
             inl (new_record (or_else (in_text inp) EmptyString)
                             (in_color inp) (in_time inp) p)
         end
  else inr s.

(** [add_event(year, month, day)] with [k = (year, month, day)]. *)
Definition add_event (k : key) (inp : add_input) (s : app) : outcome :=
  match ask_event inp s with
  | inr s' => Done s'
  | inl ev =>
      Done (save_events (append_event k ev s))
      >>> set_calendar
      >>> (fun s => Done (show (ShowInfo "Event added.") s))
  end.

(** [edit_event_panel(year, month, day, idx)]: the panel holds the list
    of the key and [idx].  Filling the widgets reads the four fields of
    the record and calls [priority_to_str], which raises for a record that
    is not [displayable]; [built] tells whether Tk then takes the fields
    into its widgets, for it raises [TclError] on some values.  When
    something raises, the buttons of the panel are never made. *)
Definition edit_event_panel (k : key) (idx : Z) (built : bool) (s : app)
  : outcome :=
  match PyDict.get k (events s) with
  | Some loc =>
      let l := deref (heap s) loc in
      if bool_decide (l = []) || (idx <? 0) || (idx >=? Z.of_nat (length l))
      then Done (show (ShowInfo "No event to edit.") s)
      else match l !! Z.to_nat idx with
           | Some event =>
               if displayable event && built
               then Done (open_window (k, loc) s)
               else Raised s
           | None => Raised s
           end
  | None => Done (show (ShowInfo "No event to edit.") s)
  end.

(** [save_changes()] of the panel that holds the list at [loc] and [idx];
    the assignment raises [IndexError] past the end of the list. *)
Definition save_changes (loc idx : nat) (form : edit_form) (s : app)
  : outcome :=
  let new_text := PyStr.strip (f_text form) in
  let new_time := PyStr.strip (f_time form) in
  let new_priority := str_to_priority (f_priority form) in
  let new_color := f_color form in
  if negb (truthy (Some new_text)) then
    Done (show (ShowError "Event description cannot be empty.") s)
  else if truthy (Some new_time) && negb (validate_time new_time) then
    Done (show (ShowError "Invalid time format. Use HH:MM (24-hour).") s)
  else if bool_decide (idx < length (deref (heap s) loc))%nat then
    Done (save_events
            (mutate loc
               (fun l => <[idx := new_record new_text (Some new_color)
                                    (Some new_time) new_priority]> l) s))
    >>> set_calendar
    >>> (fun s => Done (show (ShowInfo "Event updated.") s))
  else Raised s.

(** [delete_event()] of the same panel; [pop] raises [IndexError] past
    the end of the list. *)
Definition delete_event (loc idx : nat) (choice : bool) (s : app)
  : outcome :=
  if choice then
    if bool_decide (idx < length (deref (heap s) loc))%nat then
      Done (save_events (mutate loc (fun l => delete idx l) s))
      >>> set_calendar
      >>> (fun s => Done (show (ShowInfo "Event deleted.") s))
    else Raised s
  else Done s.

(** [edit_events(year, month, day)]; [selected] is the answer to
    [askinteger].  The text of the dialog has a line for every record of
    the day, and building it raises when one of them is not
    [displayable]. *)
Definition edit_events (k : key) (selected : option Z) (built : bool)
           (s : app) : outcome :=
  let l := day_events k s in
  if bool_decide (l = []) then Done (show (ShowInfo "No events to edit.") s)
  else if forallb displayable l then
    match selected with
    | Some sel =>
        if (1 <=? sel) && (sel <=? Z.of_nat (length l))
        then edit_event_panel k (sel - 1) built s
        else Done s
    | None => Done s
    end
  else Raised s.

(** [delete_all_events()] *)
Definition delete_all_events (choice : bool) (s : app) : outcome :=
  if bool_decide (events s = []) then
    Done (show (ShowInfo "No events to delete.") s)
  else if choice then
    Done (save_events (set_store (heap s) [] s))
    >>> set_calendar
    >>> (fun s => Done (show (ShowInfo "All events have been deleted.") s))
  else Done s.

(** [view_day_page(year, month, day)]: the page holds the list of the
    key, or a new empty list when the key has none.  [populate_listbox]
    runs before the handlers of the page are bound; when it raises on a
    record that is not [displayable], the page has none. *)
Definition view_day_page (k : key) (s : app) : outcome :=
  match PyDict.get k (events s) with
  | Some loc =>
      if forallb displayable (deref (heap s) loc)
      then Done (open_window (k, loc) s)
      else Raised s
  | None =>
      Done (open_window (k, length (heap s))
                        (set_store (heap s ++ [[]]) (events s) s))
  end.

(** [drag_motion] of a day page, from row [i] to row [j]:
    [day_events.insert(j, day_events.pop(i))]. *)
Definition drag_motion (loc i j : nat) (s : app) : outcome :=
  if bool_decide (j = i) then Done s
  else match deref (heap s) loc !! i with
       | Some x =>
           Done (mutate loc (fun l => list_insert_at j x (delete i l)) s)
       | None => Raised s
       end.

(** [end_drag] of a day page after a drag has started:
    [events[key] = day_events[:]]. *)
Definition end_drag (k : key) (loc : nat) (s : app) : outcome :=
  Done (save_events (assign k (deref (heap s) loc) s)) >>> set_calendar.

(** A sorting button of a day page once [list.sort] has returned and
    left the list of the page as [l]: a copy is stored under the key and
    saved, and the list box is filled again, which raises on a record that
    is not [displayable].
    [[
      events[key] = day_events[:]
      save_events()
      populate_listbox()
      messagebox.showinfo("Sorted", ...)
    ]] *)
Definition store_sorted (message : string) (k : key) (loc : nat)
           (l : list event) (s : app) : outcome :=
  let s1 := save_events (assign k l (mutate loc (fun _ => l) s)) in
  if forallb displayable l then Done (show (ShowInfo message) s1)
  else Raised s1.

(** The sorting buttons of a day page: the list is sorted in place, then
    stored.  [None] where [sort] does not tell how [list.sort] ends. *)
Definition sort_page (sort : list event -> option (list event))
           (message : string) (k : key) (loc : nat) (s : app)
  : option outcome :=
  l ← sort (deref (heap s) loc);
  Some (store_sorted message k loc l s).

(** A sorting button where [sort_page] does not tell how [list.sort]
    ends: the list of the page is left in some order [l], and either the
    sort has raised and the handler stops there, or it has returned and
    the handler goes on. *)
Definition sort_left (raised : bool) (message : string) (k : key)
           (loc : nat) (l : list event) (s : app) : outcome :=
  if raised then Raised (mutate loc (fun _ => l) s)
  else store_sorted message k loc l s.

Definition sort_by_time (k : key) (loc : nat) (s : app) : option outcome :=
  sort_page PySort.by_time "Events sorted by time." k loc s.

Definition sort_by_priority (k : key) (loc : nat) (s : app)
  : option outcome :=
  sort_page PySort.by_priority "Events sorted by priority." k loc s.

(** [add_event_button()] of a day page. *)
Definition add_event_button (k : key) (inp : add_input) (s : app)
  : outcome :=
  match ask_event inp s with
  | inr s' => Done s'
  | inl ev =>
      Done (save_events (append_event k ev s))
      >>> set_calendar
      >>> view_day_page k
  end.

(** [edit_event_button()] of a day page. *)
Definition edit_event_button (k : key) (selected : option Z) (built : bool)
           (s : app) : outcome :=
  edit_events k selected built s >>> view_day_page k.

(** [delete_event_button()] of a day page: [events[key] = []]. *)
Definition delete_event_button (k : key) (choice : bool) (s : app)
  : outcome :=
  if bool_decide (day_events k s = []) then
    Done (show (ShowInfo "No events for ") s)
  else if choice then
    Done (save_events (assign k [] s))
    >>> set_calendar
    >>> (fun s =>
           Done (show (ShowInfo "All events for ") s))
  else Done (show (ShowInfo "No events were deleted.") s).

(** [import_events()]: [file] is [None] when no file is chosen; it holds
    the JSON value of the file otherwise, or [None] when reading or
    parsing fails.  Every exception is caught. *)
Definition import_events (file : option (option pyval)) (s : app) : app :=
  match file with
  | None => s
  | Some None => show (ShowError "Failed to import events: ") s
  | Some (Some raw) =>
      match imported_events raw with
      | None => show (ShowError "Failed to import events: ") s
      | Some imported =>
          match set_calendar (save_events (update_events imported s)) with
          | Done s' => show (ShowInfo "Events imported successfully.") s'
          | Raised s' => show (ShowError "Failed to import events: ") s'
          end
      end
  end.

(** One step of the event loop.  A handler of a day page or of an edit
    panel runs for a window that has been opened.  Where [sort_by_time] or
    [sort_by_priority] does not tell how [list.sort] ends, the step leaves
    the list of the page in any order and goes either way
    ([sort_left]). *)
Inductive handles (s : app) : app -> Prop :=
  | h_type y m : handles s (set_entries y m s)
  | h_view v : handles s (set_view_mode v s)
  | h_disk ok : handles s (set_disk ok s)
  | h_set_calendar : handles s (final (set_calendar s))
  | h_change_month delta : handles s (final (change_month delta s))
  | h_add_event k inp : handles s (final (add_event k inp s))
  | h_edit_events k sel built :
      handles s (final (edit_events k sel built s))
  | h_delete_all choice : handles s (final (delete_all_events choice s))
  | h_view_day_page k : handles s (final (view_day_page k s))
  | h_import file : handles s (import_events file s)
  | h_save_changes k loc idx form :
      (k, loc) ∈ windows s ->
      handles s (final (save_changes loc idx form s))
  | h_delete_event k loc idx choice :
      (k, loc) ∈ windows s ->
      handles s (final (delete_event loc idx choice s))
  | h_drag_motion k loc i j :
      (k, loc) ∈ windows s ->
      handles s (final (drag_motion loc i j s))
  | h_end_drag k loc :
      (k, loc) ∈ windows s ->
      handles s (final (end_drag k loc s))
  | h_sort_by_time k loc o :
      (k, loc) ∈ windows s ->
      sort_by_time k loc s = Some o ->
      handles s (final o)
  | h_sort_by_priority k loc o :
      (k, loc) ∈ windows s ->
      sort_by_priority k loc s = Some o ->
      handles s (final o)
  | h_sort_by_time_left k loc l raised :
      (k, loc) ∈ windows s ->
      sort_by_time k loc s = None ->
      l ≡ₚ deref (heap s) loc ->
      handles s (final (sort_left raised "Events sorted by time." k loc l s))
  | h_sort_by_priority_left k loc l raised :
      (k, loc) ∈ windows s ->
      sort_by_priority k loc s = None ->
      l ≡ₚ deref (heap s) loc ->
      handles s
        (final (sort_left raised "Events sorted by priority." k loc l s))
  | h_add_event_button k loc inp :
      (k, loc) ∈ windows s ->
      handles s (final (add_event_button k inp s))
  | h_edit_event_button k loc sel built :
      (k, loc) ∈ windows s ->
      handles s (final (edit_event_button k sel built s))
  | h_delete_event_button k loc choice :
      (k, loc) ∈ windows s ->
      handles s (final (delete_event_button k choice s))
  | h_export_events chosen : handles s (export_events chosen s).1.

(** The program before [load_events]: no list, no key, no window. *)
Definition fresh (s : app) : Prop :=
  heap s = [] /\ events s = [] /\ windows s = [].

(** The states that the program reaches. *)
Inductive reachable : app -> Prop :=
  | reach_start s : fresh s -> reachable (final (load_events s))
  | reach_step s s' : reachable s -> handles s s' -> reachable s'.

End Handlers.

(** ** Predicates of the specification *)

(** A key as the program makes it: [(year, month, day)], no component
    negative. *)
Definition date_key (k : key) : Prop :=
  length k = 3%nat /\ Forall (fun z => 0 <= z) k.

(** The time of a record whose third field is a string. *)
Definition time_of (e : event) : string :=
  match e !! 2%nat with
  | Some (VStr t) => t
  | _ => EmptyString
  end.

(** The sort key of a record whose time is the string [t]. *)
Definition key_of_time (t : string) : bool * string :=
  match t with
  | EmptyString => (true, "25:00")
  | _ => (false, t)
  end.

(** The same key as the tuple of Python values that [sort_by_time]
    compares. *)
Definition time_key_of (k : bool * string) : bool * pyval := (k.1, VStr k.2).

(** The order of two such keys: the first components that differ decide,
    [False < True]. *)
Definition key_lt (a b : bool * string) : bool :=
  if Bool.eqb a.1 b.1 then String.ltb a.2 b.2 else negb a.1 && b.1.

(** The order in which [sort_by_time] leaves two records. *)
Definition time_le (e1 e2 : event) : Prop :=
  key_lt (key_of_time (time_of e2)) (key_of_time (time_of e1)) = false.

(** The third field of the record is a string. *)
Definition has_time_string (e : event) : Prop :=
  exists t, e !! 2%nat = Some (VStr t).

(** A record with the four fields text, color, time, priority. *)
Definition four_fields (e : event) : Prop := length e = 4%nat.

(** Every record of every list object has four fields. *)
Definition all_four (s : app) : Prop :=
  forall loc l, heap s !! loc = Some l -> Forall four_fields l.

(** The list [r] is the one of key [k], or a list that no key holds. *)
Definition owned (s : app) (k : key) (r : nat) : Prop :=
  (r < length (heap s))%nat
  /\ forall k', PyDict.get k' (events s) = Some r -> k' = k.

(** The dictionary names list objects that exist, two keys never share
    one, and every window holds the list of its key or a list that the
    dictionary has dropped. *)
Definition wf (s : app) : Prop :=
  (forall k r, PyDict.get k (events s) = Some r -> owned s k r)
  /\ (forall k r, (k, r) ∈ windows s -> owned s k r).

(** Field [i] of the record [r] built from the imported list [l]: the
    field of [l] when it has one, the default [d] when it is missing. *)
Definition filled (l : list pyval) (r : event) (i : nat) (d : pyval) : Prop :=
  ((i < length l)%nat -> r !! i = l !! i)
  /\ ((length l <= i)%nat -> r !! i = Some d).

(** A first run: no files yet, the entries show the given year and month. *)
Definition first_run (year month : string) : app :=
  mkApp [] [] [] year month "month" None None true [].

(** A drawing that never raises. *)
Definition draw_fine (year_view : bool) (y m : Z)
           (store : PyDict.dict key (list event)) : draw_result := Drawn.

(** The state [s'] has the lists, the dictionary and the windows of [s]. *)
Definition same_store (s s' : app) : Prop :=
  heap s' = heap s /\ events s' = events s /\ windows s' = windows s.

(** The changes of lists, dictionary and windows that a handler bound to
    the key [k] makes: it mutates a list that [k] owns, stores a new list
    under [k], opens a window on a new list that no key holds, or opens a
    window on a list that [k] owns, as far as the state it starts from is
    well formed.
    The lists it writes have records of four fields whenever the lists it
    reads have. *)
Inductive touches (k : key) : app -> app -> Prop :=
  | touch_same s s' :
      same_store s s' -> touches k s s'
  | touch_mutate s loc f s' :
      (wf s -> owned s k loc) ->
      (all_four s -> forall l, Forall four_fields l -> Forall four_fields (f l)) ->
      same_store (mutate loc f s) s' -> touches k s s'
  | touch_assign s l s' :
      (all_four s -> Forall four_fields l) ->
      same_store (assign k l s) s' -> touches k s s'
  | touch_alloc s l s' :
      (all_four s -> Forall four_fields l) ->
      same_store (open_window (k, length (heap s))
                    (set_store (heap s ++ [l]) (events s) s)) s' ->
      touches k s s'
  | touch_window s r s' :
      (wf s -> owned s k r) ->
      same_store (open_window (k, r) s) s' -> touches k s s'
  | touch_trans s s1 s2 :
      touches k s s1 -> touches k s1 s2 -> touches k s s2.

(** ** Start of the program, and the grid of a month *)

(** [load_settings()]: the pair [(last_year, last_month)] and the state, in
    which an error may have been shown. *)
Definition load_settings (s : app) : app * (option Z * option Z) :=
  match settings_file s with
  | None => (s, (None, None))
  | Some (y, m) =>
      if disk_ok s then (s, (Some y, Some m))
      else (show (ShowError "Failed to load settings: ") s, (None, None))
  end.

(** [year_entry.insert(0, y); month_entry.insert(0, m)] *)
Definition insert_entries (y m : string) (s : app) : app :=
  set_entries (y +:+ year_entry s) (m +:+ month_entry s) s.

(** [(date.togregorian().weekday() + 2) % 7]: the column of the first
    day, Saturday in column 0. *)
Definition first_weekday (weekday : Z) : Z := (weekday + 2) mod 7.

(** The loop that places the day buttons: every day with its row and
    column.
    [[
      for day in ...:
          btn.grid(row=row, column=col)
          col += 1
          if col > 6: col, row = 0, row + 1
    ]] *)
Fixpoint place_days (days : list Z) (row col : Z) : list (Z * (Z * Z)) :=
  match days with
  | [] => []
  | day :: rest =>
      (day, (row, col))
        :: (if col + 1 >? 6 then place_days rest (row + 1) 0
            else place_days rest row (col + 1))
  end.

(** The cells of [show_calendar(year, month)], whose first row of days is
    row 2; [weekday] is the Gregorian weekday of the first day. *)
Definition month_cells (jdate_valid : Z -> Z -> Z -> bool)
           (weekday year month : Z) : list (Z * (Z * Z)) :=
  place_days (seqZ 1 (get_days_in_month jdate_valid year month))
             2 (first_weekday weekday).

(** The background of a day button in [show_calendar]; [None] is the
    [IndexError] of a record without a colour field.
    [[
      event_count = len(events.get(key, []))
      event_colors = [e[1] for e in events.get(key, [])]
      bg_color = 'red' if is_today else (
          event_colors[0] if event_colors and event_colors[0] != '#cccccc'
          else get_event_color(event_count))
    ]] *)
Definition day_color (is_today : bool) (evs : list event) : option pyval :=
  event_colors ← mapM (fun e : event => e !! 1%nat) evs;
  if is_today then Some (VStr "red")
  else
    let shade := VStr <$> get_event_color (Z.of_nat (length evs)) None in
    match event_colors with
    | [] => shade
    | VStr c :: _ => if String.eqb c "#cccccc" then shade else Some (VStr c)
    | c :: _ => Some c
    end.

Section Startup.

Variable draw : bool -> Z -> Z -> PyDict.dict key (list event) -> draw_result.

(** The end of the script: load the events and the settings, fill the
    entries with the saved year and month or with today's, and draw.
    [[
      load_events()
      last_year, last_month = load_settings()
      if last_year and last_month: ...
      else: ...
      set_calendar()
    ]] *)
Definition startup (today_year today_month : Z) (s : app) : outcome :=
  load_events s
  >>> (fun s1 =>
         let '(s2, (last_year, last_month)) := load_settings s1 in
         let today :=
           insert_entries (PyStr.py_str today_year)
                          (PyStr.py_str today_month) s2 in
         let s3 :=
           match last_year, last_month with
           | Some y, Some m =>
               if negb (y =? 0) && negb (m =? 0)
               then insert_entries (PyStr.py_str y) (PyStr.py_str m) s2
               else today
           | _, _ => today
           end in
         set_calendar draw s3).

End Startup.

(** A key that [save_events] can write and [load_events] can read back:
    a tuple that is not empty and has no negative component. *)
Definition storable (k : key) : Prop := k <> [] /\ Forall (fun z => 0 <= z) k.

(** The priority of a record whose fourth field is an integer. *)
Definition priority_of (e : event) : Z :=
  match e !! 3%nat with
  | Some (VInt p) => p
  | _ => 0
  end.

(** The fourth field of the record is an integer. *)
Definition has_int_priority (e : event) : Prop :=
  exists p, e !! 3%nat = Some (VInt p).

(** * Properties *)

(** ** Characters and numerals *)

Module CharFacts.
Import Chars.

Lemma in_range_iff lo hi c :
  in_range lo hi c = true <-> (code lo <= code c <= code hi)%nat.
Proof.
  unfold in_range. rewrite andb_true_iff, !Nat.leb_le. tauto.
Qed.

Lemma is_digit_iff c : is_digit c = true <-> (48 <= code c <= 57)%nat.
Proof. unfold is_digit. now rewrite in_range_iff. Qed.

Lemma code_digit_char d :
  0 <= d < 10 -> code (digit_char d) = (Z.to_nat d + 48)%nat.
Proof.
  intros Hd. unfold code, digit_char. apply nat_ascii_embedding. lia.
Qed.

Lemma is_digit_digit_char d : 0 <= d < 10 -> is_digit (digit_char d) = true.
Proof.
  intros Hd. apply is_digit_iff. rewrite code_digit_char by done. lia.
Qed.

Lemma digit_val_digit_char d : 0 <= d < 10 -> digit_val (digit_char d) = d.
Proof.
  intros Hd. unfold digit_val. rewrite code_digit_char by done. lia.
Qed.

Lemma digit_val_range c : is_digit c = true -> 0 <= digit_val c < 10.
Proof. rewrite is_digit_iff. unfold digit_val. lia. Qed.

Lemma eqb_code c d : Ascii.eqb c d = true -> code c = code d.
Proof. intros H. apply Ascii.eqb_eq in H. now subst. Qed.

Lemma digit_not_space c : is_digit c = true -> is_space c = false.
Proof.
  rewrite is_digit_iff. intros H. unfold is_space. cbv zeta.
  repeat match goal with
         | |- context [(?a <=? ?b)%nat] => destruct (Nat.leb_spec a b)
         | |- context [(?a =? ?b)%nat] => destruct (Nat.eqb_spec a b)
         end; simpl; try reflexivity; lia.
Qed.

Lemma digit_not_int_space c : is_digit c = true -> is_int_space c = false.
Proof.
  rewrite is_digit_iff. intros H. unfold is_int_space. cbv zeta.
  repeat match goal with
         | |- context [(?a <=? ?b)%nat] => destruct (Nat.leb_spec a b)
         | |- context [(?a =? ?b)%nat] => destruct (Nat.eqb_spec a b)
         end; simpl; try reflexivity; lia.
Qed.

(** What [int] skips, [str.strip] removes. *)
Lemma int_space_is_space c : is_int_space c = true -> is_space c = true.
Proof.
  unfold is_int_space, is_space. cbv zeta.
  repeat match goal with
         | |- context [(?a <=? ?b)%nat] => destruct (Nat.leb_spec a b)
         | |- context [(?a =? ?b)%nat] => destruct (Nat.eqb_spec a b)
         end; simpl; try reflexivity; try discriminate; lia.
Qed.

Lemma digit_not_char c d :
  is_digit c = true -> (code d < 48 \/ 57 < code d)%nat ->
  Ascii.eqb c d = false.
Proof.
  rewrite is_digit_iff. intros Hc Hd.
  destruct (Ascii.eqb c d) eqn:E; [|done].
  apply eqb_code in E. lia.
Qed.

End CharFacts.

Module PyStrFacts.
Import Chars PyStr CharFacts.

Lemma append_cons x (a b : string) : String x a +:+ b = String x (a +:+ b).
Proof. reflexivity. Qed.

Lemma append_nil_l (b : string) : EmptyString +:+ b = b.
Proof. reflexivity. Qed.

Lemma append_assoc (a b c : string) : (a +:+ b) +:+ c = a +:+ (b +:+ c).
Proof.
  induction a as [|x a IH]; [done|]. rewrite !append_cons. by f_equal.
Qed.

Lemma append_nil_r (a : string) : a +:+ EmptyString = a.
Proof.
  induction a as [|x a IH]; [done|]. rewrite append_cons. by f_equal.
Qed.

Lemma all_digits_app a b :
  all_digits (a +:+ b) = all_digits a && all_digits b.
Proof.
  induction a as [|x a IH]; [done|].
  rewrite append_cons. simpl. now rewrite IH, andb_assoc.
Qed.

Lemma val_of_app acc a b : val_of acc (a +:+ b) = val_of (val_of acc a) b.
Proof.
  revert acc. induction a as [|x a IH]; intros acc; [done|].
  rewrite append_cons. simpl. apply IH.
Qed.

(** On a run of digits the parser never fails. *)
Lemma parse_digits_all prev acc s :
  all_digits s = true ->
  parse_digits prev acc s =
    match s with
    | EmptyString => if prev then Some acc else None
    | _ => Some (val_of acc s)
    end.
Proof.
  revert prev acc. induction s as [|c s IH]; intros prev acc H; [done|].
  simpl in H. apply andb_true_iff in H as [Hc Hs].
  simpl. rewrite Hc, (IH _ _ Hs). now destruct s.
Qed.

(** The digits that [digits_go] puts in front of [acc]. *)
Lemma digits_go_spec fuel : forall n acc,
  (0 < fuel)%nat -> 0 <= n < 2 ^ Z.of_nat fuel ->
  exists ds, digits_go fuel n acc = ds +:+ acc /\ ds <> EmptyString
             /\ all_digits ds = true /\ val_of 0 ds = n.
Proof.
  induction fuel as [|fuel IH]; intros n acc Hf Hn; [lia|].
  assert (Hd : 0 <= n mod 10 < 10) by (apply Z.mod_pos_bound; lia).
  simpl. destruct (Z.eqb_spec (n / 10) 0) as [Hq|Hq].
  - exists (String (digit_char (n mod 10)) EmptyString).
    repeat split; [done | |].
    + simpl. now rewrite is_digit_digit_char.
    + simpl. rewrite digit_val_digit_char by done.
      pose proof (Z.div_mod n 10). lia.
  - assert (Hn10 : 10 <= n).
    { destruct (Z_lt_le_dec n 10) as [Hlt|]; [|done].
      rewrite Z.div_small in Hq by lia. done. }
    rewrite Nat2Z.inj_succ, Z.pow_succ_r in Hn by lia.
    assert (Hfuel : (0 < fuel)%nat).
    { destruct fuel; [simpl in Hn; lia | lia]. }
    assert (Hq' : 0 <= n / 10 < 2 ^ Z.of_nat fuel).
    { split; [apply Z.div_pos; lia|].
      apply Z.div_lt_upper_bound; lia. }
    destruct (IH (n / 10) (String (digit_char (n mod 10)) acc) Hfuel Hq')
      as (ds & Heq & Hne & Hall & Hval).
    exists (ds +:+ String (digit_char (n mod 10)) EmptyString).
    repeat split.
    + now rewrite Heq, append_assoc.
    + destruct ds; [done | discriminate].
    + rewrite all_digits_app, Hall. simpl. now rewrite is_digit_digit_char.
    + rewrite val_of_app, Hval. simpl.
      rewrite digit_val_digit_char by done.
      pose proof (Z.div_mod n 10). lia.
Qed.

Lemma digits_spec n :
  0 <= n ->
  digits n <> EmptyString /\ all_digits (digits n) = true
  /\ val_of 0 (digits n) = n.
Proof.
  intros Hn. unfold digits, digits_fuel.
  destruct (digits_go_spec (S (Z.to_nat (Z.log2 n))) n EmptyString)
    as (ds & Heq & Hne & Hall & Hval); [lia | |].
  - split; [done|]. rewrite Nat2Z.inj_succ, Z2Nat.id by apply Z.log2_nonneg.
    destruct (Z.eq_dec n 0) as [->|]; [simpl; lia|].
    apply Z.log2_spec. lia.
  - rewrite Heq, append_nil_r. done.
Qed.

Lemma rstrip_no_space space s :
  (forall c, mem c s = true -> space c = false) -> rstrip space s = s.
Proof.
  induction s as [|c s IH]; intros H; [done|]. simpl.
  rewrite IH.
  - destruct s; [|done]. rewrite (H c); [done|].
    simpl. now rewrite Ascii.eqb_refl.
  - intros d Hd. apply H. simpl. rewrite Hd. apply orb_true_r.
Qed.

Lemma mem_all_digits c s :
  all_digits s = true -> mem c s = true -> is_digit c = true.
Proof.
  induction s as [|d s IH]; simpl; [done|].
  intros [Hd Hs]%andb_true_iff [Hc|Hc]%orb_true_iff; [|auto].
  apply Ascii.eqb_eq in Hc. now subst.
Qed.

Lemma mem_digits_false c s :
  all_digits s = true -> is_digit c = false -> mem c s = false.
Proof.
  intros Hs Hc. destruct (mem c s) eqn:E; [|done].
  rewrite (mem_all_digits c s) in Hc; done.
Qed.

(** [int] reads a non-empty run of digits as the number it denotes. *)
Lemma py_int_digits s :
  s <> EmptyString -> all_digits s = true -> py_int s = Some (val_of 0 s).
Proof.
  intros Hne Hall. unfold py_int.
  destruct s as [|c s]; [done|].
  pose proof Hall as Hall'. simpl in Hall'.
  apply andb_true_iff in Hall' as [Hc Hs].
  assert (Hl : lstrip is_int_space (String c s) = String c s).
  { simpl. now rewrite digit_not_int_space. }
  rewrite Hl, rstrip_no_space.
  - rewrite !digit_not_char by (done || (vm_compute; lia)).
    now rewrite (parse_digits_all _ _ _ Hall).
  - intros d Hd. apply digit_not_int_space.
    by apply (mem_all_digits d (String c s)).
Qed.

(** [int(str(z)) == z] *)
Lemma py_int_py_str z : py_int (py_str z) = Some z.
Proof.
  unfold py_str. destruct (Z.ltb_spec z 0) as [Hz|Hz].
  - destruct (digits_spec (- z)) as (Hne & Hall & Hval); [lia|].
    unfold py_int.
    assert (Hl : lstrip is_int_space (String "-" (digits (- z)))
                 = String "-" (digits (- z)))
      by reflexivity.
    rewrite Hl, rstrip_no_space.
    + change (Ascii.eqb "-" "-") with true. cbv iota.
      rewrite (parse_digits_all _ _ _ Hall).
      destruct (digits (- z)); [done|]. simpl in *. rewrite Hval.
      f_equal. lia.
    + intros d [Hd|Hd]%orb_true_iff.
      * apply Ascii.eqb_eq in Hd. now subst.
      * apply digit_not_int_space.
        by apply (mem_all_digits d (digits (- z))).
  - destruct (digits_spec z) as (Hne & Hall & Hval); [lia|].
    rewrite py_int_digits by done. now rewrite Hval.
Qed.

Lemma py_str_no_dash z : 0 <= z -> mem "-" (py_str z) = false.
Proof.
  intros Hz. unfold py_str. destruct (Z.ltb_spec z 0); [lia|].
  apply mem_digits_false; [apply digits_spec; lia | reflexivity].
Qed.

Lemma split_no_sep sep s : mem sep s = false -> split sep s = [s].
Proof.
  induction s as [|c s IH]; simpl; [done|].
  intros [Hc Hs]%orb_false_iff. rewrite Hc, IH; done.
Qed.

Lemma split_app sep a b :
  mem sep a = false ->
  split sep (a +:+ String sep b) = a :: split sep b.
Proof.
  induction a as [|c a IH].
  - intros _. rewrite append_nil_l. simpl. now rewrite Ascii.eqb_refl.
  - rewrite append_cons. simpl.
    intros [Hc Ha]%orb_false_iff. rewrite Hc, IH; done.
Qed.

(** Splitting what [join] made gives the pieces back. *)
Lemma split_join sep l :
  l <> [] -> Forall (fun x => mem sep x = false) l ->
  split sep (join (String sep EmptyString) l) = l.
Proof.
  induction l as [|x l IH]; intros Hne Hall; [done|].
  apply Forall_cons in Hall as [Hx Hl].
  destruct l as [|y l].
  - simpl. now apply split_no_sep.
  - change (join (String sep EmptyString) (x :: y :: l))
      with (x +:+ String sep (join (String sep EmptyString) (y :: l))).
    rewrite split_app by done. f_equal. now apply IH.
Qed.

End PyStrFacts.

(** ** Dictionaries *)

Module PyDictFacts.
Import PyDict.

Section Facts.
Context {K : Type} `{EqDecision K} {V : Type}.
Implicit Types (d : dict K V) (k : K) (v : V).

Lemma get_set_eq k v d : get k (set k v d) = Some v.
Proof.
  induction d as [|[k' v'] d IH]; simpl.
  - by rewrite decide_True.
  - destruct (decide (k' = k)) as [->|Hne]; simpl.
    + by rewrite decide_True.
    + by rewrite decide_False.
Qed.

Lemma get_set_ne k k' v d : k <> k' -> get k' (set k v d) = get k' d.
Proof.
  intros Hne. induction d as [|[k0 v0] d IH]; simpl.
  - by rewrite decide_False.
  - destruct (decide (k0 = k)) as [->|Hk]; simpl.
    + by rewrite !decide_False.
    + by rewrite IH.
Qed.

Lemma get_None k d : get k d = None <-> k ∉ keys d.
Proof.
  unfold keys. induction d as [|[k' v'] d IH]; simpl.
  - split; [intros _; apply not_elem_of_nil | done].
  - rewrite not_elem_of_cons. destruct (decide (k' = k)) as [->|Hne].
    + split; [done | intros [? _]; done].
    + rewrite IH. split; [intros ?; split; [congruence | done] | tauto].
Qed.

Lemma get_Some_elem k v d : get k d = Some v -> (k, v) ∈ d.
Proof.
  induction d as [|[k' v'] d IH]; simpl; [done|].
  destruct (decide (k' = k)) as [->|Hne].
  - intros [= ->]. apply list_elem_of_here.
  - intros H'. apply list_elem_of_further. auto.
Qed.

Lemma set_fresh k v d : k ∉ keys d -> set k v d = d ++ [(k, v)].
Proof.
  unfold keys. induction d as [|[k' v'] d IH]; simpl; [done|].
  rewrite not_elem_of_cons. intros [Hne Hk].
  rewrite decide_False by congruence. by rewrite IH.
Qed.

Lemma update_fresh d (items : dict K V) :
  NoDup (keys (d ++ items)) -> update d items = d ++ items.
Proof.
  unfold update, keys. revert d.
  induction items as [|[k v] items IH]; intros d Hnd; simpl.
  - by rewrite app_nil_r.
  - rewrite set_fresh.
    + rewrite IH; rewrite <- app_assoc; done.
    + rewrite fmap_app in Hnd. apply NoDup_app in Hnd as (_ & Hdis & _).
      intros Hin. apply (Hdis k Hin). simpl. apply list_elem_of_here.
Qed.

(** A comprehension over items with distinct keys is these items. *)
Lemma of_items_fresh (items : dict K V) :
  NoDup (keys items) -> of_items items = items.
Proof. intros Hnd. unfold of_items. by rewrite update_fresh. Qed.

End Facts.
End PyDictFacts.

(** ** Keys in the events file *)

Lemma decode_encode_key (k : key) :
  k <> [] -> Forall (fun z => 0 <= z) k -> decode_key (encode_key k) = Some k.
Proof.
  intros Hne Hpos. unfold decode_key, encode_key.
  rewrite PyStrFacts.split_join.
  - apply mapM_fmap_Some. intros z. apply PyStrFacts.py_int_py_str.
  - by destruct k.
  - apply Forall_fmap. eapply Forall_impl; [exact Hpos|].
    intros z Hz. by apply PyStrFacts.py_str_no_dash.
Qed.

Lemma date_key_decode (k : key) :
  date_key k -> decode_key (encode_key k) = Some k.
Proof.
  intros [Hlen Hpos]. apply decode_encode_key; [|done].
  by destruct k.
Qed.

(** Distinct date keys have distinct names in the file. *)
Lemma encode_key_inj (k1 k2 : key) :
  date_key k1 -> date_key k2 -> encode_key k1 = encode_key k2 -> k1 = k2.
Proof.
  intros H1%date_key_decode H2%date_key_decode Heq.
  rewrite Heq in H1. congruence.
Qed.

Lemma encoded_keys_NoDup (ks : list key) :
  NoDup ks -> Forall date_key ks -> NoDup (encode_key <$> ks).
Proof.
  induction 1 as [|k ks Hk Hnd IH]; intros Hall; simpl; [constructor|].
  apply Forall_cons in Hall as [Hdk Hall].
  constructor; [|auto].
  intros (k' & Heq & Hin)%list_elem_of_fmap.
  rewrite Forall_forall in Hall.
  apply encode_key_inj in Heq; [subst; done | done | auto].
Qed.

Lemma encode_store_fresh {V : Type} (d : PyDict.dict key V) :
  NoDup (PyDict.keys d) -> Forall date_key (PyDict.keys d) ->
  encode_store d = (fun kv => (encode_key kv.1, kv.2)) <$> d.
Proof.
  intros Hnd Hall. unfold encode_store.
  apply PyDictFacts.of_items_fresh. unfold PyDict.keys in *.
  rewrite <- list_fmap_compose.
  change (fst ∘ (fun kv : key * V => (encode_key kv.1, kv.2)))
    with (encode_key ∘ (fst : key * V -> key)).
  rewrite list_fmap_compose. by apply encoded_keys_NoDup.
Qed.

(** C2: for a store whose keys are dates with no negative component,
    reading back with the decoding of [load_events] what the encoding of
    [save_events] writes gives the same store: the same keys in the same
    order, each with its list of records untouched, so that every record
    keeps its fields in their order.  Key by key, decoding undoes
    encoding, and the file has one name per key. *)
Theorem store_codec_roundtrip (d : PyDict.dict key (list event)) :
  NoDup (PyDict.keys d) ->
  Forall date_key (PyDict.keys d) ->
  decode_store (encode_store d) = Some d
  /\ PyDict.keys (encode_store d) = encode_key <$> PyDict.keys d
  /\ Forall (fun k => decode_key (encode_key k) = Some k) (PyDict.keys d).
Proof.
  intros Hnd Hall. rewrite encode_store_fresh by done.
  split; [|split].
  - unfold decode_store.
    assert (Hm : mapM (fun kv : string * list event =>
                         k ← decode_key kv.1; Some (k, kv.2))
                   ((fun kv : key * list event => (encode_key kv.1, kv.2)) <$> d)
                 = Some d).
    { apply mapM_Some. apply Forall2_fmap_l, Forall_Forall2_diag.
      apply Forall_forall. intros [k v] Hin. simpl.
      rewrite date_key_decode; [done|].
      rewrite Forall_forall in Hall. apply Hall.
      apply list_elem_of_fmap. by exists (k, v). }
    rewrite Hm. simpl. f_equal. by apply PyDictFacts.of_items_fresh.
  - unfold PyDict.keys. by rewrite <- !list_fmap_compose.
  - eapply Forall_impl; [exact Hall|]. apply date_key_decode.
Qed.

Lemma store_codec_roundtrip_witness :
  let d := [([1403; 1; 15], [[VStr "Nowruz"; VStr "#00ff00"; VStr "08:30"; VInt 1]]);
            ([1403; 12; 29], [])] in
  decode_store (encode_store d) = Some d
  /\ PyDict.keys (encode_store d) = encode_key <$> PyDict.keys d
  /\ Forall (fun k => decode_key (encode_key k) = Some k) (PyDict.keys d).
Proof.
  apply store_codec_roundtrip.
  - apply (bool_decide_unpack _). vm_compute. exact I.
  - unfold PyDict.keys, date_key. simpl.
    repeat constructor; lia.
Defined.

(** ** Month lengths, colours, priorities *)

(** C1: for a month from 1 to 12, [get_days_in_month] gives 31 days up to
    month 6, 30 days from month 7 to month 11, and for month 12 it gives
    30 days when [is_leap_year] holds of the year and 29 days otherwise. *)
Theorem get_days_in_month_spec
        (jdate_valid : Z -> Z -> Z -> bool) (year month : Z) :
  1 <= month <= 12 ->
  (month <= 6 -> get_days_in_month jdate_valid year month = 31)
  /\ (7 <= month <= 11 -> get_days_in_month jdate_valid year month = 30)
  /\ (month = 12 ->
      (is_leap_year jdate_valid year = true ->
       get_days_in_month jdate_valid year month = 30)
      /\ (is_leap_year jdate_valid year = false ->
          get_days_in_month jdate_valid year month = 29)).
Proof.
  intros Hm. unfold get_days_in_month.
  destruct (Z.leb_spec month 6), (Z.leb_spec month 11);
    repeat split; intros; try lia; try reflexivity;
    match goal with H : is_leap_year _ _ = _ |- _ => now rewrite H end.
Qed.

Lemma get_days_in_month_spec_witness :
  let leap y _ _ := (y mod 33 =? 1) in
  get_days_in_month leap 1403 1 = 31
  /\ get_days_in_month leap 1403 7 = 30
  /\ get_days_in_month leap 1387 12 = 30
  /\ get_days_in_month leap 1402 12 = 29.
Proof.
  intros leap.
  destruct (get_days_in_month_spec leap 1403 1) as (H1 & _); [lia|].
  destruct (get_days_in_month_spec leap 1403 7) as (_ & H2 & _); [lia|].
  destruct (get_days_in_month_spec leap 1387 12) as (_ & _ & H3); [lia|].
  destruct (get_days_in_month_spec leap 1402 12) as (_ & _ & H4); [lia|].
  split; [apply H1; lia|]. split; [apply H2; lia|].
  split; [apply H3; reflexivity | apply H4; reflexivity].
Defined.

Lemma shade_index_range (n : Z) : 0 < n -> 0 <= shade_index n <= 9.
Proof. unfold shade_index. lia. Qed.

Lemma py_index_in_range {A : Type} (l : list A) (i : Z) :
  0 <= i < Z.of_nat (length l) -> is_Some (py_index l i).
Proof.
  intros Hi. unfold py_index. destruct (Z.leb_spec 0 i); [|lia].
  apply lookup_lt_is_Some. lia.
Qed.

(** C8: [get_event_color] returns a colour for every count that is not
    negative.  For the count 0 it is ['#cccccc'] whatever [event_color] is.
    For a positive count the index [min(event_count, 10) - 1] lies between
    0 and 9, inside [shades], so the list access succeeds, and the result
    is [event_color] when that is a non-empty string and the shade at the
    index otherwise. *)
Theorem get_event_color_total (event_count : Z) (event_color : option string) :
  0 <= event_count ->
  (event_count = 0 ->
   get_event_color event_count event_color = Some default_color)
  /\ (0 < event_count ->
      0 <= shade_index event_count <= 9
      /\ exists shade,
          shades !! Z.to_nat (shade_index event_count) = Some shade
          /\ py_index shades (shade_index event_count) = Some shade
          /\ get_event_color event_count event_color
             = Some (match event_color with
                     | Some (String c r) => String c r
                     | _ => shade
                     end)).
Proof.
  intros Hn. split.
  - intros ->. reflexivity.
  - intros Hpos. pose proof (shade_index_range _ Hpos) as Hi.
    split; [done|].
    destruct (py_index_in_range shades (shade_index event_count))
      as [shade Hshade]; [simpl; lia|].
    exists shade. unfold get_event_color.
    destruct (Z.gtb_spec event_count 0); [|lia].
    repeat split; [|done|].
    + unfold py_index in Hshade.
      destruct (Z.leb_spec 0 (shade_index event_count)); [done | lia].
    + destruct event_color as [[|c r]|]; simpl; by rewrite ?Hshade.
Qed.

Lemma get_event_color_total_witness :
  get_event_color 0 (Some "#ff0000") = Some default_color
  /\ get_event_color 25 None = Some "#001a33"
  /\ get_event_color 3 (Some "#ff0000") = Some "#ff0000".
Proof.
  destruct (get_event_color_total 0 (Some "#ff0000")) as [H0 _]; [lia|].
  destruct (get_event_color_total 25 None) as [_ H25]; [lia|].
  destruct (get_event_color_total 3 (Some "#ff0000")) as [_ H3]; [lia|].
  split; [apply H0; reflexivity|]. split.
  - destruct H25 as (_ & shade & Hs & _ & ->); [lia|].
    vm_compute in Hs. congruence.
  - destruct H3 as (_ & shade & _ & _ & ->); [lia|]. reflexivity.
Defined.

(** C9: on the priorities 1, 2 and 3, [str_to_priority] undoes
    [priority_to_str]; [str_to_priority] sends every string other than
    "High", "Medium" and "Low" to 2; and [priority_to_str] sends every
    integer other than 1, 2 and 3 to "Unknown". *)
Theorem priority_conversions :
  (forall p, p = 1 \/ p = 2 \/ p = 3 ->
             str_to_priority (priority_to_str p) = p)
  /\ (forall s, s <> "High" -> s <> "Medium" -> s <> "Low" ->
                str_to_priority s = 2)
  /\ (forall p, p <> 1 -> p <> 2 -> p <> 3 -> priority_to_str p = "Unknown").
Proof.
  split; [|split].
  - intros p [->|[->| ->]]; reflexivity.
  - intros s H1 H2 H3. unfold str_to_priority. simpl.
    by rewrite !decide_False by congruence.
  - intros p H1 H2 H3. unfold priority_to_str. simpl.
    by rewrite !decide_False by congruence.
Qed.

Lemma priority_conversions_witness :
  str_to_priority (priority_to_str 3) = 3
  /\ str_to_priority "Urgent" = 2
  /\ priority_to_str 7 = "Unknown".
Proof.
  destruct priority_conversions as (H1 & H2 & H3).
  split; [apply H1; lia|]. split; [by apply H2 | apply H3; lia].
Defined.

(** ** The top bar: [set_calendar] and [change_month] *)

Section TopBar.
Variable draw : bool -> Z -> Z -> PyDict.dict key (list event) -> draw_result.

Lemma save_settings_frame y m s :
  let s' := save_settings y m s in
  heap s' = heap s /\ events s' = events s /\ windows s' = windows s
  /\ year_entry s' = year_entry s /\ month_entry s' = month_entry s
  /\ events_file s' = events_file s.
Proof. unfold save_settings. by destruct (disk_ok s). Qed.

Lemma save_events_frame s :
  let s' := save_events s in
  heap s' = heap s /\ events s' = events s /\ windows s' = windows s
  /\ year_entry s' = year_entry s /\ month_entry s' = month_entry s
  /\ settings_file s' = settings_file s.
Proof. unfold save_events. by destruct (disk_ok s). Qed.

(** [set_calendar] changes neither the lists, the dictionary, the
    windows, the entries nor the events file. *)
Lemma set_calendar_frame s :
  let s' := final (set_calendar draw s) in
  heap s' = heap s /\ events s' = events s /\ windows s' = windows s
  /\ year_entry s' = year_entry s /\ month_entry s' = month_entry s
  /\ events_file s' = events_file s.
Proof.
  unfold set_calendar.
  pose proof (fun y m => save_settings_frame y m s) as Hs.
  repeat case_match; simpl; try done; apply Hs.
Qed.

(** What [set_calendar] leaves in the settings file. *)
Lemma set_calendar_settings s :
  settings_file (final (set_calendar draw s)) =
    match PyStr.py_int (year_entry s), PyStr.py_int (month_entry s) with
    | Some y, Some m =>
        if (1 <=? m) && (m <=? 12) && disk_ok s then Some (y, m)
        else settings_file s
    | _, _ => settings_file s
    end.
Proof.
  unfold set_calendar, save_settings.
  destruct (PyStr.py_int (year_entry s)) as [y|]; [|done].
  destruct (PyStr.py_int (month_entry s)) as [m|]; [|done].
  destruct ((1 <=? m) && (m <=? 12)); [|done].
  destruct (disk_ok s); simpl; by case_match.
Qed.

(** C7: [set_calendar] writes the settings file only when both entries
    are integers and the month lies between 1 and 12, and what it writes
    then is the year and the month entered; it does write them whenever
    the input is valid and the file can be opened.  When an entry is not
    an integer or the month is outside 1..12, it shows an error and
    returns with the settings file, and the rest of the state, as they
    were. *)
Theorem set_calendar_validates (s : app) :
  let s' := final (set_calendar draw s) in
  (settings_file s' <> settings_file s ->
   exists y m, PyStr.py_int (year_entry s) = Some y
               /\ PyStr.py_int (month_entry s) = Some m
               /\ 1 <= m <= 12
               /\ settings_file s' = Some (y, m))
  /\ (forall y m, PyStr.py_int (year_entry s) = Some y ->
                  PyStr.py_int (month_entry s) = Some m ->
                  1 <= m <= 12 -> disk_ok s = true ->
                  settings_file s' = Some (y, m))
  /\ (PyStr.py_int (year_entry s) = None
      \/ PyStr.py_int (month_entry s) = None
      \/ (exists m, PyStr.py_int (month_entry s) = Some m
                    /\ ~ 1 <= m <= 12) ->
      set_calendar draw s = Done (show (ShowError "Invalid input: ") s)
      /\ settings_file s' = settings_file s).
Proof.
  cbv zeta. rewrite set_calendar_settings. unfold set_calendar.
  destruct (PyStr.py_int (year_entry s)) as [y|].
  2: { split; [done|]. split; [intros; discriminate | done]. }
  destruct (PyStr.py_int (month_entry s)) as [m|].
  2: { split; [done|]. split; [intros; discriminate | done]. }
  destruct (Z.leb_spec 1 m) as [Hlo|Hlo], (Z.leb_spec m 12) as [Hhi|Hhi];
    simpl.
  - split; [|split].
    + destruct (disk_ok s); [|done]. intros _. by exists y, m.
    + by intros y' m' [= <-] [= <-] _ ->.
    + intros [?|[?|(m' & [= <-] & Hm)]]; [done | done | lia].
  - split; [done|]. split; [intros ?? _ [= <-] ? _; lia | done].
  - split; [done|]. split; [intros ?? _ [= <-] ? _; lia | done].
  - split; [done|]. split; [intros ?? _ [= <-] ? _; lia | done].
Qed.

Lemma shift_month_spec (y m : Z) :
  1 <= m <= 12 ->
  (m = 1 -> shift_month y m (-1) = (y - 1, 12))
  /\ (m = 12 -> shift_month y m 1 = (y + 1, 1))
  /\ (forall delta, delta = -1 \/ delta = 1 ->
                    ~ (delta = -1 /\ m = 1) -> ~ (delta = 1 /\ m = 12) ->
                    shift_month y m delta = (y, m + delta)).
Proof.
  intros Hm. unfold shift_month. repeat split.
  - by intros ->.
  - by intros ->.
  - intros delta Hd H1 H2.
    destruct (Z.ltb_spec (m + delta) 1); [lia|].
    destruct (Z.gtb_spec (m + delta) 12); [lia | done].
Qed.

(** The entries after [change_month], when both hold integers. *)
Lemma change_month_entries delta s y m :
  PyStr.py_int (year_entry s) = Some y ->
  PyStr.py_int (month_entry s) = Some m ->
  let s' := final (change_month draw delta s) in
  year_entry s' = PyStr.py_str (shift_month y m delta).1
  /\ month_entry s' = PyStr.py_str (shift_month y m delta).2.
Proof.
  intros Hy Hm. unfold change_month. rewrite Hy, Hm. simpl.
  set (s1 := set_entries _ _ s).
  pose proof (set_calendar_frame s1) as (_ & _ & _ & Hye & Hme & _).
  destruct (set_calendar draw s1) as [s2|s2]; simpl in *.
  - pose proof (save_settings_frame (shift_month y m delta).1
                  (shift_month y m delta).2 s2) as (_ & _ & _ & Hy2 & Hm2 & _).
    cbv zeta in Hy2, Hm2. by rewrite Hy2, Hm2, Hye, Hme.
  - by rewrite Hye, Hme.
Qed.

(** C4: when the entries show the year [y] and a month [m] from 1 to 12,
    [change_month(-1)] at month 1 shows month 12 of the year [y - 1],
    [change_month(+1)] at month 12 shows month 1 of the year [y + 1], and
    every other step by -1 or +1 shows the month [m + delta] of the same
    year. *)
Theorem change_month_wraps (s : app) (y m : Z) :
  PyStr.py_int (year_entry s) = Some y ->
  PyStr.py_int (month_entry s) = Some m ->
  1 <= m <= 12 ->
  let shown delta :=
    (year_entry (final (change_month draw delta s)),
     month_entry (final (change_month draw delta s))) in
  (m = 1 -> shown (-1) = (PyStr.py_str (y - 1), PyStr.py_str 12))
  /\ (m = 12 -> shown 1 = (PyStr.py_str (y + 1), PyStr.py_str 1))
  /\ (forall delta, delta = -1 \/ delta = 1 ->
                    ~ (delta = -1 /\ m = 1) -> ~ (delta = 1 /\ m = 12) ->
                    shown delta = (PyStr.py_str y, PyStr.py_str (m + delta))).
Proof.
  intros Hy Hm Hr shown. subst shown. cbv beta.
  destruct (shift_month_spec y m Hr) as (H1 & H2 & H3).
  repeat split.
  - intros E. destruct (change_month_entries (-1) s y m Hy Hm) as [-> ->].
    by rewrite (H1 E).
  - intros E. destruct (change_month_entries 1 s y m Hy Hm) as [-> ->].
    by rewrite (H2 E).
  - intros delta Hd Ha Hb.
    destruct (change_month_entries delta s y m Hy Hm) as [-> ->].
    by rewrite (H3 delta Hd Ha Hb).
Qed.

End TopBar.

(** ** Times *)

Module TimeFacts.
Import Chars.

Lemma eqb_code_iff c d : Ascii.eqb c d = true <-> code c = code d.
Proof.
  rewrite Ascii.eqb_eq. split; [by intros ->|].
  unfold code. intros H.
  rewrite <- (ascii_nat_embedding c), <- (ascii_nat_embedding d).
  by rewrite H.
Qed.

Lemma is_hhmm_length t :
  is_hhmm t = true -> (String.length t = 4 \/ String.length t = 5)%nat.
Proof.
  destruct t as [|c1 [|c2 [|c3 [|c4 [|c5 [|c6 r]]]]]]; simpl;
    intros H; try discriminate; auto.
Qed.

Lemma drop_final_newline_length s t :
  drop_final_newline s = Some t -> String.length s = S (String.length t).
Proof.
  revert t. induction s as [|c s IH]; intros t; [done|].
  destruct s as [|d s].
  - simpl. destruct (Ascii.eqb c newline); [|done]. by intros [= <-].
  - change (drop_final_newline (String c (String d s)))
      with (String c <$> drop_final_newline (String d s)).
    destruct (drop_final_newline (String d s)) as [t'|]; [|done].
    intros [= <-]. simpl in *. f_equal. by apply IH.
Qed.

Lemma accepted_time_long s :
  (6 < String.length s)%nat -> accepted_time s = false.
Proof.
  intros Hlen. unfold accepted_time.
  destruct s as [|c s]; [simpl in Hlen; lia|].
  apply orb_false_iff. split.
  - apply not_true_iff_false. intros H%is_hhmm_length. lia.
  - destruct (drop_final_newline (String c s)) as [t|] eqn:E; [|done].
    apply not_true_iff_false. intros H%is_hhmm_length.
    apply drop_final_newline_length in E. lia.
Qed.

Ltac time_atoms :=
  repeat (rewrite andb_true_iff || rewrite orb_true_iff);
  rewrite ?CharFacts.in_range_iff, ?eqb_code_iff, ?Z.leb_le;
  unfold digit_val;
  change (code "0") with 48%nat; change (code "1") with 49%nat;
  change (code "2") with 50%nat; change (code "3") with 51%nat;
  change (code "5") with 53%nat; change (code "9") with 57%nat;
  change (code ":") with 58%nat; change (code newline) with 10%nat.

(** What the pattern of [validate_time] accepts, character by
    character. *)
Lemma validate_time_accepted s : validate_time s = accepted_time s.
Proof.
  destruct s as [|c1 [|c2 [|c3 [|c4 [|c5 [|c6 [|c7 r]]]]]]].
  8: { rewrite accepted_time_long by (simpl; lia).
       unfold validate_time, Re.re_match, time_pattern.
       cbn -[in_range Ascii.eqb].
       by rewrite !andb_false_r. }
  all: unfold validate_time, accepted_time, Re.re_match, time_pattern,
         is_hhmm, is_digit;
    cbn -[in_range Ascii.eqb Z.mul Z.add Z.leb digit_val];
    try reflexivity.
  all: repeat match goal with
         | |- context [if Ascii.eqb ?c newline then _ else _] =>
             destruct (Ascii.eqb c newline) eqn:?
         end;
    cbn -[in_range Ascii.eqb Z.mul Z.add Z.leb digit_val].
  all: repeat match goal with
         | H : Ascii.eqb _ _ = true |- _ =>
             apply eqb_code_iff in H; change (code newline) with 10%nat in H
         | H : Ascii.eqb _ _ = false |- _ =>
             apply not_true_iff_false in H; rewrite eqb_code_iff in H;
             change (code newline) with 10%nat in H
         end.
  all: apply eq_iff_eq_true; time_atoms.
  all: try (split; intros; exfalso; intuition (congruence || lia); fail).
  all: lia.
Qed.

End TimeFacts.

(** ** Sorting *)

Module SortFacts.
Import PySort.

Section Generic.
Context {A : Type}.

Lemma StronglySorted_impl_Forall (R R' : relation A) (P : A -> Prop) l :
  (forall x y, P x -> P y -> R x y -> R' x y) ->
  Forall P l -> StronglySorted R l -> StronglySorted R' l.
Proof.
  intros Himpl HP Hs. induction Hs as [|x l Hs IH Hx]; [constructor|].
  apply Forall_cons in HP as [Px Pl].
  constructor; [auto|].
  rewrite Forall_forall in *. intros y Hy. apply Himpl; auto.
Qed.

Lemma StronglySorted_filter (R : relation A) (P : A -> Prop)
      `{!forall x, Decision (P x)} l :
  StronglySorted R l -> StronglySorted R (filter P l).
Proof.
  induction 1 as [|x l Hs IH Hx]; [constructor|].
  rewrite filter_cons. destruct (decide (P x)); [|done].
  constructor; [done|].
  apply Forall_forall. intros y Hy%list_elem_of_filter.
  rewrite Forall_forall in Hx. apply Hx, Hy.
Qed.

Lemma filter_snd {B : Type} (Q : A -> Prop) (P : B * A -> Prop)
      `{!forall x, Decision (Q x)} `{!forall p, Decision (P p)}
      (l : list (B * A)) :
  (forall p, P p <-> Q p.2) ->
  filter Q (l.*2) = (filter P l).*2.
Proof.
  intros HPQ. induction l as [|p l IH]; [done|]. csimpl.
  rewrite !filter_cons.
  destruct (decide (Q p.2)) as [Hq|Hq], (decide (P p)) as [Hp|Hp];
    csimpl; rewrite ?IH; try done; by apply HPQ in Hq || apply HPQ in Hp.
Qed.

Lemma decorate_snd {B : Type} (f : A -> B) (l : list (B * A)) :
  Forall (fun p => p.1 = f p.2) l -> l = (fun e => (f e, e)) <$> l.*2.
Proof.
  induction 1 as [|[k e] l Hp Hl IH]; [done|].
  csimpl. simpl in Hp. subst k. by f_equal.
Qed.

End Generic.

(** The insertion sort, for an order [lt] that is asymmetric and whose
    complement is transitive. *)
Section Isort.
Context {A B : Type} (lt : B -> B -> bool).
Hypothesis lt_asym : forall a b, lt a b = true -> lt b a = false.
Hypothesis le_trans :
  forall a b c, lt b a = false -> lt c b = false -> lt c a = false.

Implicit Types (x y : B * A) (l : list (B * A)).

Lemma insert_perm x l : insert lt x l ≡ₚ x :: l.
Proof.
  induction l as [|y l IH]; simpl; [done|].
  destruct (lt y.1 x.1); [|done].
  rewrite IH. apply Permutation_swap.
Qed.

Lemma isort_perm l : isort lt l ≡ₚ l.
Proof.
  induction l as [|x l IH]; simpl; [done|].
  by rewrite insert_perm, IH.
Qed.

Lemma insert_sorted x l :
  StronglySorted (le_key lt) l -> StronglySorted (le_key lt) (insert lt x l).
Proof.
  induction 1 as [|y l Hs IH Hy]; simpl.
  - repeat constructor.
  - destruct (lt y.1 x.1) eqn:E.
    + constructor; [done|].
      rewrite insert_perm. constructor; [|done].
      by apply lt_asym.
    + constructor; [by constructor|].
      constructor; [done|].
      eapply Forall_impl; [exact Hy|].
      intros z Hz. unfold le_key in *. by apply (le_trans _ y.1).
Qed.

Lemma isort_sorted l : StronglySorted (le_key lt) (isort lt l).
Proof.
  induction l as [|x l IH]; simpl; [constructor | by apply insert_sorted].
Qed.

(** Insertion does not pass over an element of the same class. *)
Lemma insert_stable (C P : B * A -> Prop) `{!forall x, Decision (P x)} x l :
  (forall x y, C x -> C y -> P x -> P y -> lt y.1 x.1 = false) ->
  Forall C (x :: l) ->
  filter P (insert lt x l) = filter P (x :: l).
Proof.
  intros Hsame HC. apply Forall_cons in HC as [Cx Cl].
  induction Cl as [|y l Cy Cl IH]; simpl; [done|].
  destruct (lt y.1 x.1) eqn:E; [|done].
  rewrite (filter_cons _ y), IH, !(filter_cons _ x), (filter_cons _ y).
  destruct (decide (P y)) as [Py|]; [|done].
  destruct (decide (P x)) as [Px|]; [|done].
  rewrite (Hsame x y) in E; done.
Qed.

Lemma isort_stable (C P : B * A -> Prop) `{!forall x, Decision (P x)} l :
  (forall x y, C x -> C y -> P x -> P y -> lt y.1 x.1 = false) ->
  Forall C l ->
  filter P (isort lt l) = filter P l.
Proof.
  intros Hsame. induction 1 as [|x l Cx Cl IH]; simpl; [done|].
  rewrite (insert_stable C P); [|done|].
  - by rewrite !(filter_cons _ x), IH.
  - constructor; [done|]. by rewrite isort_perm.
Qed.

End Isort.

(** *** Keys that are ordered like the keys of a simpler kind

    When the keys are the images under [f] of keys that a total order
    [lt] compares, and [<] agrees with [lt] on them, the sort is the
    insertion sort for [lt]. *)
Section Lifted.
Context {B B' : Type} (lt : B -> B -> bool) (lt' : B' -> B' -> option bool).
Context (f : B -> B').
Hypothesis lt_f : forall a b, lt' (f a) (f b) = Some (lt a b).
Hypothesis lt_asym : forall a b, lt a b = true -> lt b a = false.
Hypothesis le_trans :
  forall a b c, lt b a = false -> lt c b = false -> lt c a = false.

Lemma forallb_fmap_all (p : B' -> bool) (l : list B) :
  (forall a, p (f a) = true) -> forallb p (f <$> l) = true.
Proof.
  intros Hp. induction l as [|a l IH]; [done|]. csimpl. by rewrite Hp, IH.
Qed.

Lemma below_f a b : below lt' (f a) (f b) = lt a b.
Proof. unfold below. by rewrite lt_f. Qed.

Lemma comparable_lifted (l : list B) : comparable lt' (f <$> l) = true.
Proof.
  induction l as [|a l IH]; [done|]. csimpl. rewrite IH, andb_true_r.
  apply forallb_fmap_all. intros b. by rewrite !lt_f.
Qed.

Lemma coherent_lifted (l : list B) : coherent lt' (f <$> l) = true.
Proof.
  unfold coherent. apply forallb_fmap_all. intros a.
  apply forallb_fmap_all. intros b. rewrite !below_f.
  apply andb_true_iff. split.
  - destruct (lt a b) eqn:E; [|done]. by rewrite (lt_asym a b E).
  - apply forallb_fmap_all. intros c. rewrite !below_f.
    destruct (lt b a) eqn:Eba; [done|].
    destruct (lt c b) eqn:Ecb; [done|].
    by rewrite (le_trans a b c Eba Ecb).
Qed.

Lemma insert_lifted {A : Type} (x : B * A) (l : list (B * A)) :
  insert (below lt') (f x.1, x.2) (prod_map f id <$> l)
  = prod_map f id <$> insert lt x l.
Proof.
  induction l as [|y l IH]; [done|]. csimpl.
  rewrite below_f. destruct (lt y.1 x.1); [|done].
  csimpl. by rewrite IH.
Qed.

Lemma isort_lifted {A : Type} (l : list (B * A)) :
  isort (below lt') (prod_map f id <$> l) = prod_map f id <$> isort lt l.
Proof.
  induction l as [|[k e] l IH]; [done|]. csimpl.
  rewrite IH. apply (insert_lifted (k, e)).
Qed.

Lemma sort_with_lifted (key : event -> option B') (g : event -> B)
      (l : list event) :
  Forall (fun e => key e = Some (f (g e))) l ->
  sort_with lt' key l = Some (isort lt ((fun e => (g e, e)) <$> l)).*2.
Proof.
  intros Hkey. unfold sort_with.
  assert (Hm : mapM (fun e => k ← key e; Some (k, e)) l
               = Some (prod_map f id <$> ((fun e => (g e, e)) <$> l))).
  { apply mapM_Some. rewrite <- list_fmap_compose.
    apply Forall2_fmap_r, Forall_Forall2_diag.
    eapply Forall_impl; [exact Hkey|]. intros e He. simpl. by rewrite He. }
  rewrite Hm. simpl.
  assert (Hk : (prod_map f id <$> ((fun e => (g e, e)) <$> l)).*1
               = f <$> (g <$> l)).
  { rewrite <- !list_fmap_compose. done. }
  rewrite Hk, comparable_lifted, coherent_lifted. simpl.
  rewrite isort_lifted. f_equal.
  by rewrite <- list_fmap_compose.
Qed.

End Lifted.

(** *** The order of the time keys *)

Lemma ltb_leb (a b : string) : String.ltb a b = negb (String.leb b a).
Proof.
  unfold String.ltb, String.leb. rewrite (String.compare_antisym b a).
  by destruct (String.compare a b).
Qed.

Lemma ltb_false_le (a b : string) : String.ltb b a = false <-> String.le a b.
Proof.
  rewrite ltb_leb, negb_false_iff. unfold String.le.
  by rewrite Is_true_true.
Qed.

Lemma key_lt_irrefl k : key_lt k k = false.
Proof.
  unfold key_lt. rewrite eqb_reflx. by apply ltb_false_le.
Qed.

Lemma key_lt_false (a b : bool * string) :
  key_lt b a = false <->
  (a.1 = false /\ b.1 = true) \/ (a.1 = b.1 /\ String.le a.2 b.2).
Proof.
  unfold key_lt. destruct a as [[] sa], b as [[] sb]; simpl;
    rewrite ?ltb_false_le; intuition congruence.
Qed.

Lemma ltb_asym (a b : string) : String.ltb a b = true -> String.ltb b a = false.
Proof.
  unfold String.ltb. rewrite (String.compare_antisym a b).
  by destruct (String.compare b a).
Qed.

Lemma key_lt_asym a b : key_lt a b = true -> key_lt b a = false.
Proof.
  unfold key_lt. destruct a as [[] sa], b as [[] sb]; simpl;
    try done; apply ltb_asym.
Qed.

Lemma key_le_trans a b c :
  key_lt b a = false -> key_lt c b = false -> key_lt c a = false.
Proof.
  rewrite !key_lt_false.
  intros [[? ?]|[? ?]] [[? ?]|[? ?]]; try (left; split; congruence).
  right. split; [congruence|]. by etrans.
Qed.

Lemma key_of_time_inj t1 t2 : key_of_time t1 = key_of_time t2 -> t1 = t2.
Proof. destruct t1, t2; simpl; congruence. Qed.

Lemma time_key_string e :
  has_time_string e ->
  time_key e = Some (time_key_of (key_of_time (time_of e))).
Proof.
  intros [t Ht]. unfold time_key, time_of. rewrite Ht. by destruct t.
Qed.

Lemma ltb_irrefl (a : string) : String.ltb a a = false.
Proof. by apply ltb_false_le. Qed.

Lemma tuple_lt_strings a b :
  tuple_lt (time_key_of a) (time_key_of b) = Some (key_lt a b).
Proof.
  unfold tuple_lt, key_lt, time_key_of. simpl.
  destruct (Bool.eqb a.1 b.1); [|done].
  destruct (String.eqb a.2 b.2) eqn:E; [|done].
  apply String.eqb_eq in E. rewrite E. by rewrite ltb_irrefl.
Qed.

Lemma py_lt_ints a b : PyVal.py_lt (VInt a) (VInt b) = Some (a <? b).
Proof.
  simpl. unfold PyVal.number_lt, PyVal.compare_finite. simpl.
  rewrite !Z.mul_1_r. done.
Qed.

(** [sort_by_time] on records whose times are strings. *)
Lemma by_time_strings l :
  Forall has_time_string l ->
  by_time l
  = Some (isort key_lt ((fun e => (key_of_time (time_of e), e)) <$> l)).*2.
Proof.
  intros Hl. unfold by_time.
  apply (sort_with_lifted key_lt tuple_lt time_key_of).
  - apply tuple_lt_strings.
  - apply key_lt_asym.
  - apply key_le_trans.
  - eapply Forall_impl; [exact Hl|]. apply time_key_string.
Qed.

Lemma time_le_untimed e1 e2 :
  time_of e1 = EmptyString -> time_le e1 e2 -> time_of e2 = EmptyString.
Proof.
  unfold time_le. intros -> H. destruct (time_of e2); [done|].
  discriminate H.
Qed.

Lemma time_le_timed e1 e2 :
  time_of e1 <> EmptyString -> time_of e2 <> EmptyString ->
  time_le e1 e2 -> String.le (time_of e1) (time_of e2).
Proof.
  unfold time_le. intros H1 H2 H.
  destruct (time_of e1); [done|]. destruct (time_of e2); [done|].
  apply key_lt_false in H as [[_ ?]|[_ ?]]; done.
Qed.

Lemma filter_none {A : Type} (P : A -> Prop) `{!forall x, Decision (P x)} l :
  Forall (fun x => ~ P x) l -> filter P l = [].
Proof.
  induction 1 as [|x l Hx Hl IH]; [done|].
  by rewrite filter_cons_False.
Qed.

Lemma filter_all {A : Type} (P : A -> Prop) `{!forall x, Decision (P x)} l :
  Forall P l -> filter P l = l.
Proof.
  induction 1 as [|x l Hx Hl IH]; [done|].
  rewrite filter_cons_True by done. by f_equal.
Qed.

(** In a list in the order of the keys, the records with a time come
    first. *)
Lemma sorted_timed_first l :
  StronglySorted time_le l ->
  l = filter (fun e => time_of e <> EmptyString) l
      ++ filter (fun e => time_of e = EmptyString) l.
Proof.
  induction 1 as [|x l Hs IH Hx]; [done|].
  destruct (decide (time_of x = EmptyString)) as [Hu|Ht].
  - assert (Hall : Forall (fun e => time_of e = EmptyString) l).
    { eapply Forall_impl; [exact Hx|]. intros y. by apply time_le_untimed. }
    rewrite filter_cons_False by (intros ?; done).
    rewrite filter_cons_True by done.
    rewrite filter_none, filter_all; [done | done |].
    eapply Forall_impl; [exact Hall|]. intros y Hy ?. done.
  - rewrite filter_cons_True by done.
    rewrite (filter_cons_False (fun e => time_of e = EmptyString)) by done.
    simpl. by f_equal.
Qed.

End SortFacts.

(** C10: for a list of records whose times are strings, [sort_by_time]
    produces a permutation of the list in which the records with a time
    come before the records with the empty time, the records with a time
    stand in the order of their time strings, and the records with one
    and the same time, which are those with equal keys, keep the order
    they had. *)
Theorem sort_by_time_spec (l : list event) :
  Forall has_time_string l ->
  exists l',
    PySort.by_time l = Some l'
    /\ l' ≡ₚ l
    /\ l' = filter (fun e => time_of e <> EmptyString) l'
            ++ filter (fun e => time_of e = EmptyString) l'
    /\ StronglySorted (fun e1 e2 => String.le (time_of e1) (time_of e2))
                      (filter (fun e => time_of e <> EmptyString) l')
    /\ forall t, filter (fun e => time_of e = t) l'
                 = filter (fun e => time_of e = t) l.
Proof.
  intros Hstr.
  set (g := fun e : event => (key_of_time (time_of e), e)).
  set (S := PySort.isort key_lt (g <$> l)).
  assert (Hsnd : (g <$> l).*2 = l).
  { clear. induction l as [|e l IH]; [done|]. csimpl. by f_equal. }
  assert (HP : S ≡ₚ g <$> l) by apply SortFacts.isort_perm.
  assert (HC0 : Forall (fun p : (bool * string) * event =>
                          p.1 = key_of_time (time_of p.2)) (g <$> l)).
  { apply Forall_fmap, Forall_true. done. }
  assert (HC : Forall (fun p : (bool * string) * event =>
                         p.1 = key_of_time (time_of p.2)) S)
    by (by rewrite HP).
  assert (Hsorted : StronglySorted time_le (S.*2)).
  { apply (StronglySorted_fmap snd
             (fun p q => PySort.le_key key_lt p q
                         /\ p.1 = key_of_time (time_of p.2)
                         /\ q.1 = key_of_time (time_of q.2))).
    - intros p q (Hle & Hp & Hq). unfold time_le, PySort.le_key in *.
      by rewrite <- Hp, <- Hq.
    - eapply SortFacts.StronglySorted_impl_Forall; [|exact HC|].
      + intros p q Hp Hq Hle. by repeat split.
      + apply SortFacts.isort_sorted.
        * apply SortFacts.key_lt_asym.
        * apply SortFacts.key_le_trans. }
  exists (S.*2). repeat split.
  - by apply SortFacts.by_time_strings.
  - by rewrite HP, Hsnd.
  - by apply SortFacts.sorted_timed_first.
  - eapply (SortFacts.StronglySorted_impl_Forall
              _ _ (fun e => time_of e <> EmptyString));
      [| |apply SortFacts.StronglySorted_filter; exact Hsorted].
    + intros e1 e2 H1 H2 Hle. by apply SortFacts.time_le_timed.
    + apply Forall_forall. by intros e [? _]%list_elem_of_filter.
  - intros t.
    rewrite (SortFacts.filter_snd (fun e => time_of e = t)
               (fun p => time_of p.2 = t) S) by done.
    unfold S.
    rewrite (SortFacts.isort_stable key_lt
               (fun p => p.1 = key_of_time (time_of p.2))
               (fun p => time_of p.2 = t)); [| |exact HC0].
    + transitivity (filter (fun e => time_of e = t) (g <$> l).*2);
        [|by rewrite Hsnd].
      symmetry. by apply SortFacts.filter_snd.
    + intros p q Hp Hq Ht1 Ht2. rewrite Hp, Hq, Ht1, Ht2.
      apply SortFacts.key_lt_irrefl.
Qed.

(** ** Lists, dictionary and windows *)

Module StoreFacts.

Lemma same_store_refl s : same_store s s.
Proof. by repeat split. Qed.

Lemma same_store_trans s1 s2 s3 :
  same_store s1 s2 -> same_store s2 s3 -> same_store s1 s3.
Proof. unfold same_store. intuition congruence. Qed.

Lemma owned_same s s' k r : same_store s s' -> owned s k r -> owned s' k r.
Proof. intros (Hh & He & _) [Hr Hk]. unfold owned. by rewrite Hh, He. Qed.

Lemma wf_same s s' : same_store s s' -> wf s -> wf s'.
Proof.
  intros Hs [He Hw]. pose proof Hs as (Hh & Hev & Hwin). split.
  - intros k r. rewrite Hev. eauto using owned_same.
  - intros k r. rewrite Hwin. eauto using owned_same.
Qed.

Lemma all_four_same s s' : same_store s s' -> all_four s -> all_four s'.
Proof. intros (Hh & _ & _) H. unfold all_four. by rewrite Hh. Qed.

Lemma events_at_same s s' k :
  same_store s s' -> events_at k s' = events_at k s.
Proof. intros (Hh & He & _). unfold events_at. by rewrite Hh, He. Qed.

(** *** Ownership *)

Lemma owned_mutate s loc f k r :
  owned s k r -> owned (mutate loc f s) k r.
Proof. intros [Hr Hk]. split; [|done]. simpl. by rewrite length_alter. Qed.

Lemma owned_assign s k l k0 r0 :
  owned s k0 r0 -> owned (assign k l s) k0 r0.
Proof.
  intros [Hr Hk]. split; simpl.
  - rewrite length_app. simpl. lia.
  - intros k'. destruct (decide (k = k')) as [->|Hne].
    + rewrite PyDictFacts.get_set_eq. intros [= <-]. lia.
    + rewrite PyDictFacts.get_set_ne by done. apply Hk.
Qed.

Lemma owned_assign_new s k l :
  wf s -> owned (assign k l s) k (length (heap s)).
Proof.
  intros [He _]. split; simpl.
  - rewrite length_app. simpl. lia.
  - intros k'. destruct (decide (k = k')) as [->|Hne]; [done|].
    rewrite PyDictFacts.get_set_ne by done.
    intros [Hr _]%He. lia.
Qed.

Lemma owned_alloc s l k r :
  owned s k r -> owned (set_store (heap s ++ [l]) (events s) s) k r.
Proof.
  intros [Hr Hk]. split; [|done]. simpl. rewrite length_app. simpl. lia.
Qed.

Lemma owned_alloc_new s l k :
  wf s -> owned (set_store (heap s ++ [l]) (events s) s) k (length (heap s)).
Proof.
  intros [He _]. split; simpl.
  - rewrite length_app. simpl. lia.
  - intros k' [Hr _]%He. lia.
Qed.

Lemma owned_clear s k r :
  owned s k r -> owned (set_store (heap s) [] s) k r.
Proof. intros [Hr _]. by split. Qed.

(** *** The invariant [wf] *)

Lemma wf_mutate s loc f : wf s -> wf (mutate loc f s).
Proof. intros [He Hw]. split; intros k r H; apply owned_mutate; auto. Qed.

Lemma wf_assign s k l : wf s -> wf (assign k l s).
Proof.
  intros Hwf. pose proof Hwf as [He Hw]. split.
  - intros k0 r0. simpl. destruct (decide (k = k0)) as [->|Hne].
    + rewrite PyDictFacts.get_set_eq. intros [= <-].
      by apply owned_assign_new.
    + rewrite PyDictFacts.get_set_ne by done.
      intros H. apply owned_assign. auto.
  - intros k0 r0 H. apply owned_assign. auto.
Qed.

Lemma wf_alloc s l : wf s -> wf (set_store (heap s ++ [l]) (events s) s).
Proof. intros [He Hw]. split; intros k r H; apply owned_alloc; auto. Qed.

Lemma wf_window s k r : wf s -> owned s k r -> wf (open_window (k, r) s).
Proof.
  intros [He Hw] Ho. split.
  - intros k0 r0 H. destruct (He k0 r0 H). by split.
  - intros k0 r0. simpl. rewrite elem_of_cons.
    intros [[= -> ->]|H]; [by destruct Ho | by destruct (Hw k0 r0 H)].
Qed.

Lemma wf_clear s : wf s -> wf (set_store (heap s) [] s).
Proof.
  intros [He Hw]. split; [done|].
  intros k r H. apply owned_clear. auto.
Qed.

Lemma wf_update_events d s : wf s -> wf (update_events d s).
Proof.
  unfold update_events. revert s.
  induction d as [|[k l] d IH]; intros s Hwf; simpl; [done|].
  by apply IH, wf_assign.
Qed.

(** *** Records of four fields *)

Lemma all_four_mutate s loc f :
  (forall l, Forall four_fields l -> Forall four_fields (f l)) ->
  all_four s -> all_four (mutate loc f s).
Proof.
  intros Hf H i l. simpl. destruct (decide (i = loc)) as [->|Hne].
  - rewrite list_lookup_alter_eq.
    destruct (heap s !! loc) as [l0|] eqn:E; [|done].
    intros [= <-]. eauto.
  - rewrite list_lookup_alter_ne by done. apply H.
Qed.

Lemma all_four_alloc s l e :
  Forall four_fields l -> all_four s ->
  all_four (set_store (heap s ++ [l]) e s).
Proof.
  intros Hl H i l0. simpl.
  intros [Hi|[_ Hi]]%lookup_app_Some; [by eapply H|].
  destruct (i - length (heap s))%nat; simpl in Hi; [|done].
  by injection Hi as <-.
Qed.

Lemma all_four_deref s loc : all_four s -> Forall four_fields (deref (heap s) loc).
Proof.
  intros H. unfold deref.
  destruct (heap s !! loc) as [l|] eqn:E; simpl; [by eapply H | constructor].
Qed.

Lemma all_four_update_events d s :
  Forall (fun kv => Forall four_fields kv.2) d ->
  all_four s -> all_four (update_events d s).
Proof.
  unfold update_events. revert s.
  induction d as [|[k l] d IH]; intros s Hd Hs; simpl; [done|].
  apply Forall_cons in Hd as [Hl Hd].
  apply IH; [done|]. by apply all_four_alloc.
Qed.

(** *** The lists of the other keys *)

Lemma frame_mutate s loc f k k' :
  owned s k loc -> k' <> k ->
  events_at k' (mutate loc f s) = events_at k' s.
Proof.
  intros [_ Hk] Hne. unfold events_at. simpl.
  destruct (PyDict.get k' (events s)) as [r|] eqn:E; [|done].
  simpl. f_equal. unfold deref.
  rewrite list_lookup_alter_ne; [done|].
  intros ->. by apply Hne, Hk.
Qed.

Lemma frame_alloc s l k' :
  wf s ->
  events_at k' (set_store (heap s ++ [l]) (events s) s) = events_at k' s.
Proof.
  intros [He _]. unfold events_at. simpl.
  destruct (PyDict.get k' (events s)) as [r|] eqn:E; [|done].
  simpl. f_equal. unfold deref.
  destruct (He k' r E) as [Hr _]. by rewrite lookup_app_l.
Qed.

Lemma frame_assign s k l k' :
  wf s -> k' <> k ->
  events_at k' (assign k l s) = events_at k' s.
Proof.
  intros Hwf Hne. rewrite <- (frame_alloc s l k' Hwf).
  unfold events_at. simpl. by rewrite PyDictFacts.get_set_ne.
Qed.

(** *** What [touches] keeps *)

Lemma touches_wf k s s' : touches k s s' -> wf s -> wf s'.
Proof.
  induction 1 as [s s' Hs|s loc f s' Ho Hf Hs|s l s' Hl Hs|s l s' Hl Hs
                  |s r s' Ho Hs|s s1 s2 _ IH1 _ IH2]; intros Hwf.
  - by eapply wf_same.
  - eapply wf_same; [exact Hs|]. by apply wf_mutate.
  - eapply wf_same; [exact Hs|]. by apply wf_assign.
  - eapply wf_same; [exact Hs|].
    apply wf_window; [by apply wf_alloc | by apply owned_alloc_new].
  - eapply wf_same; [exact Hs|]. apply wf_window; auto.
  - auto.
Qed.

Lemma touches_all_four k s s' : touches k s s' -> all_four s -> all_four s'.
Proof.
  induction 1 as [s s' Hs|s loc f s' Ho Hf Hs|s l s' Hl Hs|s l s' Hl Hs
                  |s r s' Ho Hs|s s1 s2 _ IH1 _ IH2]; intros H4.
  - by eapply all_four_same.
  - eapply all_four_same; [exact Hs|]. apply all_four_mutate; auto.
  - eapply all_four_same; [exact Hs|]. apply all_four_alloc; auto.
  - eapply all_four_same; [exact Hs|].
    apply (all_four_alloc s l (events s)); auto.
  - eapply all_four_same; [exact Hs|]. done.
  - auto.
Qed.

(** A handler bound to [k] leaves the list of every other key as it
    was. *)
Lemma touches_frame k s s' k' :
  touches k s s' -> wf s -> k' <> k -> events_at k' s' = events_at k' s.
Proof.
  intros Ht. induction Ht as [s s' Hs|s loc f s' Ho Hf Hs|s l s' Hl Hs
                  |s l s' Hl Hs|s r s' Ho Hs|s s1 s2 H1 IH1 _ IH2];
    intros Hwf Hne.
  - by apply events_at_same.
  - rewrite (events_at_same _ _ _ Hs). apply (frame_mutate s loc f k); auto.
  - rewrite (events_at_same _ _ _ Hs). by apply frame_assign.
  - rewrite (events_at_same _ _ _ Hs). by apply (frame_alloc s l).
  - by rewrite (events_at_same _ _ _ Hs).
  - rewrite IH2, IH1; eauto using touches_wf.
Qed.

End StoreFacts.

(** ** What each handler does to lists, dictionary and windows *)

Section HandlerFacts.
Variable draw : bool -> Z -> Z -> PyDict.dict key (list event) -> draw_result.
Import StoreFacts.

Lemma save_events_same s : same_store s (save_events s).
Proof. destruct (save_events_frame s) as (? & ? & ? & _). by repeat split. Qed.

Lemma set_calendar_same s : same_store s (final (set_calendar draw s)).
Proof.
  destruct (set_calendar_frame draw s) as (? & ? & ? & _). by repeat split.
Qed.

Lemma show_same d s : same_store s (show d s).
Proof. by repeat split. Qed.

(** The end of most handlers: save, draw, then something on the way
    out that an exception in drawing skips. *)
Lemma tail_cases (X : app) (h : app -> outcome) :
  exists Y, same_store X Y
            /\ (final (Done (save_events X) >>> set_calendar draw >>> h)
                = final (h Y)
                \/ final (Done (save_events X) >>> set_calendar draw >>> h)
                   = Y).
Proof.
  simpl. pose proof (set_calendar_same (save_events X)) as Hs.
  destruct (set_calendar draw (save_events X)) as [Y|Y]; simpl in *;
    exists Y; (split; [|auto]);
    eapply same_store_trans; eauto using save_events_same.
Qed.

Lemma tail_same (X : app) (g : app -> app) :
  (forall s, same_store s (g s)) ->
  same_store X (final (Done (save_events X) >>> set_calendar draw
                       >>> (fun s => Done (g s)))).
Proof.
  intros Hg.
  destruct (tail_cases X (fun s => Done (g s))) as (Y & HY & [-> | ->]);
    [|done].
  simpl. eapply same_store_trans; eauto.
Qed.

Lemma new_record_four text color time priority :
  four_fields (new_record text color time priority).
Proof. reflexivity. Qed.

Lemma ask_event_cases inp s :
  match ask_event inp s with
  | inl ev => four_fields ev
  | inr s' => same_store s s'
  end.
Proof.
  unfold ask_event.
  destruct (truthy (in_text inp)); [|apply same_store_refl].
  destruct (truthy (in_time inp) && _); [apply show_same|].
  destruct (in_priority inp); [apply new_record_four | apply same_store_refl].
Qed.

Lemma append_event_touches k ev s s' :
  four_fields ev -> same_store (append_event k ev s) s' -> touches k s s'.
Proof.
  intros Hev. unfold append_event.
  destruct (PyDict.get k (events s)) as [loc|] eqn:E; intros Hs.
  - eapply touch_mutate; [| |exact Hs].
    + intros [He _]. by apply He.
    + intros _ l Hl. apply Forall_app. split; [done|]. by constructor.
  - eapply touch_assign; [|exact Hs]. intros _. by constructor.
Qed.

Lemma add_event_touches k inp s :
  touches k s (final (add_event draw k inp s)).
Proof.
  unfold add_event. pose proof (ask_event_cases inp s) as Ha.
  destruct (ask_event inp s) as [ev|s']; [|by apply touch_same].
  eapply append_event_touches; [done|]. apply tail_same, show_same.
Qed.

Lemma view_day_page_touches k s : touches k s (final (view_day_page k s)).
Proof.
  unfold view_day_page.
  destruct (PyDict.get k (events s)) as [loc|] eqn:E.
  - destruct (forallb _ _); [|apply touch_same, same_store_refl].
    eapply touch_window; [|apply same_store_refl].
    intros [He _]. by apply He.
  - eapply (touch_alloc k s []); [by constructor | apply same_store_refl].
Qed.

Lemma add_event_button_touches k inp s :
  touches k s (final (add_event_button draw k inp s)).
Proof.
  unfold add_event_button. pose proof (ask_event_cases inp s) as Ha.
  destruct (ask_event inp s) as [ev|s']; [|by apply touch_same].
  destruct (tail_cases (append_event k ev s) (view_day_page k))
    as (Y & HY & [-> | ->]).
  - eapply touch_trans; [|apply view_day_page_touches].
    by eapply append_event_touches.
  - by eapply append_event_touches.
Qed.

Lemma edit_event_panel_touches k idx built s :
  touches k s (final (edit_event_panel k idx built s)).
Proof.
  unfold edit_event_panel.
  destruct (PyDict.get k (events s)) as [loc|] eqn:E;
    [|apply touch_same, show_same].
  destruct (_ || _); [apply touch_same, show_same|].
  destruct (_ !! _) as [ev|]; [|apply touch_same, same_store_refl].
  destruct (_ && _); [|apply touch_same, same_store_refl].
  eapply touch_window; [|apply same_store_refl].
  intros [He _]. by apply He.
Qed.

Lemma edit_events_touches k sel built s :
  touches k s (final (edit_events k sel built s)).
Proof.
  unfold edit_events.
  destruct (bool_decide _); [apply touch_same, show_same|].
  destruct (forallb _ _); [|apply touch_same, same_store_refl].
  destruct sel as [sel|]; [|apply touch_same, same_store_refl].
  destruct (_ && _); [apply edit_event_panel_touches|].
  apply touch_same, same_store_refl.
Qed.

Lemma edit_event_button_touches k sel built s :
  touches k s (final (edit_event_button k sel built s)).
Proof.
  unfold edit_event_button.
  pose proof (edit_events_touches k sel built s) as He.
  destruct (edit_events k sel built s) as [s1|s1]; simpl in *; [|done].
  eapply touch_trans; [exact He | apply view_day_page_touches].
Qed.

(** A window holds a list that its key owns. *)
Lemma window_owned s k loc : (k, loc) ∈ windows s -> wf s -> owned s k loc.
Proof. intros Hin [_ Hw]. by apply Hw. Qed.

Lemma save_changes_touches k loc idx form s :
  (k, loc) ∈ windows s ->
  touches k s (final (save_changes draw loc idx form s)).
Proof.
  intros Hin. unfold save_changes.
  destruct (negb _); [apply touch_same, show_same|].
  destruct (_ && _); [apply touch_same, show_same|].
  destruct (bool_decide _); [|apply touch_same, same_store_refl].
  eapply touch_mutate; [by apply window_owned | |apply tail_same, show_same].
  intros _ l Hl. apply Forall_insert; [done | apply new_record_four].
Qed.

Lemma delete_event_touches k loc idx choice s :
  (k, loc) ∈ windows s ->
  touches k s (final (delete_event draw loc idx choice s)).
Proof.
  intros Hin. unfold delete_event.
  destruct choice; [|apply touch_same, same_store_refl].
  destruct (bool_decide _); [|apply touch_same, same_store_refl].
  eapply touch_mutate; [by apply window_owned | |apply tail_same, show_same].
  intros _ l Hl. by apply Forall_delete.
Qed.

Lemma drag_motion_touches k loc i j s :
  (k, loc) ∈ windows s ->
  touches k s (final (drag_motion loc i j s)).
Proof.
  intros Hin. unfold drag_motion.
  destruct (bool_decide _); [apply touch_same, same_store_refl|].
  destruct (deref (heap s) loc !! i) as [x|] eqn:E;
    [|apply touch_same, same_store_refl].
  eapply touch_mutate; [by apply window_owned | |apply same_store_refl].
  intros H4 l Hl. unfold list_insert_at.
  assert (Hx : four_fields x).
  { eapply Forall_lookup_1; [apply (all_four_deref s loc H4) | exact E]. }
  apply Forall_app. split; [by apply Forall_take, Forall_delete|].
  constructor; [done|]. by apply Forall_drop, Forall_delete.
Qed.

Lemma end_drag_touches k loc s :
  touches k s (final (end_drag draw k loc s)).
Proof.
  unfold end_drag. simpl.
  eapply touch_assign; [intros H4; by apply all_four_deref|].
  eapply same_store_trans; [apply save_events_same | apply set_calendar_same].
Qed.

Lemma sort_with_perm {B : Type} (lt : B -> B -> option bool) key l l' :
  PySort.sort_with lt key l = Some l' -> l' ≡ₚ l.
Proof.
  unfold PySort.sort_with. intros H.
  destruct (mapM _ l) as [ks|] eqn:E; [|done].
  simpl in H. destruct (_ && _); [|done]. injection H as <-.
  rewrite SortFacts.isort_perm.
  apply mapM_Some in E. clear -E.
  induction E as [|e p l ks He _ IH]; [done|].
  destruct (key e) as [b|]; [|done]. simpl in He. injection He as <-.
  csimpl. by rewrite IH.
Qed.

(** Leaving the list of a page in another order. *)
Lemma reorder_touches k loc l s :
  (k, loc) ∈ windows s ->
  l ≡ₚ deref (heap s) loc ->
  touches k s (mutate loc (fun _ => l) s).
Proof.
  intros Hin Hperm.
  eapply (touch_mutate k s loc (fun _ => l));
    [by apply window_owned | | apply same_store_refl].
  intros H4 _ _. rewrite Hperm. by apply all_four_deref.
Qed.

Lemma store_sorted_touches message k loc l s :
  (k, loc) ∈ windows s ->
  l ≡ₚ deref (heap s) loc ->
  touches k s (final (store_sorted message k loc l s)).
Proof.
  intros Hin Hperm.
  eapply touch_trans; [by apply reorder_touches|].
  eapply (touch_assign k _ l).
  - intros H. unfold all_four in H. simpl in H.
    destruct (heap s !! loc) as [l0|] eqn:El.
    + apply (H loc). by rewrite list_lookup_alter_eq, El.
    + unfold deref in Hperm. rewrite El in Hperm. simpl in Hperm.
      apply Permutation_nil_r in Hperm. subst. constructor.
  - unfold store_sorted. destruct (forallb _ _); simpl.
    + eapply same_store_trans; [apply save_events_same | apply show_same].
    + apply save_events_same.
Qed.

Lemma sort_left_touches raised message k loc l s :
  (k, loc) ∈ windows s ->
  l ≡ₚ deref (heap s) loc ->
  touches k s (final (sort_left raised message k loc l s)).
Proof.
  intros Hin Hperm. unfold sort_left.
  destruct raised; [by apply reorder_touches | by apply store_sorted_touches].
Qed.

Lemma sort_page_touches sort message k loc s o :
  (forall l l', sort l = Some l' -> l' ≡ₚ l) ->
  (k, loc) ∈ windows s ->
  sort_page sort message k loc s = Some o ->
  touches k s (final o).
Proof.
  intros Hperm Hin. unfold sort_page.
  destruct (sort (deref (heap s) loc)) as [l|] eqn:E; [|done].
  simpl. intros [= <-]. apply store_sorted_touches; [done|].
  by apply Hperm.
Qed.

Lemma delete_event_button_touches k choice s :
  touches k s (final (delete_event_button draw k choice s)).
Proof.
  unfold delete_event_button.
  destruct (bool_decide _); [apply touch_same, show_same|].
  destruct choice; [|apply touch_same, show_same].
  eapply touch_assign; [by constructor | apply tail_same, show_same].
Qed.

(** *** Handlers that are not bound to a key *)

Lemma change_month_same delta s :
  same_store s (final (change_month draw delta s)).
Proof.
  unfold change_month.
  destruct (PyStr.py_int (year_entry s)) as [y|]; [|apply show_same].
  destruct (PyStr.py_int (month_entry s)) as [m|]; [|apply show_same].
  simpl.
  pose proof (set_calendar_same
                (set_entries (PyStr.py_str (shift_month y m delta).1)
                             (PyStr.py_str (shift_month y m delta).2) s))
    as Hs.
  destruct (set_calendar draw _) as [s2|s2]; simpl in *; [|done].
  destruct (save_settings_frame (shift_month y m delta).1
              (shift_month y m delta).2 s2) as (? & ? & ? & _).
  destruct Hs as (? & ? & ?).
  repeat split; (etrans; [eassumption|]); (etrans; [eassumption|]);
    reflexivity.
Qed.

Lemma delete_all_events_cases choice s :
  same_store s (final (delete_all_events draw choice s))
  \/ same_store (set_store (heap s) [] s)
                (final (delete_all_events draw choice s)).
Proof.
  unfold delete_all_events.
  destruct (bool_decide _); [left; apply show_same|].
  destruct choice; [|left; apply same_store_refl].
  right. apply tail_same, show_same.
Qed.

Lemma import_record_four ev r : import_record ev = Some r -> four_fields r.
Proof.
  unfold import_record. destruct (index0 ev); [|done].
  simpl. by intros [= <-].
Qed.

Lemma set_values {V : Type} (P : V -> Prop) k v (d : PyDict.dict key V) :
  P v -> Forall (fun kv => P kv.2) d ->
  Forall (fun kv => P kv.2) (PyDict.set k v d).
Proof.
  intros Hv. induction 1 as [|[k' v'] d Hk Hd IH]; simpl.
  - by repeat constructor.
  - destruct (decide (k' = k)); constructor; auto.
Qed.

Lemma of_items_values {V : Type} (P : V -> Prop)
      (items : list (key * V)) :
  Forall (fun kv => P kv.2) items ->
  Forall (fun kv => P kv.2) (PyDict.of_items items).
Proof.
  unfold PyDict.of_items, PyDict.update.
  assert (Hgen : forall d : PyDict.dict key V,
             Forall (fun kv => P kv.2) d ->
             Forall (fun kv => P kv.2) items ->
             Forall (fun kv => P kv.2)
                    (fold_left (fun acc kv => PyDict.set kv.1 kv.2 acc) items d)).
  { induction items as [|[k v] items IH]; intros d Hd Hi; simpl; [done|].
    apply Forall_cons in Hi as [Hv Hi]. apply IH; [|done].
    by apply set_values. }
  intros Hi. by apply Hgen.
Qed.

(** Every record that [import_events] builds has four fields. *)
Lemma imported_events_four raw d :
  imported_events raw = Some d ->
  Forall (fun kv => Forall four_fields kv.2) d.
Proof.
  unfold imported_events. destruct raw; try done.
  destruct (mapM _ d0) as [items|] eqn:E; [|done].
  simpl. intros [= <-]. apply of_items_values.
  apply mapM_Some in E. clear -E.
  induction E as [|kv p l items He _ IH]; constructor; [|done].
  destruct (decode_key kv.1) as [k|]; [|done]. simpl in He.
  destruct (iterate kv.2) as [evs|]; [|done]. simpl in He.
  destruct (mapM import_record evs) as [recs|] eqn:Er; [|done].
  simpl in He. injection He as <-. simpl.
  apply mapM_Some in Er. clear -Er.
  induction Er as [|ev r evs recs Hr _ IH]; constructor; [|done].
  by eapply import_record_four.
Qed.

Lemma import_events_cases file s :
  same_store s (import_events draw file s)
  \/ exists d, imported_events_of file = Some d
               /\ same_store (update_events d s) (import_events draw file s).
Proof.
  unfold import_events, imported_events_of.
  destruct file as [[raw|]|]; [|left; apply show_same
                               |left; apply same_store_refl].
  destruct (imported_events raw) as [d|]; [|left; apply show_same].
  right. exists d. split; [done|].
  pose proof (set_calendar_same (save_events (update_events d s))) as Hs.
  destruct (set_calendar draw _) as [s'|s']; simpl in Hs;
    (eapply same_store_trans; [|apply show_same]);
    (eapply same_store_trans; [apply save_events_same | exact Hs]).
Qed.

End HandlerFacts.

(** ** Invariants of the event loop *)

Section Invariants.
Variable draw : bool -> Z -> Z -> PyDict.dict key (list event) -> draw_result.
Import StoreFacts.

Lemma sort_by_time_perm l l' : PySort.by_time l = Some l' -> l' ≡ₚ l.
Proof. apply sort_with_perm. Qed.

Lemma sort_by_priority_perm l l' :
  PySort.by_priority l = Some l' -> l' ≡ₚ l.
Proof. apply sort_with_perm. Qed.

(** Every step of the event loop is bound to one key, clears the
    dictionary, or stores new lists under the keys of an import. *)
Lemma handles_cases s s' :
  handles draw s s' ->
  (exists k, touches k s s')
  \/ same_store (set_store (heap s) [] s) s'
  \/ exists file d, imported_events_of file = Some d
                    /\ same_store (update_events d s) s'.
Proof.
  destruct 1.
  - left. exists []. by apply touch_same.
  - left. exists []. by apply touch_same.
  - left. exists []. by apply touch_same.
  - left. exists []. apply touch_same, set_calendar_same.
  - left. exists []. apply touch_same, change_month_same.
  - left. exists k. apply add_event_touches.
  - left. exists k. apply edit_events_touches.
  - destruct (delete_all_events_cases draw choice s) as [H|H];
      [left; exists []; by apply touch_same | by right; left].
  - left. exists k. apply view_day_page_touches.
  - destruct (import_events_cases draw file s) as [H|(d & Hd & H)];
      [left; exists []; by apply touch_same | right; right; eauto].
  - left. exists k. by apply save_changes_touches.
  - left. exists k. by apply delete_event_touches.
  - left. exists k. by apply drag_motion_touches.
  - left. exists k. apply end_drag_touches.
  - left. exists k.
    eapply sort_page_touches; [apply sort_by_time_perm | done | done].
  - left. exists k.
    eapply sort_page_touches; [apply sort_by_priority_perm | done | done].
  - left. exists k. by apply sort_left_touches.
  - left. exists k. by apply sort_left_touches.
  - left. exists k. apply add_event_button_touches.
  - left. exists k. apply edit_event_button_touches.
  - left. exists k. apply delete_event_button_touches.
  - left. exists []. apply touch_same. unfold export_events.
    destruct chosen; [|apply same_store_refl].
    destruct (disk_ok s); apply show_same.
Qed.

Lemma handles_wf s s' : handles draw s s' -> wf s -> wf s'.
Proof.
  intros [[k Hk]|[Hc|(file & d & _ & Hd)]]%handles_cases Hwf.
  - by eapply touches_wf.
  - eapply wf_same; [exact Hc|]. by apply wf_clear.
  - eapply wf_same; [exact Hd|]. by apply wf_update_events.
Qed.

(** No step of the event loop brings in a record that has not four
    fields. *)
Lemma handles_all_four s s' : handles draw s s' -> all_four s -> all_four s'.
Proof.
  intros [[k Hk]|[Hc|(file & d & Hf & Hd)]]%handles_cases H4.
  - by eapply touches_all_four.
  - by eapply all_four_same; [exact Hc|].
  - eapply all_four_same; [exact Hd|].
    apply all_four_update_events; [|done].
    destruct file as [[raw|]|]; try done. by eapply imported_events_four.
Qed.

Lemma fresh_wf s : fresh s -> wf s.
Proof.
  intros (_ & He & Hw). split; intros k r; rewrite ?He, ?Hw; [done|].
  intros []%elem_of_nil.
Qed.

Lemma load_events_wf s : wf s -> wf (final (load_events s)).
Proof.
  intros Hwf. unfold load_events.
  destruct (events_file s) as [raw|]; [|done].
  destruct (disk_ok s); [|by eapply wf_same; [apply show_same|]].
  destruct (decode_store raw) as [d|]; [|done].
  simpl. by apply wf_update_events, wf_clear.
Qed.

(** In every state that the program reaches, two keys never share a
    list, and a window holds the list of its key or a list that the
    dictionary has dropped. *)
Lemma reachable_wf s : reachable draw s -> wf s.
Proof.
  induction 1 as [s Hf|s s' _ IH Hh].
  - by apply load_events_wf, fresh_wf.
  - by eapply handles_wf.
Qed.

Lemma save_changes_all_four loc idx form s :
  all_four s -> all_four (final (save_changes draw loc idx form s)).
Proof.
  intros H4. unfold save_changes.
  destruct (negb _); [done|]. destruct (_ && _); [done|].
  destruct (bool_decide _); [|done].
  eapply all_four_same; [apply tail_same, show_same|].
  apply all_four_mutate; [|done].
  intros l Hl. apply Forall_insert; [done | apply new_record_four].
Qed.

Lemma import_events_all_four file s :
  all_four s -> all_four (import_events draw file s).
Proof.
  intros H4.
  destruct (import_events_cases draw file s) as [H|(d & Hd & H)].
  - by eapply all_four_same.
  - eapply all_four_same; [exact H|].
    apply all_four_update_events; [|done].
    destruct file as [[raw|]|]; try done. by eapply imported_events_four.
Qed.

Lemma import_record_fields ev r :
  import_record ev = Some r ->
  r !! 1%nat = Some (field_or ev 1 (VStr default_color))
  /\ r !! 2%nat = Some (field_or ev 2 (VStr EmptyString))
  /\ r !! 3%nat = Some (field_or ev 3 (VInt 2)).
Proof.
  unfold import_record. destruct (index0 ev); [|done].
  simpl. by intros [= <-].
Qed.

Lemma filled_list l r i d :
  r !! i = Some (field_or (VList l) i d) -> filled l r i d.
Proof.
  intros Hr. unfold filled. rewrite Hr. simpl. split; intros Hi.
  - destruct (lookup_lt_is_Some_2 l i Hi) as [x ->]. done.
  - by rewrite (lookup_ge_None_2 l i Hi).
Qed.

(** C3: the record that [import_events] builds from an imported value
    has four fields; built from a list, it takes the fields that the
    list has and the defaults ['#cccccc'], [""] and 2 for those that are
    missing, and built from a value that is not a list it takes the
    three defaults.  [add_event], [save_changes] of the edit panel and
    [import_events] keep the invariant that every stored record has
    four fields, and so does every step of the event loop. *)
Theorem stored_records_have_four_fields :
  (forall ev r, import_record ev = Some r ->
     four_fields r
     /\ (forall l, ev = VList l ->
           filled l r 1 (VStr "#cccccc")
           /\ filled l r 2 (VStr EmptyString)
           /\ filled l r 3 (VInt 2))
     /\ ((forall l, ev <> VList l) ->
           r !! 1%nat = Some (VStr "#cccccc")
           /\ r !! 2%nat = Some (VStr EmptyString)
           /\ r !! 3%nat = Some (VInt 2)))
  /\ (forall k inp s,
        all_four s -> all_four (final (add_event draw k inp s)))
  /\ (forall loc idx form s,
        all_four s -> all_four (final (save_changes draw loc idx form s)))
  /\ (forall file s, all_four s -> all_four (import_events draw file s))
  /\ (forall s s', handles draw s s' -> all_four s -> all_four s').
Proof.
  split; [|split; [|split; [|split]]].
  - intros ev r Hr. split; [by eapply import_record_four|].
    destruct (import_record_fields ev r Hr) as (H1 & H2 & H3). split.
    + intros l ->. split; [|split]; by apply filled_list.
    + intros Hnl. destruct ev; try done. by destruct (Hnl l).
  - intros k inp s. apply (touches_all_four k), add_event_touches.
  - apply save_changes_all_four.
  - apply import_events_all_four.
  - apply handles_all_four.
Qed.

(** [add_event] with a time that [validate_time] rejects shows the
    error and returns: nothing else changes. *)
Lemma add_event_invalid_time k inp s :
  truthy (in_text inp) = true ->
  truthy (in_time inp) = true ->
  validate_time (or_else (in_time inp) EmptyString) = false ->
  add_event draw k inp s
  = Done (show (ShowError "Invalid time format. Use HH:MM (24-hour).") s).
Proof.
  intros Ht Htime Hv. unfold add_event, ask_event.
  by rewrite Ht, Htime, Hv.
Qed.

(** C6: in a state that the program reaches, adding an event to the key
    [k], saving or deleting one event in an edit panel opened for [k],
    and deleting all events of [k] with the button of its day page leave
    the list stored under every other key as it was. *)
Theorem other_keys_unchanged (s : app) (k k' : key) :
  reachable draw s ->
  k' <> k ->
  (forall inp,
      events_at k' (final (add_event draw k inp s)) = events_at k' s)
  /\ (forall loc idx form,
        (k, loc) ∈ windows s ->
        events_at k' (final (save_changes draw loc idx form s))
        = events_at k' s)
  /\ (forall loc idx choice,
        (k, loc) ∈ windows s ->
        events_at k' (final (delete_event draw loc idx choice s))
        = events_at k' s)
  /\ (forall choice,
        events_at k' (final (delete_event_button draw k choice s))
        = events_at k' s).
Proof.
  intros Hwf%reachable_wf Hne. repeat split.
  - intros inp. eapply touches_frame; [apply add_event_touches | done..].
  - intros loc idx form Hin.
    eapply touches_frame; [by apply save_changes_touches | done..].
  - intros loc idx choice Hin.
    eapply touches_frame; [by apply delete_event_touches | done..].
  - intros choice.
    eapply touches_frame; [apply delete_event_button_touches | done..].
Qed.

End Invariants.

(** ** The program on concrete inputs *)

(** C5: [validate_time] accepts the time "12:30" followed by a newline,
    which is not a time in the format HH:MM that its docstring and the
    error message of [add_event] name: [$] in its pattern also matches in
    front of a final newline. *)
Theorem validate_time_trailing_newline :
  let s := "12:30" +:+ String Chars.newline EmptyString in
  validate_time s = true /\ is_hhmm s = false.
Proof. split; reflexivity. Qed.

Lemma drop_final_newline_app (t : string) :
  drop_final_newline (t +:+ String Chars.newline EmptyString) = Some t.
Proof.
  induction t as [|c t IH]; [reflexivity|].
  rewrite PyStrFacts.append_cons.
  destruct (t +:+ String Chars.newline EmptyString) as [|d r] eqn:E.
  - by destruct t.
  - change (drop_final_newline (String c (String d r)))
      with (String c <$> drop_final_newline (String d r)).
    by rewrite IH.
Qed.

(** Every time in the format, followed by a newline, is accepted too. *)
Lemma validate_time_newline (t : string) :
  is_hhmm t = true ->
  validate_time (t +:+ String Chars.newline EmptyString) = true.
Proof.
  intros Ht. rewrite TimeFacts.validate_time_accepted.
  unfold accepted_time. rewrite drop_final_newline_app, Ht.
  destruct (t +:+ _); [done | apply orb_true_r].
Qed.

Lemma add_event_invalid_time_witness :
  let inp := {| in_text := Some "Meeting"; in_time := Some "25:00";
                in_priority := Some 1; in_color := None |} in
  let s := first_run "1403" "1" in
  add_event draw_fine [1403; 1; 1] inp s
  = Done (show (ShowError "Invalid time format. Use HH:MM (24-hour).") s).
Proof.
  apply add_event_invalid_time; reflexivity.
Defined.

Lemma stored_records_have_four_fields_witness :
  filled [VStr "Nowruz"; VStr "#00ff00"]
         [VStr "Nowruz"; VStr "#00ff00"; VStr EmptyString; VInt 2]
         2 (VStr EmptyString)
  /\ all_four
       (import_events draw_fine
          (Some (Some (VDict [("1403-1-1", VList [VList [VStr "Nowruz"]])])))
          (first_run "1403" "1")).
Proof.
  destruct (stored_records_have_four_fields draw_fine)
    as (Hrec & _ & _ & Himp & _).
  split.
  - destruct (Hrec (VList [VStr "Nowruz"; VStr "#00ff00"])
                [VStr "Nowruz"; VStr "#00ff00"; VStr EmptyString; VInt 2])
      as (_ & Hl & _); [reflexivity|].
    destruct (Hl [VStr "Nowruz"; VStr "#00ff00"]) as (_ & H2 & _);
      [reflexivity | exact H2].
  - apply Himp. intros loc l Hl. simpl in Hl. discriminate Hl.
Defined.

Lemma change_month_wraps_witness :
  (year_entry (final (change_month draw_fine (-1) (first_run "1403" "1"))),
   month_entry (final (change_month draw_fine (-1) (first_run "1403" "1"))))
  = (PyStr.py_str 1402, PyStr.py_str 12).
Proof.
  destruct (change_month_wraps draw_fine (first_run "1403" "1") 1403 1)
    as (H & _); [reflexivity | reflexivity | lia |].
  apply H. reflexivity.
Defined.

Lemma set_calendar_validates_witness :
  let separator := String (ascii_of_nat 28) "1403" in
  set_calendar draw_fine (first_run "1403" "13")
  = Done (show (ShowError "Invalid input: ") (first_run "1403" "13"))
  /\ settings_file (final (set_calendar draw_fine (first_run "1403" "7")))
     = Some (1403, 7)
  /\ set_calendar draw_fine (first_run separator "7")
     = Done (show (ShowError "Invalid input: ") (first_run separator "7")).
Proof.
  intros separator. split; [|split].
  - destruct (set_calendar_validates draw_fine (first_run "1403" "13"))
      as (_ & _ & H).
    apply H. right. right. exists 13. split; [reflexivity | lia].
  - destruct (set_calendar_validates draw_fine (first_run "1403" "7"))
      as (_ & H & _).
    apply H; [reflexivity | reflexivity | lia | reflexivity].
  - destruct (set_calendar_validates draw_fine (first_run separator "7"))
      as (_ & _ & H).
    apply H. left. reflexivity.
Defined.

Lemma sort_by_time_spec_witness :
  let l := [ [VStr "lunch"; VNone; VStr "12:00"; VInt 2];
             [VStr "call"; VNone; VStr EmptyString; VInt 3];
             [VStr "run"; VNone; VStr "06:30"; VInt 1] ] in
  exists l',
    PySort.by_time l = Some l'
    /\ l' ≡ₚ l
    /\ l' = filter (fun e => time_of e <> EmptyString) l'
            ++ filter (fun e => time_of e = EmptyString) l'
    /\ StronglySorted (fun e1 e2 => String.le (time_of e1) (time_of e2))
                      (filter (fun e => time_of e <> EmptyString) l')
    /\ forall t, filter (fun e => time_of e = t) l'
                 = filter (fun e => time_of e = t) l.
Proof.
  apply sort_by_time_spec.
  repeat constructor; eexists; reflexivity.
Defined.

(** The state after two events were added on a first run and the edit
    panel of the second was opened. *)
Lemma other_keys_unchanged_witness :
  let inp t := {| in_text := Some t; in_time := Some "08:00";
                  in_priority := Some 2; in_color := Some "#ff0000" |} in
  let s0 := final (load_events (first_run "1403" "1")) in
  let s1 := final (add_event draw_fine [1403; 1; 2] (inp "other") s0) in
  let s2 := final (add_event draw_fine [1403; 1; 1] (inp "mine") s1) in
  let s3 := final (edit_events [1403; 1; 1] (Some 1) true s2) in
  let form := {| f_text := "edited"; f_time := "09:15";
                 f_priority := "High"; f_color := "#0000ff" |} in
  events_at [1403; 1; 2] (final (save_changes draw_fine 1 0 form s3))
  = events_at [1403; 1; 2] s3
  /\ events_at [1403; 1; 2]
       (final (delete_event_button draw_fine [1403; 1; 1] true s3))
     = events_at [1403; 1; 2] s3.
Proof.
  intros inp s0 s1 s2 s3 form.
  assert (Hreach : reachable draw_fine s3).
  { eapply reach_step; [|apply h_edit_events].
    eapply reach_step; [|apply h_add_event].
    eapply reach_step; [|apply h_add_event].
    apply reach_start. repeat split. }
  destruct (other_keys_unchanged draw_fine s3 [1403; 1; 1] [1403; 1; 2])
    as (_ & Hsave & _ & Hdel); [exact Hreach | discriminate |].
  split; [|apply Hdel].
  apply Hsave. vm_compute. apply list_elem_of_here.
Defined.

(** * More of the program *)

(** ** Keys read from a file *)

Module KeyFacts.
Import Chars PyStr.

Lemma split_pieces sep s : Forall (fun x => mem sep x = false) (split sep s).
Proof.
  induction s as [|c s IH]; simpl; [by repeat constructor|].
  destruct (Ascii.eqb c sep) eqn:E; [by constructor|].
  destruct (split sep s) as [|h t]; [by repeat constructor; simpl; rewrite E|].
  apply Forall_cons in IH as [Hh Ht].
  constructor; [|done]. simpl. by rewrite E, Hh.
Qed.

Lemma split_nonempty sep s : split sep s <> [].
Proof.
  destruct s as [|c s]; simpl; [done|].
  destruct (Ascii.eqb c sep); [done|]. by destruct (split sep s).
Qed.

Lemma mem_lstrip space c s :
  mem c (lstrip space s) = true -> mem c s = true.
Proof.
  induction s as [|d s IH]; simpl; [done|].
  destruct (space d); [|done].
  intros H. rewrite (IH H). apply orb_true_r.
Qed.

Lemma mem_rstrip space c s :
  mem c (rstrip space s) = true -> mem c s = true.
Proof.
  induction s as [|d s IH]; simpl; [done|].
  destruct (rstrip space s) as [|e r] eqn:E.
  - destruct (space d); [done|]. simpl. rewrite orb_false_r.
    intros ->. done.
  - simpl. intros [->|H]%orb_true_iff; [done|].
    rewrite IH; [apply orb_true_r|]. done.
Qed.

Lemma mem_strip space c s :
  mem c (rstrip space (lstrip space s)) = true -> mem c s = true.
Proof. intros H. by eapply mem_lstrip, mem_rstrip. Qed.

Lemma parse_digits_nonneg prev acc s z :
  0 <= acc -> parse_digits prev acc s = Some z -> 0 <= z.
Proof.
  revert prev acc. induction s as [|c s IH]; intros prev acc Hacc; simpl.
  - destruct prev; [|done]. by intros [= <-].
  - destruct (is_digit c) eqn:Ed.
    + apply IH. pose proof (CharFacts.digit_val_range c Ed). lia.
    + destruct (_ && _); [by apply IH | done].
Qed.

(** Without a minus sign in the string, [int] gives no negative number. *)
Lemma py_int_nonneg s z : mem "-" s = false -> py_int s = Some z -> 0 <= z.
Proof.
  intros Hm. unfold py_int.
  destruct (rstrip is_int_space (lstrip is_int_space s)) as [|c r] eqn:E;
    [done|].
  destruct (Ascii.eqb c "-") eqn:Ec.
  - exfalso.
    assert (H : mem "-" (rstrip is_int_space (lstrip is_int_space s)) = true).
    { rewrite E. simpl. by rewrite Ec. }
    apply mem_strip in H. congruence.
  - destruct (Ascii.eqb c "+"); by apply parse_digits_nonneg.
Qed.

Lemma decode_key_storable s k : decode_key s = Some k -> storable k.
Proof.
  unfold decode_key. intros H. apply mapM_Some in H.
  pose proof (split_pieces "-" s) as Hp.
  pose proof (split_nonempty "-" s) as Hn.
  split.
  - intros ->. apply Forall2_nil_inv_r in H. done.
  - clear Hn. induction H as [|x z l k Hx _ IH]; [constructor|].
    apply Forall_cons in Hp as [Hx' Hp]. constructor; [|auto].
    by eapply py_int_nonneg.
Qed.

End KeyFacts.

(** X1: every key that [load_events] or [import_events] reads from the
    name of a JSON member is a non-empty tuple without a negative
    component, and it is a key that survives being saved and loaded
    again. *)
Theorem decoded_keys_are_storable (s : string) (k : key) :
  decode_key s = Some k ->
  storable k /\ decode_key (encode_key k) = Some k.
Proof.
  intros H. pose proof (KeyFacts.decode_key_storable s k H) as [Hne Hpos].
  split; [done|]. by apply decode_encode_key.
Qed.

Lemma decoded_keys_are_storable_witness :
  storable [1403; 1; 15]
  /\ decode_key (encode_key [1403; 1; 15]) = Some [1403; 1; 15].
Proof. apply (decoded_keys_are_storable " 1403 -01-1_5"). reflexivity. Defined.

(** ** Times and colours *)

Lemma drop_final_newline_Some (s t : string) :
  drop_final_newline s = Some t -> s = t +:+ String Chars.newline EmptyString.
Proof.
  revert t. induction s as [|c s IH]; intros t; [done|].
  destruct s as [|d s].
  - simpl. destruct (Ascii.eqb c Chars.newline) eqn:E; [|done].
    intros [= <-]. apply Ascii.eqb_eq in E. by subst.
  - change (drop_final_newline (String c (String d s)))
      with (String c <$> drop_final_newline (String d s)).
    destruct (drop_final_newline (String d s)) as [t'|]; [|done].
    intros [= <-]. rewrite PyStrFacts.append_cons. f_equal. by apply IH.
Qed.

(** X2: [validate_time] returns [True] exactly on the empty string, on the
    times in the format HH:MM (hour 0..23 in one or two digits, minute in
    two digits), and on such a time followed by one newline. *)
Theorem validate_time_exact (s : string) :
  validate_time s = true <->
  s = EmptyString
  \/ is_hhmm s = true
  \/ exists t, is_hhmm t = true /\ s = t +:+ String Chars.newline EmptyString.
Proof.
  rewrite TimeFacts.validate_time_accepted. unfold accepted_time.
  destruct s as [|c s]; [by split; auto|].
  rewrite orb_true_iff. split.
  - intros [H|H]; [by auto|].
    destruct (drop_final_newline (String c s)) as [t|] eqn:E; [|done].
    right. right. exists t. split; [done|]. by apply drop_final_newline_Some.
  - intros [H|[H|(t & Ht & Hs)]]; [done | by left |].
    right. by rewrite Hs, drop_final_newline_app.
Qed.

Lemma rstrip_no_final_newline (s : string) :
  drop_final_newline (PyStr.rstrip Chars.is_space s) = None.
Proof.
  induction s as [|c s IH]; [done|]. simpl.
  destruct (PyStr.rstrip Chars.is_space s) as [|d r] eqn:E.
  - destruct (Chars.is_space c) eqn:Ec; [done|]. simpl.
    destruct (Ascii.eqb c Chars.newline) eqn:En; [|done].
    apply Ascii.eqb_eq in En. subst c. discriminate Ec.
  - change (drop_final_newline (String c (String d r)))
      with (String c <$> drop_final_newline (String d r)).
    by rewrite IH.
Qed.

(** A stripped string that [validate_time] accepts is empty or a time in
    the format HH:MM. *)
Lemma validate_time_stripped (x : string) :
  validate_time (PyStr.strip x) = true ->
  PyStr.strip x = EmptyString \/ is_hhmm (PyStr.strip x) = true.
Proof.
  rewrite TimeFacts.validate_time_accepted. unfold accepted_time, PyStr.strip.
  rewrite rstrip_no_final_newline.
  destruct (PyStr.rstrip _); [by left|]. rewrite orb_false_r. by right.
Qed.

(** X3: [get_event_color] raises for no integer count: for a count of 0
    or less it returns ['#cccccc'] (the index -1 that it computes first is
    never used), and from 10 events on it returns what it returns for
    10. *)
Theorem get_event_color_saturates (event_count : Z) (event_color : option string) :
  is_Some (get_event_color event_count event_color)
  /\ (event_count <= 0 ->
      get_event_color event_count event_color = Some default_color)
  /\ (10 <= event_count ->
      get_event_color event_count event_color
      = get_event_color 10 event_color).
Proof.
  unfold get_event_color. repeat split.
  - destruct (Z.gtb_spec event_count 0); [|done].
    destruct (truthy event_color); [done|].
    apply py_index_in_range. pose proof (shade_index_range event_count).
    simpl. lia.
  - intros H. destruct (Z.gtb_spec event_count 0); [lia | done].
  - intros H. destruct (Z.gtb_spec event_count 0); [|lia].
    unfold shade_index. by rewrite !Z.min_r by lia.
Qed.

Lemma get_event_color_saturates_witness :
  get_event_color (-3) (Some "#ff0000") = Some default_color
  /\ get_event_color 250 None = get_event_color 10 None.
Proof.
  destruct (get_event_color_saturates (-3) (Some "#ff0000")) as (_ & H1 & _).
  destruct (get_event_color_saturates 250 None) as (_ & _ & H2).
  split; [apply H1; lia | apply H2; lia].
Defined.

(** ** What the handlers store *)

Section StoreEffects.
Variable draw : bool -> Z -> Z -> PyDict.dict key (list event) -> draw_result.
Import StoreFacts.

Lemma day_events_events_at k s : day_events k s = default [] (events_at k s).
Proof.
  unfold day_events, events_at. by destruct (PyDict.get k (events s)).
Qed.

Lemma deref_alter h loc f :
  (loc < length h)%nat -> deref (alter f loc h) loc = f (deref h loc).
Proof.
  intros Hlt. unfold deref. rewrite list_lookup_alter_eq.
  by destruct (lookup_lt_is_Some_2 h loc Hlt) as [l ->].
Qed.

Lemma deref_alter_ne h loc loc' f :
  loc <> loc' -> deref (alter f loc h) loc' = deref h loc'.
Proof. intros Hne. unfold deref. by rewrite list_lookup_alter_ne. Qed.

Lemma deref_new h l : deref (h ++ [l]) (length h) = l.
Proof. unfold deref. by rewrite list_lookup_middle. Qed.

Lemma events_at_mutate k loc f s :
  wf s -> PyDict.get k (events s) = Some loc ->
  events_at k (mutate loc f s) = Some (f (day_events k s)).
Proof.
  intros [He _] Hk. destruct (He k loc Hk) as [Hlt _].
  unfold events_at, day_events. simpl. rewrite Hk. simpl.
  by rewrite deref_alter.
Qed.

Lemma events_at_assign k l s : events_at k (assign k l s) = Some l.
Proof.
  unfold events_at. simpl. rewrite PyDictFacts.get_set_eq. simpl.
  by rewrite deref_new.
Qed.

(** A mutation of a list that no key holds does not show in the store. *)
Lemma frame_unheld loc f s k' :
  (forall k, PyDict.get k (events s) <> Some loc) ->
  events_at k' (mutate loc f s) = events_at k' s.
Proof.
  intros Hun. unfold events_at. simpl.
  destruct (PyDict.get k' (events s)) as [r|] eqn:E; [|done].
  simpl. f_equal. apply deref_alter_ne. intros ->. by apply (Hun k').
Qed.

Lemma append_event_events_at k ev s :
  wf s -> events_at k (append_event k ev s) = Some (day_events k s ++ [ev]).
Proof.
  intros Hwf. unfold append_event.
  destruct (PyDict.get k (events s)) as [loc|] eqn:E.
  - by apply (events_at_mutate k loc (fun l => l ++ [ev])).
  - rewrite events_at_assign. unfold day_events. by rewrite E.
Qed.

Lemma ask_event_record inp s text priority :
  in_text inp = Some text -> text <> EmptyString ->
  in_priority inp = Some priority ->
  truthy (in_time inp) = false
  \/ validate_time (or_else (in_time inp) EmptyString) = true ->
  ask_event inp s
  = inl (new_record text (in_color inp) (in_time inp) priority).
Proof.
  intros Ht Hne Hp Htime. unfold ask_event. rewrite Ht, Hp.
  destruct text as [|c text]; [done|]. simpl.
  by destruct Htime as [-> | ->]; rewrite ?andb_false_r.
Qed.

(** X4: when the user enters a text, no time or a time that
    [validate_time] accepts, and a priority, [add_event] appends the
    record [(text, color, time or "", priority)] at the end of the list of
    the key, which it creates when the key has none. *)
Theorem add_event_appends (k : key) (inp : add_input) (s : app)
        (text : string) (priority : Z) :
  wf s ->
  in_text inp = Some text -> text <> EmptyString ->
  in_priority inp = Some priority ->
  truthy (in_time inp) = false
  \/ validate_time (or_else (in_time inp) EmptyString) = true ->
  events_at k (final (add_event draw k inp s))
  = Some (day_events k s
            ++ [new_record text (in_color inp) (in_time inp) priority]).
Proof.
  intros Hwf Ht Hne Hp Htime. unfold add_event.
  rewrite (ask_event_record inp s text priority) by done.
  rewrite (events_at_same _ _ k (tail_same draw _ _ (show_same _))).
  by apply append_event_events_at.
Qed.


Lemma save_changes_cases loc idx form s :
  same_store s (final (save_changes draw loc idx form s))
  \/ same_store
       (mutate loc
          (fun l => <[idx := new_record (PyStr.strip (f_text form))
                             (Some (f_color form))
                             (Some (PyStr.strip (f_time form)))
                             (str_to_priority (f_priority form))]> l) s)
       (final (save_changes draw loc idx form s)).
Proof.
  unfold save_changes.
  destruct (negb _); [left; apply show_same|].
  destruct (_ && _); [left; apply show_same|].
  destruct (bool_decide _); [|left; apply same_store_refl].
  right. apply tail_same, show_same.
Qed.

Lemma delete_event_cases loc idx choice s :
  same_store s (final (delete_event draw loc idx choice s))
  \/ same_store (mutate loc (fun l => delete idx l) s)
                (final (delete_event draw loc idx choice s)).
Proof.
  unfold delete_event.
  destruct choice; [|left; apply same_store_refl].
  destruct (bool_decide _); [|left; apply same_store_refl].
  right. apply tail_same, show_same.
Qed.

Lemma time_of_new_record text color time priority :
  time_of (new_record text color (Some time) priority) = time.
Proof. unfold time_of, new_record. simpl. by destruct time. Qed.

(** X5: [save_changes] of a panel that holds the list of its key, with an
    index inside the list, a text that is not blank and a time that is
    blank or accepted, replaces the record at the index and no other, by
    [(text, color, time, priority)] with text and time stripped; the time
    it stores is empty or in the format HH:MM. *)
Theorem save_changes_replaces (k : key) (loc idx : nat) (form : edit_form)
        (s : app) :
  wf s ->
  PyDict.get k (events s) = Some loc ->
  (idx < length (day_events k s))%nat ->
  PyStr.strip (f_text form) <> EmptyString ->
  validate_time (PyStr.strip (f_time form)) = true ->
  let record := new_record (PyStr.strip (f_text form)) (Some (f_color form))
                           (Some (PyStr.strip (f_time form)))
                           (str_to_priority (f_priority form)) in
  events_at k (final (save_changes draw loc idx form s))
  = Some (<[idx := record]> (day_events k s))
  /\ (time_of record = EmptyString \/ is_hhmm (time_of record) = true).
Proof.
  intros Hwf Hk Hidx Htext Htime record. split.
  - unfold save_changes.
    destruct (PyStr.strip (f_text form)) as [|c t] eqn:Et; [done|].
    rewrite Htime, andb_false_r. simpl negb. cbv iota.
    assert (Hd : deref (heap s) loc = day_events k s).
    { unfold day_events. by rewrite Hk. }
    rewrite Hd, bool_decide_true by done.
    rewrite (events_at_same _ _ k (tail_same draw _ _ (show_same _))).
    by rewrite (events_at_mutate k loc).
  - subst record. rewrite time_of_new_record.
    by apply validate_time_stripped.
Qed.

(** X6: [delete_event] of a panel that holds the list of its key, once
    confirmed and with an index inside the list, removes the record at the
    index and no other. *)
Theorem delete_event_removes (k : key) (loc idx : nat) (s : app) :
  wf s ->
  PyDict.get k (events s) = Some loc ->
  (idx < length (day_events k s))%nat ->
  events_at k (final (delete_event draw loc idx true s))
  = Some (delete idx (day_events k s)).
Proof.
  intros Hwf Hk Hidx. unfold delete_event.
  assert (Hd : deref (heap s) loc = day_events k s).
  { unfold day_events. by rewrite Hk. }
  rewrite Hd, bool_decide_true by done.
  rewrite (events_at_same _ _ k (tail_same draw _ _ (show_same _))).
  by rewrite (events_at_mutate k loc).
Qed.

Lemma delete_event_button_store k s :
  day_events k s <> [] ->
  same_store (assign k [] s) (final (delete_event_button draw k true s)).
Proof.
  intros Hne. unfold delete_event_button.
  rewrite bool_decide_false by done. apply tail_same, show_same.
Qed.

(** X7: [delete_event_button], confirmed for a day that has events, keeps
    the key in the dictionary and binds it to a new empty list; for a day
    without events, or when the user declines, lists, dictionary and
    windows stay as they are. *)
Theorem delete_event_button_empties (k : key) (choice : bool) (s : app) :
  let s' := final (delete_event_button draw k choice s) in
  (day_events k s <> [] -> choice = true ->
   events_at k s' = Some []
   /\ k ∈ PyDict.keys (events s')
   /\ PyDict.get k (events s') = Some (length (heap s)))
  /\ (day_events k s = [] \/ choice = false -> same_store s s').
Proof.
  cbv zeta. split.
  - intros Hne ->. pose proof (delete_event_button_store k s Hne) as Hs.
    pose proof Hs as (_ & He & _).
    rewrite (events_at_same _ _ k Hs), events_at_assign, He. simpl.
    rewrite PyDictFacts.get_set_eq. repeat split.
    destruct (decide (k ∈ PyDict.keys (PyDict.set k (length (heap s)) (events s))))
      as [|Hn]; [done|].
    apply PyDictFacts.get_None in Hn.
    by rewrite PyDictFacts.get_set_eq in Hn.
  - intros Hc. unfold delete_event_button.
    destruct (bool_decide_reflect (day_events k s = [])); [apply show_same|].
    destruct Hc as [Hc | ->]; [done | apply show_same].
Qed.

(** X8: an edit panel that stays open while the events of its day are
    deleted with [delete_event_button] holds a list that the dictionary
    has dropped: [save_changes] and [delete_event] of that panel then
    change the list of no key, so the day keeps its empty list and the
    edit is lost. *)
Theorem stale_panel_edit_is_lost (k : key) (loc : nat) (s : app) :
  wf s ->
  PyDict.get k (events s) = Some loc ->
  day_events k s <> [] ->
  let s1 := final (delete_event_button draw k true s) in
  events_at k s1 = Some []
  /\ (forall idx form k',
        events_at k' (final (save_changes draw loc idx form s1))
        = events_at k' s1)
  /\ (forall idx choice k',
        events_at k' (final (delete_event draw loc idx choice s1))
        = events_at k' s1).
Proof.
  intros Hwf Hk Hne s1.
  pose proof (delete_event_button_store k s Hne) as Hs. fold s1 in Hs.
  pose proof Hs as (_ & He & _).
  assert (Hun : forall k0, PyDict.get k0 (events s1) <> Some loc).
  { intros k0. rewrite He. simpl. destruct Hwf as [Hev _].
    destruct (Hev k loc Hk) as [Hlt Hown].
    destruct (decide (k = k0)) as [->|Hk0].
    - rewrite PyDictFacts.get_set_eq. intros [= E]. lia.
    - rewrite PyDictFacts.get_set_ne by done.
      intros H. apply Hk0. symmetry. by apply Hown. }
  split; [|split].
  - by rewrite (events_at_same _ _ k Hs), events_at_assign.
  - intros idx form k'.
    destruct (save_changes_cases loc idx form s1) as [H|H];
      rewrite (events_at_same _ _ k' H); [done | by apply frame_unheld].
  - intros idx choice k'.
    destruct (delete_event_cases loc idx choice s1) as [H|H];
      rewrite (events_at_same _ _ k' H); [done | by apply frame_unheld].
Qed.

(** X9: [delete_all_events], confirmed while the dictionary has keys,
    leaves no key, and writes the empty document to the events file when
    the file can be opened; with no key in the dictionary it only tells
    that there is nothing to delete. *)
Theorem delete_all_events_clears (s : app) :
  (events s <> [] ->
   let s' := final (delete_all_events draw true s) in
   events s' = []
   /\ (forall k, events_at k s' = None)
   /\ (disk_ok s = true -> events_file s' = Some []))
  /\ (events s = [] ->
      forall choice,
        delete_all_events draw choice s
        = Done (show (ShowInfo "No events to delete.") s)).
Proof.
  split.
  - intros Hne s'. subst s'. unfold delete_all_events.
    rewrite bool_decide_false by done.
    pose proof (tail_same draw (set_store (heap s) [] s)
                  (show (ShowInfo "All events have been deleted."))
                  (show_same _)) as (_ & He & _).
    split; [done|]. split.
    + intros k. unfold events_at. by rewrite He.
    + intros Hd. simpl.
      pose proof (set_calendar_frame draw
                    (save_events (set_store (heap s) [] s)))
        as (_ & _ & _ & _ & _ & Hf).
      destruct (set_calendar draw _) as [s2|s2]; simpl in *; rewrite Hf;
        unfold save_events; simpl; by rewrite Hd.
  - intros He choice. unfold delete_all_events.
    by rewrite bool_decide_true.
Qed.

Lemma list_insert_at_perm {A : Type} (l : list A) (i j : nat) (x : A) :
  l !! i = Some x -> list_insert_at j x (delete i l) ≡ₚ l.
Proof.
  intros Hi. unfold list_insert_at.
  rewrite <- Permutation_middle, take_drop.
  by rewrite <- (delete_Permutation l i x).
Qed.

(** X10: [drag_motion] moves one record inside the list of the page.  On
    the same row it does nothing.  From a row [i] inside the list to
    another row [j] it takes the record out and puts it in again in front
    of position [j], or at the end when [j] lies past it, so that the list
    is a permutation of what it was.  From a row past the end of the list,
    [pop] raises and nothing changes.  In every case each list is a
    permutation of what it was, and every list but that of the page is
    untouched. *)
Theorem drag_motion_permutes (loc i j : nat) (s : app) (r : nat) :
  deref (heap (final (drag_motion loc i j s))) r ≡ₚ deref (heap s) r
  /\ (r <> loc ->
      deref (heap (final (drag_motion loc i j s))) r = deref (heap s) r)
  /\ (j = i -> drag_motion loc i j s = Done s)
  /\ (j <> i -> deref (heap s) loc !! i = None ->
      drag_motion loc i j s = Raised s)
  /\ (forall x, j <> i -> deref (heap s) loc !! i = Some x ->
        exists s', drag_motion loc i j s = Done s'
                   /\ deref (heap s') loc
                      = list_insert_at j x (delete i (deref (heap s) loc))
                   /\ events s' = events s /\ windows s' = windows s
                   /\ dialogs s' = dialogs s
                   /\ events_file s' = events_file s).
Proof.
  assert (Hlt : forall x, deref (heap s) loc !! i = Some x ->
                          (loc < length (heap s))%nat).
  { intros x E. destruct (decide (loc < length (heap s))%nat); [done|].
    assert (Hn : heap s !! loc = None) by (apply lookup_ge_None_2; lia).
    unfold deref in E. by rewrite Hn in E. }
  unfold drag_motion. split; [|split; [|split; [|split]]].
  - destruct (bool_decide _); [done|].
    destruct (deref (heap s) loc !! i) as [x|] eqn:E; [|done].
    simpl. destruct (decide (r = loc)) as [->|Hne].
    + rewrite deref_alter by eauto. by apply list_insert_at_perm.
    + by rewrite deref_alter_ne.
  - intros Hne. destruct (bool_decide _); [done|].
    destruct (deref (heap s) loc !! i) as [x|] eqn:E; [|done].
    simpl. by rewrite deref_alter_ne.
  - intros ->. by rewrite bool_decide_true.
  - intros Hne E. rewrite bool_decide_false by done. by rewrite E.
  - intros x Hne E. rewrite bool_decide_false by done. rewrite E.
    eexists. split; [done|]. simpl. split; [|done].
    rewrite deref_alter by eauto. done.
Qed.

End StoreEffects.

Lemma first_run_wf year month : wf (first_run year month).
Proof.
  split; intros k r H; simpl in H; [discriminate H | by apply elem_of_nil in H].
Qed.

Lemma drag_motion_permutes_witness :
  let day := [[VStr "a"]; [VStr "b"]; [VStr "c"]] in
  let s := set_store [day] [([1403; 1; 1], 0%nat)] (first_run "1403" "1") in
  deref (heap (final (drag_motion 0 0 2 s))) 0
  = [[VStr "b"]; [VStr "c"]; [VStr "a"]]
  /\ drag_motion 0 3 1 s = Raised s.
Proof.
  intros day s.
  destruct (drag_motion_permutes 0 0 2 s 0) as (_ & _ & _ & _ & Hin).
  destruct (drag_motion_permutes 0 3 1 s 0) as (_ & _ & _ & Hout & _).
  split; [|by apply Hout].
  destruct (Hin [VStr "a"]) as (s' & Hs & Hl & _); [done | reflexivity|].
  rewrite Hs. exact Hl.
Defined.

Lemma add_event_appends_witness :
  let inp := {| in_text := Some "Nowruz"; in_time := None;
                in_priority := Some 1; in_color := Some "#00ff00" |} in
  events_at [1403; 1; 1]
            (final (add_event draw_fine [1403; 1; 1] inp (first_run "1403" "1")))
  = Some (day_events [1403; 1; 1] (first_run "1403" "1")
            ++ [new_record "Nowruz" (Some "#00ff00") None 1]).
Proof.
  apply add_event_appends; try reflexivity.
  - apply first_run_wf.
  - discriminate.
  - by left.
Defined.

Lemma two_events_state :
  let inp t := {| in_text := Some t; in_time := Some "08:00";
                  in_priority := Some 2; in_color := Some "#ff0000" |} in
  let s1 := final (add_event draw_fine [1403; 1; 1] (inp "first")
                     (first_run "1403" "1")) in
  let s2 := final (add_event draw_fine [1403; 1; 1] (inp "second") s1) in
  wf s2 /\ PyDict.get [1403; 1; 1] (events s2) = Some 0%nat
  /\ length (day_events [1403; 1; 1] s2) = 2%nat.
Proof.
  intros inp s1 s2. split; [|split; reflexivity].
  eapply StoreFacts.touches_wf; [apply add_event_touches|].
  eapply StoreFacts.touches_wf; [apply add_event_touches|].
  apply first_run_wf.
Qed.

Lemma save_changes_replaces_witness :
  let inp t := {| in_text := Some t; in_time := Some "08:00";
                  in_priority := Some 2; in_color := Some "#ff0000" |} in
  let s1 := final (add_event draw_fine [1403; 1; 1] (inp "first")
                     (first_run "1403" "1")) in
  let s2 := final (add_event draw_fine [1403; 1; 1] (inp "second") s1) in
  let form := {| f_text := " edited "; f_time := "9:15 ";
                 f_priority := "High"; f_color := "#0000ff" |} in
  let record := new_record "edited" (Some "#0000ff") (Some "9:15") 1 in
  events_at [1403; 1; 1] (final (save_changes draw_fine 0 1 form s2))
  = Some (<[1%nat := record]> (day_events [1403; 1; 1] s2))
  /\ (time_of record = EmptyString \/ is_hhmm (time_of record) = true).
Proof.
  intros inp s1 s2 form record.
  destruct two_events_state as (Hwf & Hk & Hlen).
  apply (save_changes_replaces draw_fine [1403; 1; 1] 0 1 form s2);
    [exact Hwf | exact Hk | | discriminate | reflexivity].
  vm_compute. lia.
Defined.

Lemma delete_event_removes_witness :
  let inp t := {| in_text := Some t; in_time := Some "08:00";
                  in_priority := Some 2; in_color := Some "#ff0000" |} in
  let s1 := final (add_event draw_fine [1403; 1; 1] (inp "first")
                     (first_run "1403" "1")) in
  let s2 := final (add_event draw_fine [1403; 1; 1] (inp "second") s1) in
  events_at [1403; 1; 1] (final (delete_event draw_fine 0 0 true s2))
  = Some (delete 0%nat (day_events [1403; 1; 1] s2)).
Proof.
  intros inp s1 s2.
  destruct two_events_state as (Hwf & Hk & Hlen).
  apply (delete_event_removes draw_fine [1403; 1; 1] 0 0 s2);
    [exact Hwf | exact Hk |].
  vm_compute. lia.
Defined.

Lemma stale_panel_edit_is_lost_witness :
  let inp t := {| in_text := Some t; in_time := Some "08:00";
                  in_priority := Some 2; in_color := Some "#ff0000" |} in
  let s1 := final (add_event draw_fine [1403; 1; 1] (inp "first")
                     (first_run "1403" "1")) in
  let s2 := final (add_event draw_fine [1403; 1; 1] (inp "second") s1) in
  let s3 := final (delete_event_button draw_fine [1403; 1; 1] true s2) in
  let form := {| f_text := "edited"; f_time := "09:15";
                 f_priority := "High"; f_color := "#0000ff" |} in
  events_at [1403; 1; 1] s3 = Some []
  /\ events_at [1403; 1; 1] (final (save_changes draw_fine 0 1 form s3))
     = events_at [1403; 1; 1] s3.
Proof.
  intros inp s1 s2 s3 form.
  destruct two_events_state as (Hwf & Hk & Hlen).
  destruct (stale_panel_edit_is_lost draw_fine [1403; 1; 1] 0 s2)
    as (H1 & H2 & _); [exact Hwf | exact Hk | |].
  - discriminate.
  - split; [exact H1 | apply H2].
Defined.

Lemma delete_event_button_empties_witness :
  let inp := {| in_text := Some "first"; in_time := None;
                in_priority := Some 2; in_color := None |} in
  let s1 := final (add_event draw_fine [1403; 1; 1] inp
                     (first_run "1403" "1")) in
  events_at [1403; 1; 1]
            (final (delete_event_button draw_fine [1403; 1; 1] true s1))
  = Some []
  /\ same_store s1 (final (delete_event_button draw_fine [1403; 1; 1] false s1)).
Proof.
  intros inp s1. split.
  - destruct (delete_event_button_empties draw_fine [1403; 1; 1] true s1)
      as (H & _).
    destruct H as (H & _); [discriminate | reflexivity | exact H].
  - destruct (delete_event_button_empties draw_fine [1403; 1; 1] false s1)
      as (_ & H).
    apply H. by right.
Defined.

Lemma delete_all_events_clears_witness :
  let inp := {| in_text := Some "first"; in_time := None;
                in_priority := Some 2; in_color := None |} in
  let s1 := final (add_event draw_fine [1403; 1; 1] inp
                     (first_run "1403" "1")) in
  events (final (delete_all_events draw_fine true s1)) = []
  /\ events_file (final (delete_all_events draw_fine true s1)) = Some [].
Proof.
  intros inp s1.
  destruct (delete_all_events_clears draw_fine s1) as (H & _).
  destruct H as (H1 & _ & H3); [discriminate|].
  split; [exact H1 | apply H3; reflexivity].
Defined.

(** ** Saving, loading, importing and exporting *)

Module FileFacts.
Import StoreFacts.

Lemma storable_decode (k : key) :
  storable k -> decode_key (encode_key k) = Some k.
Proof. intros [Hne Hpos]. by apply decode_encode_key. Qed.

Lemma storable_names_NoDup (ks : list key) :
  NoDup ks -> Forall storable ks -> NoDup (encode_key <$> ks).
Proof.
  induction 1 as [|k ks Hk Hnd IH]; intros Hall; simpl; [constructor|].
  apply Forall_cons in Hall as [Hs Hall].
  constructor; [|auto].
  intros (k' & Heq & Hin)%list_elem_of_fmap.
  rewrite Forall_forall in Hall.
  pose proof (storable_decode k Hs) as H1.
  pose proof (storable_decode k' (Hall k' Hin)) as H2.
  rewrite Heq in H1. congruence.
Qed.

(** The document of a store with storable keys has one member per key,
    in the order of the keys. *)
Lemma encode_store_members {V : Type} (d : PyDict.dict key V) :
  NoDup (PyDict.keys d) -> Forall storable (PyDict.keys d) ->
  encode_store d = (fun kv => (encode_key kv.1, kv.2)) <$> d.
Proof.
  intros Hnd Hall. unfold encode_store.
  apply PyDictFacts.of_items_fresh. unfold PyDict.keys in *.
  rewrite <- list_fmap_compose.
  change (fst ∘ (fun kv : key * V => (encode_key kv.1, kv.2)))
    with (encode_key ∘ (fst : key * V -> key)).
  rewrite list_fmap_compose. by apply storable_names_NoDup.
Qed.

Lemma decode_encode_store {V : Type} (d : PyDict.dict key V) :
  NoDup (PyDict.keys d) -> Forall storable (PyDict.keys d) ->
  decode_store (encode_store d) = Some d.
Proof.
  intros Hnd Hall. rewrite encode_store_members by done.
  unfold decode_store.
  assert (Hm : mapM (fun kv : string * V =>
                       k ← decode_key kv.1; Some (k, kv.2))
                 ((fun kv : key * V => (encode_key kv.1, kv.2)) <$> d)
               = Some d).
  { apply mapM_Some. apply Forall2_fmap_l, Forall_Forall2_diag.
    apply Forall_forall. intros [k v] Hin. simpl.
    rewrite storable_decode; [done|].
    rewrite Forall_forall in Hall. apply Hall.
    apply list_elem_of_fmap. by exists (k, v). }
  rewrite Hm. simpl. f_equal. by apply PyDictFacts.of_items_fresh.
Qed.

Lemma keys_set_present {V : Type} (k : key) (v : V) (d : PyDict.dict key V) :
  k ∈ PyDict.keys d -> PyDict.keys (PyDict.set k v d) = PyDict.keys d.
Proof.
  unfold PyDict.keys. induction d as [|[k' v'] d IH]; intros Hin.
  - by apply elem_of_nil in Hin.
  - simpl. destruct (decide (k' = k)) as [->|Hne]; [done|].
    csimpl. f_equal. apply IH.
    apply elem_of_cons in Hin as [->|Hin]; done.
Qed.

Lemma keys_set {V : Type} (k : key) (v : V) (d : PyDict.dict key V) :
  PyDict.keys (PyDict.set k v d)
  = if decide (k ∈ PyDict.keys d) then PyDict.keys d
    else PyDict.keys d ++ [k].
Proof.
  destruct (decide (k ∈ PyDict.keys d)) as [Hin|Hin].
  - by apply keys_set_present.
  - rewrite PyDictFacts.set_fresh by done.
    unfold PyDict.keys. by rewrite fmap_app.
Qed.

Lemma NoDup_set {V : Type} (k : key) (v : V) (d : PyDict.dict key V) :
  NoDup (PyDict.keys d) -> NoDup (PyDict.keys (PyDict.set k v d)).
Proof.
  intros Hnd. rewrite keys_set. destruct (decide _) as [|Hin]; [done|].
  apply NoDup_app. repeat split; [done | | apply NoDup_singleton].
  intros x Hx ->%list_elem_of_singleton. done.
Qed.

Lemma NoDup_of_items {V : Type} (items : list (key * V)) :
  NoDup (PyDict.keys (PyDict.of_items items)).
Proof.
  unfold PyDict.of_items, PyDict.update.
  assert (Hgen : forall d : PyDict.dict key V,
             NoDup (PyDict.keys d) ->
             NoDup (PyDict.keys
                      (fold_left (fun acc kv => PyDict.set kv.1 kv.2 acc)
                                 items d))).
  { induction items as [|[k v] items IH]; intros d Hd; simpl; [done|].
    by apply IH, NoDup_set. }
  apply Hgen. constructor.
Qed.

Lemma get_elem {V : Type} (k : key) (v : V) (d : PyDict.dict key V) :
  NoDup (PyDict.keys d) -> (k, v) ∈ d -> PyDict.get k d = Some v.
Proof.
  unfold PyDict.keys. induction d as [|[k' v'] d IH]; simpl.
  - intros _ []%elem_of_nil.
  - intros [Hk Hnd]%NoDup_cons [[= -> ->]|Hin]%elem_of_cons.
    + by rewrite decide_True.
    + rewrite decide_False; [by apply IH|].
      intros ->. apply Hk. apply list_elem_of_fmap. by exists (k, v).
Qed.

(** What [events.update] leaves under each key. *)
Lemma events_at_update_events d s k :
  wf s -> NoDup (PyDict.keys d) ->
  events_at k (update_events d s)
  = match PyDict.get k d with
    | Some l => Some l
    | None => events_at k s
    end.
Proof.
  unfold update_events, PyDict.keys. revert s.
  induction d as [|[k0 l0] d IH]; intros s Hwf Hnd; simpl; [done|].
  apply NoDup_cons in Hnd as [Hk0 Hnd].
  rewrite IH by (done || by apply wf_assign).
  destruct (decide (k0 = k)) as [->|Hne].
  - assert (Hn : PyDict.get k d = None) by (by apply PyDictFacts.get_None).
    rewrite Hn. apply events_at_assign.
  - destruct (PyDict.get k d); [done|]. by apply frame_assign.
Qed.

Lemma get_snapshot k s : PyDict.get k (snapshot s) = events_at k s.
Proof.
  unfold snapshot, events_at.
  induction (events s) as [|[k' r] d IH]; simpl; [done|].
  destruct (decide (k' = k)); [done | apply IH].
Qed.

Lemma keys_snapshot s : PyDict.keys (snapshot s) = PyDict.keys (events s).
Proof.
  unfold snapshot, PyDict.keys. by rewrite <- list_fmap_compose.
Qed.

(** The store after [events.update] on a store without the keys of [d]. *)
Lemma snapshot_update_events d s :
  wf s -> NoDup (PyDict.keys (events s) ++ PyDict.keys d) ->
  snapshot (update_events d s) = snapshot s ++ d.
Proof.
  unfold update_events. revert s.
  induction d as [|[k l] d IH]; intros s Hwf Hnd; simpl;
    [by rewrite app_nil_r|].
  assert (Hk : k ∉ PyDict.keys (events s)).
  { apply NoDup_app in Hnd as (_ & Hdis & _). intros Hin.
    apply (Hdis k Hin). apply list_elem_of_here. }
  assert (Hsnap : snapshot (assign k l s) = snapshot s ++ [(k, l)]).
  { unfold snapshot. simpl. rewrite PyDictFacts.set_fresh by done.
    rewrite fmap_app. simpl. rewrite deref_new. f_equal.
    apply list_fmap_ext. intros i [k0 r] Hi. simpl. f_equal.
    assert (Hg : PyDict.get k0 (events s) = Some r).
    { apply get_elem; [by apply NoDup_app in Hnd as (? & _)|].
      by eapply list_elem_of_lookup_2. }
    destruct Hwf as [He _]. destruct (He k0 r Hg) as [Hlt _].
    unfold deref. by rewrite lookup_app_l. }
  rewrite IH.
  - rewrite Hsnap, <- app_assoc. done.
  - by apply wf_assign.
  - simpl. rewrite keys_set, decide_False by done.
    rewrite <- app_assoc. done.
Qed.

(** *** Keys stay distinct *)

Lemma touches_NoDup k s s' :
  touches k s s' -> NoDup (PyDict.keys (events s)) ->
  NoDup (PyDict.keys (events s')).
Proof.
  induction 1 as [s s' Hs|s loc f s' Ho Hf Hs|s l s' Hl Hs|s l s' Hl Hs
                  |s r s' Ho Hs|s s1 s2 _ IH1 _ IH2]; intros Hnd;
    try (destruct Hs as (_ & -> & _); simpl; by try apply NoDup_set).
  auto.
Qed.

Lemma update_events_NoDup d s :
  NoDup (PyDict.keys (events s)) ->
  NoDup (PyDict.keys (events (update_events d s))).
Proof.
  unfold update_events. revert s.
  induction d as [|[k l] d IH]; intros s Hnd; simpl; [done|].
  apply IH. simpl. by apply NoDup_set.
Qed.

End FileFacts.

Section Files.
Variable draw : bool -> Z -> Z -> PyDict.dict key (list event) -> draw_result.
Import StoreFacts FileFacts.

Lemma handles_NoDup s s' :
  handles draw s s' -> NoDup (PyDict.keys (events s)) ->
  NoDup (PyDict.keys (events s')).
Proof.
  intros [[k Hk]|[Hc|(file & d & _ & Hd)]]%handles_cases Hnd.
  - by eapply touches_NoDup.
  - destruct Hc as (_ & -> & _). constructor.
  - destruct Hd as (_ & -> & _). by apply update_events_NoDup.
Qed.

(** In every state that the program reaches the dictionary has no key
    twice. *)
Lemma reachable_NoDup s : reachable draw s -> NoDup (PyDict.keys (events s)).
Proof.
  induction 1 as [s Hf|s s' _ IH Hh]; [|by eapply handles_NoDup].
  unfold load_events. destruct Hf as (_ & He & _).
  destruct (events_file s) as [raw|]; [|simpl; rewrite He; constructor].
  destruct (disk_ok s); [|simpl; rewrite He; constructor].
  destruct (decode_store raw) as [d|]; [|simpl; rewrite He; constructor].
  simpl. apply update_events_NoDup. constructor.
Qed.

(** X11: what [save_events] writes, [load_events] reads back at the next
    start: for a state that the program reaches, whose keys have no
    negative component, the dictionary loaded from the saved file has the
    same keys in the same order, each with the same list of records. *)
Theorem restart_restores_store (s s0 : app) :
  reachable draw s ->
  Forall storable (PyDict.keys (events s)) ->
  disk_ok s = true ->
  fresh s0 -> disk_ok s0 = true ->
  events_file s0 = events_file (save_events s) ->
  exists s1, load_events s0 = Done s1 /\ snapshot s1 = snapshot s.
Proof.
  intros Hr Hall Hd (Hh0 & He0 & Hw0) Hd0 Hf.
  pose proof (reachable_NoDup s Hr) as Hnd.
  unfold load_events. rewrite Hf, Hd0. unfold save_events. rewrite Hd. simpl.
  rewrite decode_encode_store by (by rewrite keys_snapshot).
  eexists. split; [done|].
  rewrite snapshot_update_events.
  - unfold snapshot at 1. simpl. done.
  - split; simpl; [done|]. intros k r. rewrite Hw0. by intros []%elem_of_nil.
  - simpl. by rewrite keys_snapshot.
Qed.

Lemma import_events_done file d s :
  imported_events_of file = Some d ->
  same_store (update_events d s) (import_events draw file s).
Proof.
  unfold import_events, imported_events_of.
  destruct file as [[raw|]|]; try done. intros ->.
  pose proof (set_calendar_same draw (save_events (update_events d s))) as Hs.
  destruct (set_calendar draw _) as [s'|s']; simpl in Hs;
    (eapply same_store_trans; [|apply show_same]);
    (eapply same_store_trans; [apply save_events_same | exact Hs]).
Qed.

Lemma import_events_failed file s :
  imported_events_of file = None ->
  same_store s (import_events draw file s).
Proof.
  unfold import_events, imported_events_of.
  destruct file as [[raw|]|]; [|intros _; apply show_same
                               |intros _; apply same_store_refl].
  intros ->. apply show_same.
Qed.

(** X12: [import_events] is all or nothing.  When the chosen file cannot
    be turned into a dictionary of records (no file, no JSON object, a
    member name that is no key, a value that cannot be iterated, an empty
    record), lists, dictionary and windows stay as they are.  Otherwise
    every key of the file is bound to the list built from the file, which
    replaces the list the key had, and every other key keeps its list. *)
Theorem import_events_replaces (file : option (option pyval)) (s : app) :
  wf s ->
  let s' := import_events draw file s in
  match imported_events_of file with
  | None => same_store s s'
  | Some d =>
      forall k, events_at k s'
                = match PyDict.get k d with
                  | Some l => Some l
                  | None => events_at k s
                  end
  end.
Proof.
  intros Hwf s'. subst s'.
  destruct (imported_events_of file) as [d|] eqn:E;
    [|by apply import_events_failed].
  intros k. rewrite (events_at_same _ _ k (import_events_done file d s E)).
  apply events_at_update_events; [done|].
  unfold imported_events_of, imported_events in E.
  destruct file as [[[]|]|]; try done.
  destruct (mapM _ d0) as [items|]; [|done].
  simpl in E. injection E as <-. apply NoDup_of_items.
Qed.

End Files.

Section ExportImport.
Variable draw : bool -> Z -> Z -> PyDict.dict key (list event) -> draw_result.
Import StoreFacts FileFacts.

(** A record of four fields comes out of [import_events] as it is. *)
Lemma import_record_four_fields (r : event) :
  four_fields r -> import_record (VList r) = Some r.
Proof.
  destruct r as [|a [|b [|c [|d [|e r]]]]]; try done.
Qed.

Lemma import_records_four_fields (evs : list event) :
  Forall four_fields evs -> mapM import_record (VList <$> evs) = Some evs.
Proof.
  intros H. apply mapM_fmap_Forall_Some.
  eapply Forall_impl; [exact H|]. apply import_record_four_fields.
Qed.

Lemma snapshot_four s :
  all_four s -> Forall (fun kv => Forall four_fields kv.2) (snapshot s).
Proof.
  intros H4. unfold snapshot. apply Forall_fmap, Forall_true.
  intros [k r]. simpl. by apply all_four_deref.
Qed.

(** What [import_events] builds from a document that [export_events]
    wrote. *)
Lemma imported_exported (d : PyDict.dict key (list event)) :
  NoDup (PyDict.keys d) -> Forall storable (PyDict.keys d) ->
  Forall (fun kv => Forall four_fields kv.2) d ->
  imported_events (json_of_events (encode_store d)) = Some d.
Proof.
  intros Hnd Hall H4. rewrite encode_store_members by done.
  unfold json_of_events, imported_events.
  rewrite <- list_fmap_compose.
  match goal with
  | |- _ <$> ?m = _ => assert (Hm : m = Some d)
  end.
  { apply mapM_Some. apply Forall2_fmap_l, Forall_Forall2_diag.
    apply Forall_forall. intros [k evs] Hin. simpl.
    rewrite storable_decode; [simpl|].
    - rewrite import_records_four_fields; [done|].
      rewrite Forall_forall in H4. apply (H4 (k, evs) Hin).
    - rewrite Forall_forall in Hall. apply Hall.
      apply list_elem_of_fmap. by exists (k, evs). }
  rewrite Hm. simpl. f_equal. by apply PyDictFacts.of_items_fresh.
Qed.

(** X13: importing the file that [export_events] has just written changes
    the list of no day: in a state that the program reaches, with keys
    without negative components and records of four fields, the document
    exported is read back as the store itself, and after the import every
    key has the records it had. *)
Theorem import_of_export_is_identity (s : app) :
  reachable draw s ->
  Forall storable (PyDict.keys (events s)) ->
  all_four s ->
  disk_ok s = true ->
  exists doc,
    (export_events true s).2 = Some doc
    /\ imported_events (json_of_events doc) = Some (snapshot s)
    /\ forall k,
         events_at k (import_events draw (Some (Some (json_of_events doc))) s)
         = events_at k s.
Proof.
  intros Hr Hall H4 Hd.
  pose proof (reachable_NoDup draw s Hr) as Hnd.
  pose proof (reachable_wf draw s Hr) as Hwf.
  exists (encode_store (snapshot s)).
  assert (Hi : imported_events (json_of_events (encode_store (snapshot s)))
               = Some (snapshot s)).
  { apply imported_exported; rewrite ?keys_snapshot; try done.
    by apply snapshot_four. }
  split; [|split; [done|]].
  - unfold export_events. by rewrite Hd.
  - intros k.
    rewrite (events_at_same _ _ k
               (import_events_done draw
                  (Some (Some (json_of_events (encode_store (snapshot s)))))
                  (snapshot s) s Hi)).
    rewrite events_at_update_events; [|done|by rewrite keys_snapshot].
    rewrite get_snapshot. by destruct (events_at k s).
Qed.

End ExportImport.

(** ** Sorting by priority, and the sorting buttons *)

Lemma priority_key_int (e : event) :
  has_int_priority e -> PySort.priority_key e = Some (VInt (priority_of e)).
Proof.
  intros [p Hp]. unfold PySort.priority_key, priority_of. by rewrite Hp.
Qed.

(** [sort_by_priority] on records whose priorities are integers. *)
Lemma by_priority_ints (l : list event) :
  Forall has_int_priority l ->
  PySort.by_priority l
  = Some (PySort.isort Z.ltb ((fun e => (priority_of e, e)) <$> l)).*2.
Proof.
  intros Hl. unfold PySort.by_priority.
  apply (SortFacts.sort_with_lifted Z.ltb PyVal.py_lt VInt).
  - apply SortFacts.py_lt_ints.
  - intros a b Hab. apply Z.ltb_ge. apply Z.ltb_lt in Hab. lia.
  - intros a b c Hab Hbc. apply Z.ltb_ge. apply Z.ltb_ge in Hab, Hbc. lia.
  - eapply Forall_impl; [exact Hl|]. apply priority_key_int.
Qed.

(** X14: for a list of records whose priorities are integers,
    [sort_by_priority] produces a permutation of the list in
    non-decreasing order of priority (1 = High first), in which the
    records of one and the same priority keep the order they had. *)
Theorem sort_by_priority_spec (l : list event) :
  Forall has_int_priority l ->
  exists l',
    PySort.by_priority l = Some l'
    /\ l' ≡ₚ l
    /\ StronglySorted (fun e1 e2 => priority_of e1 <= priority_of e2) l'
    /\ forall p, filter (fun e => priority_of e = p) l'
                 = filter (fun e => priority_of e = p) l.
Proof.
  intros Hint.
  set (g := fun e : event => (priority_of e, e)).
  set (S := PySort.isort Z.ltb (g <$> l)).
  assert (Hsnd : (g <$> l).*2 = l).
  { clear. induction l as [|e l IH]; [done|]. csimpl. by f_equal. }
  assert (HP : S ≡ₚ g <$> l) by apply SortFacts.isort_perm.
  assert (HC0 : Forall (fun p : Z * event => p.1 = priority_of p.2) (g <$> l)).
  { apply Forall_fmap, Forall_true. done. }
  assert (HC : Forall (fun p : Z * event => p.1 = priority_of p.2) S)
    by (by rewrite HP).
  exists (S.*2). repeat split.
  - by apply by_priority_ints.
  - by rewrite HP, Hsnd.
  - apply (StronglySorted_fmap snd
             (fun p q => PySort.le_key Z.ltb p q
                         /\ p.1 = priority_of p.2
                         /\ q.1 = priority_of q.2)).
    + intros p q (Hle & Hp & Hq). unfold PySort.le_key in Hle.
      rewrite <- Hp, <- Hq. by apply Z.ltb_ge.
    + eapply SortFacts.StronglySorted_impl_Forall; [|exact HC|].
      * intros p q Hp Hq Hle. by repeat split.
      * apply SortFacts.isort_sorted.
        -- intros a b Hab. apply Z.ltb_ge. apply Z.ltb_lt in Hab. lia.
        -- intros a b c Hab Hbc. apply Z.ltb_ge.
           apply Z.ltb_ge in Hab, Hbc. lia.
  - intros p.
    rewrite (SortFacts.filter_snd (fun e => priority_of e = p)
               (fun q => priority_of q.2 = p) S) by done.
    unfold S.
    rewrite (SortFacts.isort_stable Z.ltb
               (fun q => q.1 = priority_of q.2)
               (fun q => priority_of q.2 = p)); [| |exact HC0].
    + transitivity (filter (fun e => priority_of e = p) (g <$> l).*2);
        [|by rewrite Hsnd].
      symmetry. by apply SortFacts.filter_snd.
    + intros x y Hx Hy Hpx Hpy. rewrite Hx, Hy, Hpx, Hpy.
      apply Z.ltb_irrefl.
Qed.

Lemma sort_by_priority_spec_witness :
  let l := [ [VStr "lunch"; VNone; VStr "12:00"; VInt 2];
             [VStr "call"; VNone; VStr EmptyString; VInt 3];
             [VStr "run"; VNone; VStr "06:30"; VInt 1];
             [VStr "read"; VNone; VStr EmptyString; VInt 2] ] in
  exists l',
    PySort.by_priority l = Some l'
    /\ l' ≡ₚ l
    /\ StronglySorted (fun e1 e2 => priority_of e1 <= priority_of e2) l'
    /\ forall p, filter (fun e => priority_of e = p) l'
                 = filter (fun e => priority_of e = p) l.
Proof.
  apply sort_by_priority_spec.
  repeat constructor; eexists; reflexivity.
Defined.

Section SortButtons.
Variable draw : bool -> Z -> Z -> PyDict.dict key (list event) -> draw_result.
Import StoreFacts.

Lemma snapshot_same s s' : same_store s s' -> snapshot s' = snapshot s.
Proof. intros (Hh & He & _). unfold snapshot. by rewrite Hh, He. Qed.

(** What is stored and saved once a handler of a page has bound the key
    to a copy [l] of the list of the page. *)
Lemma copy_saved k l s s' :
  same_store (assign k l s) s' ->
  events_file s' = events_file (save_events (assign k l s)) ->
  events_at k s' = Some l
  /\ (disk_ok s = true -> events_file s' = Some (encode_store (snapshot s'))).
Proof.
  intros Hs Hf. split.
  - rewrite (events_at_same _ _ k Hs). apply events_at_assign.
  - intros Hd. rewrite Hf, (snapshot_same _ _ Hs).
    unfold save_events. simpl. by rewrite Hd.
Qed.


(** X15: a sorting button of a day page sorts the list that the page
    holds in place and binds the key to a new copy of it: afterwards the
    key has the sorted list, the list of the page is sorted too, and the
    page no longer holds the list of the dictionary; when the events file
    can be opened it holds the encoding of the new store.  The handler
    then fills the list box again: it returns and tells that the events
    are sorted when every record is [displayable], and raises otherwise,
    after the copy has been stored and saved. *)
Theorem sort_page_stores_copy
        (sort : list event -> option (list event)) (message : string)
        (k : key) (loc : nat) (s : app) (sorted : list event) :
  wf s ->
  (k, loc) ∈ windows s ->
  sort (deref (heap s) loc) = Some sorted ->
  exists o,
    sort_page sort message k loc s = Some o
    /\ events_at k (final o) = Some sorted
    /\ deref (heap (final o)) loc = sorted
    /\ PyDict.get k (events (final o)) = Some (length (heap s))
    /\ loc <> length (heap s)
    /\ (disk_ok s = true ->
        events_file (final o) = Some (encode_store (snapshot (final o))))
    /\ (forallb displayable sorted = true ->
        o = Done (final o) /\ ShowInfo message ∈ dialogs (final o))
    /\ (forallb displayable sorted = false -> o = Raised (final o)).
Proof.
  intros Hwf Hin Hsort.
  destruct (window_owned s k loc Hin Hwf) as [Hlt _].
  unfold sort_page. rewrite Hsort. simpl. eexists. split; [done|].
  set (s1 := mutate loc (fun _ => sorted) s).
  assert (Hlen : length (heap s1) = length (heap s))
    by (simpl; apply length_alter).
  assert (Hs : same_store (assign k sorted s1)
                          (final (store_sorted message k loc sorted s))).
  { unfold store_sorted. fold s1. destruct (forallb _ _); simpl.
    - eapply same_store_trans; [apply save_events_same | apply show_same].
    - apply save_events_same. }
  pose proof Hs as (Hh & He & _).
  split; [|split; [|split; [|split; [|split; [|split]]]]].
  - rewrite (events_at_same _ _ k Hs). apply events_at_assign.
  - rewrite Hh. simpl. unfold deref.
    rewrite lookup_app_l by (rewrite length_alter; done).
    rewrite list_lookup_alter_eq.
    by destruct (lookup_lt_is_Some_2 (heap s) loc Hlt) as [l0 ->].
  - rewrite He. simpl. rewrite PyDictFacts.get_set_eq.
    by rewrite length_alter.
  - lia.
  - apply (copy_saved k sorted s1); [exact Hs|].
    unfold store_sorted. fold s1. by destruct (forallb _ _).
  - intros Hd. unfold store_sorted. rewrite Hd. simpl.
    split; [done | apply list_elem_of_here].
  - intros Hd. unfold store_sorted. by rewrite Hd.
Qed.

End SortButtons.

Lemma sort_page_stores_copy_witness :
  let inp t time := {| in_text := Some t; in_time := Some time;
                       in_priority := Some 2; in_color := None |} in
  let s1 := final (add_event draw_fine [1403; 1; 1] (inp "late" "18:00")
                     (first_run "1403" "1")) in
  let s2 := final (add_event draw_fine [1403; 1; 1] (inp "early" "07:00") s1) in
  let s3 := final (view_day_page [1403; 1; 1] s2) in
  let sorted := [new_record "early" None (Some "07:00") 2;
                 new_record "late" None (Some "18:00") 2] in
  exists s',
    sort_by_time [1403; 1; 1] 0 s3 = Some (Done s')
    /\ events_at [1403; 1; 1] s' = Some sorted
    /\ deref (heap s') 0 = sorted
    /\ PyDict.get [1403; 1; 1] (events s') = Some (length (heap s3))
    /\ ShowInfo "Events sorted by time." ∈ dialogs s'.
Proof.
  intros inp s1 s2 s3 sorted.
  destruct (sort_page_stores_copy PySort.by_time "Events sorted by time."
              [1403; 1; 1] 0 s3 sorted)
    as (o & Ho & Hk & Hl & Hg & _ & _ & Hd & _).
  - eapply StoreFacts.touches_wf; [apply view_day_page_touches|].
    eapply StoreFacts.touches_wf; [apply (add_event_touches draw_fine)|].
    eapply StoreFacts.touches_wf; [apply (add_event_touches draw_fine)|].
    apply first_run_wf.
  - vm_compute. apply list_elem_of_here.
  - reflexivity.
  - destruct (Hd eq_refl) as [Ho' Hshow].
    exists (final o). rewrite <- Ho'. by repeat split.
Defined.

(** ** The month shown: [change_month] and the start of the program *)

Section Shown.
Variable draw : bool -> Z -> Z -> PyDict.dict key (list event) -> draw_result.

Lemma shift_month_range y m delta : 1 <= (shift_month y m delta).2 <= 12.
Proof.
  unfold shift_month.
  destruct (Z.ltb_spec (m + delta) 1); [simpl; lia|].
  destruct (Z.gtb_spec (m + delta) 12); simpl; lia.
Qed.

Lemma set_calendar_disk s : disk_ok (final (set_calendar draw s)) = disk_ok s.
Proof.
  unfold set_calendar, save_settings.
  repeat case_match; simpl; try done; by destruct (disk_ok s).
Qed.

(** X16: whatever integers the entries hold, after [change_month] the
    month entry shows a month from 1 to 12 that [set_calendar] accepts
    again, and when the settings file can be opened it holds the year and
    month shown, also when drawing the calendar raises. *)
Theorem change_month_normalises (delta : Z) (s : app) (y m : Z) :
  PyStr.py_int (year_entry s) = Some y ->
  PyStr.py_int (month_entry s) = Some m ->
  let s' := final (change_month draw delta s) in
  exists y' m',
    1 <= m' <= 12
    /\ year_entry s' = PyStr.py_str y' /\ month_entry s' = PyStr.py_str m'
    /\ PyStr.py_int (year_entry s') = Some y'
    /\ PyStr.py_int (month_entry s') = Some m'
    /\ (disk_ok s = true -> settings_file s' = Some (y', m')).
Proof.
  intros Hy Hm s'.
  exists (shift_month y m delta).1, (shift_month y m delta).2.
  pose proof (shift_month_range y m delta) as Hr.
  destruct (change_month_entries draw delta s y m Hy Hm) as [Hye Hme].
  fold s' in Hye, Hme. rewrite Hye, Hme.
  rewrite !PyStrFacts.py_int_py_str. repeat split; try done; try lia.
  intros Hd. subst s'. unfold change_month. rewrite Hy, Hm. simpl.
  set (y' := (shift_month y m delta).1) in *.
  set (m' := (shift_month y m delta).2) in *.
  set (s1 := set_entries (PyStr.py_str y') (PyStr.py_str m') s).
  pose proof (set_calendar_settings draw s1) as Hset.
  pose proof (set_calendar_disk s1) as Hdisk.
  destruct (set_calendar draw s1) as [s2|s2]; simpl in *.
  - unfold save_settings. by rewrite Hdisk, Hd.
  - rewrite Hset, !PyStrFacts.py_int_py_str, Hd.
    destruct (Z.leb_spec 1 m'), (Z.leb_spec m' 12); simpl; try lia. done.
Qed.

Lemma update_events_frame d s :
  let s' := update_events d s in
  year_entry s' = year_entry s /\ month_entry s' = month_entry s
  /\ settings_file s' = settings_file s /\ disk_ok s' = disk_ok s.
Proof.
  unfold update_events. revert s.
  induction d as [|[k l] d IH]; intros s; simpl; [done|].
  destruct (IH (assign k l s)) as (-> & -> & -> & ->). done.
Qed.

Lemma load_events_frame s s1 :
  load_events s = Done s1 ->
  year_entry s1 = year_entry s /\ month_entry s1 = month_entry s
  /\ settings_file s1 = settings_file s /\ disk_ok s1 = disk_ok s.
Proof.
  unfold load_events.
  destruct (events_file s) as [raw|]; [|by intros [= <-]].
  destruct (disk_ok s) eqn:Hd; [|by intros [= <-]].
  destruct (decode_store raw) as [d|]; [|done].
  intros [= <-].
  destruct (update_events_frame d (set_store (heap s) [] s))
    as (-> & -> & -> & ->). done.
Qed.

(** X17: at the start the entries show the year and month of the
    settings file, as [set_calendar] saved them, unless the saved year or
    month is 0, which Python takes for false: then, as without a settings
    file, they show today's year and month. *)
Theorem startup_shows_saved_month (today_year today_month : Z) (s s1 : app) :
  load_events s = Done s1 ->
  year_entry s = EmptyString -> month_entry s = EmptyString ->
  disk_ok s = true ->
  let s' := final (startup draw today_year today_month s) in
  let shown := (year_entry s', month_entry s') in
  (forall y m, settings_file s = Some (y, m) -> y <> 0 -> m <> 0 ->
               shown = (PyStr.py_str y, PyStr.py_str m))
  /\ (forall y m, settings_file s = Some (y, m) -> y = 0 \/ m = 0 ->
                  shown = (PyStr.py_str today_year, PyStr.py_str today_month))
  /\ (settings_file s = None ->
      shown = (PyStr.py_str today_year, PyStr.py_str today_month)).
Proof.
  intros Hload Hye Hme Hd s' shown. subst shown s'.
  destruct (load_events_frame s s1 Hload) as (Hy1 & Hm1 & Hs1 & Hd1).
  unfold startup. rewrite Hload. simpl.
  unfold load_settings. rewrite Hs1, Hd1, Hd.
  assert (Hent : forall a b,
             (year_entry (final (set_calendar draw (insert_entries a b s1))),
              month_entry (final (set_calendar draw (insert_entries a b s1))))
             = (a, b)).
  { intros a b.
    destruct (set_calendar_frame draw (insert_entries a b s1))
      as (_ & _ & _ & -> & -> & _).
    simpl. by rewrite Hy1, Hm1, Hye, Hme, !PyStrFacts.append_nil_r. }
  repeat split.
  - intros y m -> Hy Hm.
    destruct (Z.eqb_spec y 0), (Z.eqb_spec m 0); try done. simpl. apply Hent.
  - intros y m -> Hz.
    destruct (Z.eqb_spec y 0), (Z.eqb_spec m 0); simpl; try apply Hent.
    by destruct Hz.
  - intros ->. apply Hent.
Qed.

End Shown.

Lemma change_month_normalises_witness :
  exists y' m',
    1 <= m' <= 12
    /\ year_entry (final (change_month draw_fine 1 (first_run "1403" "40")))
       = PyStr.py_str y'
    /\ month_entry (final (change_month draw_fine 1 (first_run "1403" "40")))
       = PyStr.py_str m'
    /\ PyStr.py_int
         (year_entry (final (change_month draw_fine 1 (first_run "1403" "40"))))
       = Some y'
    /\ PyStr.py_int
         (month_entry (final (change_month draw_fine 1 (first_run "1403" "40"))))
       = Some m'
    /\ (disk_ok (first_run "1403" "40") = true ->
        settings_file (final (change_month draw_fine 1 (first_run "1403" "40")))
        = Some (y', m')).
Proof.
  apply (change_month_normalises draw_fine 1 (first_run "1403" "40") 1403 40);
    reflexivity.
Defined.

Lemma startup_shows_saved_month_witness :
  let s := mkApp [] [] [] EmptyString EmptyString "month" None
                 (Some (0, 7)) true [] in
  (year_entry (final (startup draw_fine 1404 2 s)),
   month_entry (final (startup draw_fine 1404 2 s)))
  = (PyStr.py_str 1404, PyStr.py_str 2).
Proof.
  intros s.
  pose proof (startup_shows_saved_month draw_fine 1404 2 s s
                eq_refl eq_refl eq_refl eq_refl) as (_ & H & _).
  apply (H 0 7); [reflexivity | by left].
Defined.

(** ** The grid of a month *)

Lemma place_days_closed (n : nat) : forall start row col,
  0 <= col <= 6 ->
  place_days (seqZ start (Z.of_nat n)) row col
  = (fun d => (d, (row + (col + (d - start)) / 7, (col + (d - start)) mod 7)))
      <$> seqZ start (Z.of_nat n).
Proof.
  induction n as [|n IH]; intros start row col Hc; [done|].
  rewrite Nat2Z.inj_succ, seqZ_cons by lia.
  replace (Z.pred (Z.succ (Z.of_nat n))) with (Z.of_nat n) by lia.
  csimpl. f_equal.
  - rewrite Z.sub_diag, Z.add_0_r, Z.div_small, Z.mod_small by lia.
    by rewrite Z.add_0_r.
  - destruct (Z.gtb_spec (col + 1) 6) as [Hw|Hw].
    + rewrite IH by lia. apply list_fmap_ext. intros i d Hd.
      apply lookup_seqZ in Hd as [-> Hi].
      assert (E : col = 6) by lia. subst col.
      replace (6 + (Z.succ start + Z.of_nat i - start))
        with (0 + (Z.succ start + Z.of_nat i - Z.succ start) + 1 * 7) by lia.
      rewrite Z.div_add, Z.mod_add by lia.
      do 2 f_equal. lia.
    + rewrite IH by lia. apply list_fmap_ext. intros i d Hd.
      apply lookup_seqZ in Hd as [-> Hi].
      replace (col + 1 + (Z.succ start + Z.of_nat i - Z.succ start))
        with (col + (Z.succ start + Z.of_nat i - start)) by lia.
      done.
Qed.

Lemma get_days_in_month_range (jdate_valid : Z -> Z -> Z -> bool) year month :
  29 <= get_days_in_month jdate_valid year month <= 31.
Proof.
  unfold get_days_in_month.
  destruct (month <=? 6); [lia|]. destruct (month <=? 11); [lia|].
  destruct (is_leap_year _ _); lia.
Qed.

Lemma first_weekday_range weekday : 0 <= first_weekday weekday <= 6.
Proof.
  unfold first_weekday. pose proof (Z.mod_pos_bound (weekday + 2) 7). lia.
Qed.

(** X18: [show_calendar] puts the button of day [d] in column
    [(first_weekday + d - 1) % 7] and row [2 + (first_weekday + d - 1) // 7]:
    one button for every day of the month, in the columns 0..6 of the
    seven weekdays and in the rows 2..7, and no two days in one cell. *)
Theorem month_cells_layout
        (jdate_valid : Z -> Z -> Z -> bool) (weekday year month : Z) :
  let days := get_days_in_month jdate_valid year month in
  let fw := first_weekday weekday in
  let cells := month_cells jdate_valid weekday year month in
  cells = (fun d => (d, (2 + (fw + d - 1) / 7, (fw + d - 1) mod 7)))
            <$> seqZ 1 days
  /\ Forall (fun c => 2 <= c.2.1 <= 7 /\ 0 <= c.2.2 <= 6) cells
  /\ NoDup (cells.*2).
Proof.
  intros days fw cells.
  pose proof (get_days_in_month_range jdate_valid year month) as Hd.
  pose proof (first_weekday_range weekday) as Hfw.
  fold days in Hd. fold fw in Hfw.
  assert (Hcells : cells
                   = (fun d => (d, (2 + (fw + d - 1) / 7, (fw + d - 1) mod 7)))
                       <$> seqZ 1 days).
  { unfold cells, month_cells. fold days fw.
    rewrite <- (Z2Nat.id days) by lia.
    rewrite place_days_closed by done.
    apply list_fmap_ext. intros i d _.
    by replace (fw + (d - 1)) with (fw + d - 1) by lia. }
  split; [done|]. rewrite Hcells. split.
  - apply Forall_fmap, Forall_forall. intros d Hin%elem_of_seqZ. simpl.
    pose proof (Z.mod_pos_bound (fw + d - 1) 7).
    assert (0 <= (fw + d - 1) / 7 <= 5).
    { split; [apply Z.div_pos; lia|].
      apply Z.lt_succ_r, Z.div_lt_upper_bound; lia. }
    lia.
  - rewrite <- list_fmap_compose.
    apply NoDup_fmap_2_strong; [|apply NoDup_seqZ].
    intros d1 d2 _ _ [= Hq Hr].
    pose proof (Z.div_mod (fw + d1 - 1) 7).
    pose proof (Z.div_mod (fw + d2 - 1) 7). lia.
Qed.

(** ** The colour of a day *)

Lemma get_event_color_Some (n : Z) :
  is_Some (get_event_color n None).
Proof.
  unfold get_event_color. destruct (Z.gtb_spec n 0); [|done]. simpl.
  apply py_index_in_range. pose proof (shade_index_range n). simpl. lia.
Qed.

(** X19: computing the colour of a day button raises [IndexError]
    exactly when a record of the day has fewer than two fields, so under
    the invariant of four fields it never does; today's button is red, and
    a day without events that is not today gets ['#cccccc']. *)
Theorem day_color_defined (is_today : bool) (evs : list event) :
  (day_color is_today evs = None <-> Exists (fun e => (length e <= 1)%nat) evs)
  /\ (Forall four_fields evs -> is_Some (day_color is_today evs))
  /\ (Forall four_fields evs -> is_today = true ->
      day_color is_today evs = Some (VStr "red"))
  /\ (is_today = false -> day_color is_today [] = Some (VStr "#cccccc")).
Proof.
  assert (Hiff : day_color is_today evs = None
                 <-> Exists (fun e => (length e <= 1)%nat) evs).
  { unfold day_color.
    destruct (mapM (fun e : event => e !! 1%nat) evs) as [cs|] eqn:E; simpl.
    - split.
      + intros H. exfalso. destruct is_today; [done|].
        destruct (get_event_color_Some (Z.of_nat (length evs))) as [c Hc].
        rewrite Hc in H. simpl in H.
        destruct cs as [|[] cs]; try done. by destruct (String.eqb _ _).
      + intros Hex. exfalso. apply mapM_Some in E.
        induction E as [|e c l cs' He _ IH].
        * by apply Exists_nil in Hex.
        * apply Exists_cons in Hex as [Hlen|Hex]; [|auto].
          apply lookup_lt_Some in He. lia.
    - split; [intros _|done]. apply mapM_None in E.
      eapply Exists_impl; [exact E|]. intros e He. simpl in He.
      apply lookup_ge_None in He. lia. }
  assert (Hdef : Forall four_fields evs -> is_Some (day_color is_today evs)).
  { intros H4. pose proof (proj1 Hiff) as E.
    destruct (day_color is_today evs); [done|].
    specialize (E eq_refl). exfalso.
    apply Exists_exists in E as (e & Hin & Hlen).
    rewrite Forall_forall in H4. specialize (H4 e Hin).
    unfold four_fields in H4. lia. }
  repeat split; try apply Hiff; try done.
  - intros H4 ->. destruct (Hdef H4) as [c Hc]. rewrite Hc.
    unfold day_color in Hc.
    destruct (mapM _ evs); simpl in Hc; [|done]. done.
  - by intros ->.
Qed.

(** ** Day pages, edit panels and the events file *)

Section Pages.
Variable draw : bool -> Z -> Z -> PyDict.dict key (list event) -> draw_result.
Import StoreFacts.

Lemma forallb_lookup {A : Type} (p : A -> bool) (l : list A) i x :
  forallb p l = true -> l !! i = Some x -> p x = true.
Proof.
  revert i. induction l as [|y l IH]; intros i; [done|]. simpl.
  intros [Hy Hl]%andb_true_iff. destruct i as [|i]; simpl.
  - by intros [= <-].
  - by apply IH.
Qed.

(** X20: [edit_events] opens an edit panel exactly when the day has
    events, every record of the day is [displayable], the number chosen
    lies between 1 and their count, and Tk builds the widgets of the
    panel; the panel then holds the list of the key (the guard of
    [edit_event_panel] never fires).  When a record of the day is not
    [displayable], building the text of the dialog raises and nothing
    changes, whatever is chosen.  With no number, or one outside the
    range, nothing changes; for a day without events it only tells that
    there is none. *)
Theorem edit_events_selection (k : key) (selected : option Z) (built : bool)
        (s : app) :
  let l := day_events k s in
  (l = [] ->
   edit_events k selected built s
   = Done (show (ShowInfo "No events to edit.") s))
  /\ (l <> [] -> forallb displayable l = false ->
      edit_events k selected built s = Raised s)
  /\ (l <> [] -> forallb displayable l = true ->
      (selected = None
       \/ exists i, selected = Some i /\ ~ 1 <= i <= Z.of_nat (length l)) ->
      edit_events k selected built s = Done s)
  /\ (forall i loc,
        PyDict.get k (events s) = Some loc ->
        forallb displayable l = true ->
        selected = Some i -> 1 <= i <= Z.of_nat (length l) ->
        edit_events k selected built s
        = if built then Done (open_window (k, loc) s) else Raised s).
Proof.
  intros l. subst l. unfold edit_events. repeat split.
  - intros He. by rewrite bool_decide_true.
  - intros Hne Hd. rewrite bool_decide_false by done. by rewrite Hd.
  - intros Hne Hd Hsel. rewrite bool_decide_false by done. rewrite Hd.
    destruct Hsel as [->|(i & -> & Hi)]; [done|].
    destruct (Z.leb_spec 1 i), (Z.leb_spec i (Z.of_nat (length (day_events k s))));
      simpl; try done. lia.
  - intros i loc Hk Hd -> Hi.
    assert (Hne : day_events k s <> []).
    { intros E. rewrite E in Hi. simpl in Hi. lia. }
    rewrite bool_decide_false by done. rewrite Hd.
    destruct (Z.leb_spec 1 i), (Z.leb_spec i (Z.of_nat (length (day_events k s))));
      try lia. simpl.
    unfold edit_event_panel. rewrite Hk.
    assert (Hl : deref (heap s) loc = day_events k s).
    { unfold day_events. by rewrite Hk. }
    rewrite Hl, bool_decide_false by done. simpl.
    destruct (Z.ltb_spec (i - 1) 0); [lia|].
    destruct (Z.geb_spec (i - 1) (Z.of_nat (length (day_events k s))));
      [lia|]. simpl.
    destruct (lookup_lt_is_Some_2 (day_events k s) (Z.to_nat (i - 1)))
      as [ev Hev]; [lia|].
    rewrite Hev, (forallb_lookup _ _ _ _ Hd Hev). by destruct built.
Qed.

Lemma view_day_page_frame k k' s :
  wf s -> events_at k' (final (view_day_page k s)) = events_at k' s.
Proof.
  intros Hwf. unfold view_day_page.
  destruct (PyDict.get k (events s)); [by destruct (forallb _ _)|].
  by apply (frame_alloc s [] k').
Qed.

(** X21: opening the page of a day changes the list of no key.  But the
    page of a day that has no key holds a new empty list, and finishing a
    drag or pressing either sorting button on that page binds the day to
    an empty list and saves: the day enters the dictionary, and with it
    the events file when that can be opened, without an event. *)
Theorem empty_day_page_creates_key (k : key) (s : app) :
  wf s ->
  (forall k', events_at k' (final (view_day_page k s)) = events_at k' s)
  /\ (PyDict.get k (events s) = None ->
      let page := length (heap s) in
      exists s1 s_time s_priority,
        view_day_page k s = Done s1
        /\ (k, page) ∈ windows s1
        /\ deref (heap s1) page = []
        /\ events_at k s1 = None
        /\ sort_by_time k page s1 = Some (Done s_time)
        /\ sort_by_priority k page s1 = Some (Done s_priority)
        /\ forall s',
             s' = final (end_drag draw k page s1)
             \/ s' = s_time \/ s' = s_priority ->
             events_at k s' = Some []
             /\ (disk_ok s = true ->
                 events_file s' = Some (encode_store (snapshot s')))).
Proof.
  intros Hwf. split; [intros k'; by apply view_day_page_frame|].
  intros Hk page.
  set (s1 := open_window (k, page) (set_store (heap s ++ [[]]) (events s) s)).
  assert (Hd : deref (heap s1) page = []).
  { simpl. unfold deref, page. by rewrite list_lookup_middle. }
  set (s2 := mutate page (fun _ => []) s1).
  assert (Hdisk : disk_ok s2 = disk_ok s) by done.
  exists s1, (show (ShowInfo "Events sorted by time.")
                (save_events (assign k [] s2))),
    (show (ShowInfo "Events sorted by priority.")
       (save_events (assign k [] s2))).
  split; [|split; [|split; [|split; [|split; [|split]]]]].
  - unfold view_day_page. by rewrite Hk.
  - apply list_elem_of_here.
  - exact Hd.
  - unfold s1. pose proof (view_day_page_frame k k s Hwf) as Hf.
    unfold view_day_page in Hf. rewrite Hk in Hf. simpl in Hf.
    etrans; [exact Hf|]. unfold events_at. by rewrite Hk.
  - unfold sort_by_time, sort_page. by rewrite Hd.
  - unfold sort_by_priority, sort_page. by rewrite Hd.
  - intros s' [->|[->| ->]].
    + unfold end_drag. rewrite Hd. simpl.
      destruct (copy_saved k [] s1
                  (final (set_calendar draw (save_events (assign k [] s1)))))
        as [H1 H2]; [| |by split].
      * eapply same_store_trans;
          [apply save_events_same | apply (set_calendar_same draw)].
      * by destruct (set_calendar_frame draw (save_events (assign k [] s1)))
          as (_ & _ & _ & _ & _ & ->).
    + destruct (copy_saved k [] s2
                  (show (ShowInfo "Events sorted by time.")
                     (save_events (assign k [] s2))))
        as [H1 H2]; [| |by split]; [|done].
      eapply same_store_trans; [apply save_events_same | apply show_same].
    + destruct (copy_saved k [] s2
                  (show (ShowInfo "Events sorted by priority.")
                     (save_events (assign k [] s2))))
        as [H1 H2]; [| |by split]; [|done].
      eapply same_store_trans; [apply save_events_same | apply show_same].
Qed.

Lemma set_calendar_dialogs d s :
  d ∈ dialogs s -> d ∈ dialogs (final (set_calendar draw s)).
Proof.
  intros Hd. unfold set_calendar, save_settings.
  repeat case_match; simpl; repeat (apply list_elem_of_further || done).
Qed.

Lemma append_event_files k ev s :
  disk_ok (append_event k ev s) = disk_ok s
  /\ events_file (append_event k ev s) = events_file s.
Proof. unfold append_event. by destruct (PyDict.get k (events s)). Qed.

(** X22: after [add_event] has stored a record, the events file holds the
    encoding of the new store when the file can be opened; when it cannot,
    the file is left as it was and an error is shown, but the record stays
    in memory: a failed save is not rolled back. *)
Theorem add_event_saves (k : key) (inp : add_input) (s : app)
        (text : string) (priority : Z) :
  in_text inp = Some text -> text <> EmptyString ->
  in_priority inp = Some priority ->
  truthy (in_time inp) = false
  \/ validate_time (or_else (in_time inp) EmptyString) = true ->
  let s' := final (add_event draw k inp s) in
  same_store
    (append_event k (new_record text (in_color inp) (in_time inp) priority) s)
    s'
  /\ (disk_ok s = true -> events_file s' = Some (encode_store (snapshot s')))
  /\ (disk_ok s = false ->
      events_file s' = events_file s
      /\ ShowError "Failed to save events: " ∈ dialogs s').
Proof.
  intros Ht Hne Hp Htime s'. subst s'. unfold add_event.
  rewrite (ask_event_record inp s text priority) by done.
  set (X := append_event k _ s).
  pose proof (tail_same draw X (show (ShowInfo "Event added.")) (show_same _))
    as Hsame.
  destruct (append_event_files k
              (new_record text (in_color inp) (in_time inp) priority) s)
    as (Hdisk & Hfile). fold X in Hdisk, Hfile.
  split; [done|].
  pose proof (snapshot_same _ _ Hsame) as Hsnap.
  pose proof (set_calendar_frame draw (save_events X))
    as (_ & _ & _ & _ & _ & Hf).
  pose proof (set_calendar_dialogs (ShowError "Failed to save events: ")
                (save_events X)) as Hdlg.
  split.
  - intros Hd. rewrite Hsnap. simpl in *.
    destruct (set_calendar draw (save_events X)) as [s2|s2]; simpl in *;
      rewrite Hf; unfold save_events; by rewrite Hdisk, Hd.
  - intros Hd. simpl in *.
    assert (Hin : ShowError "Failed to save events: " ∈ dialogs (save_events X)).
    { unfold save_events. rewrite Hdisk, Hd. simpl. apply list_elem_of_here. }
    specialize (Hdlg Hin).
    destruct (set_calendar draw (save_events X)) as [s2|s2]; simpl in *;
      rewrite Hf; unfold save_events; rewrite Hdisk, Hd; simpl;
      (split; [done|]); [by apply list_elem_of_further | done].
Qed.

End Pages.

Lemma edit_events_selection_witness :
  let inp := {| in_text := Some "first"; in_time := None;
                in_priority := Some 2; in_color := None |} in
  let s1 := final (add_event draw_fine [1403; 1; 1] inp
                     (first_run "1403" "1")) in
  edit_events [1403; 1; 1] (Some 1) true s1
  = Done (open_window ([1403; 1; 1], 0%nat) s1)
  /\ edit_events [1403; 1; 1] (Some 2) true s1 = Done s1.
Proof.
  intros inp s1.
  destruct (edit_events_selection [1403; 1; 1] (Some 1) true s1)
    as (_ & _ & _ & H1).
  destruct (edit_events_selection [1403; 1; 1] (Some 2) true s1)
    as (_ & _ & H2 & _).
  split.
  - apply (H1 1 0%nat); [reflexivity | reflexivity | reflexivity |].
    vm_compute. split; discriminate.
  - apply H2; [discriminate | reflexivity |]. right. exists 2.
    split; [reflexivity|]. vm_compute. intros [_ H]. by apply H.
Defined.

Lemma empty_day_page_creates_key_witness :
  let s := first_run "1403" "1" in
  exists s1,
    view_day_page [1403; 1; 5] s = Done s1
    /\ events_at [1403; 1; 5] s1 = None
    /\ events_at [1403; 1; 5] (final (end_drag draw_fine [1403; 1; 5] 0 s1))
       = Some [].
Proof.
  intros s.
  destruct (empty_day_page_creates_key draw_fine [1403; 1; 5] s
              (first_run_wf "1403" "1")) as (_ & H).
  destruct (H eq_refl) as (s1 & st & sp & Hv & _ & _ & Hn & _ & _ & Hall).
  exists s1. split; [exact Hv|]. split; [exact Hn|].
  apply (Hall _ (or_introl eq_refl)).
Defined.

Lemma add_event_saves_witness :
  let inp := {| in_text := Some "first"; in_time := Some "7:05";
                in_priority := Some 2; in_color := None |} in
  let s := set_disk false (first_run "1403" "1") in
  let s' := final (add_event draw_fine [1403; 1; 1] inp s) in
  events_file s' = events_file s
  /\ ShowError "Failed to save events: " ∈ dialogs s'.
Proof.
  intros inp s s'.
  destruct (add_event_saves draw_fine [1403; 1; 1] inp s "first" 2)
    as (_ & _ & H); [reflexivity | discriminate | reflexivity | by right |].
  apply H. reflexivity.
Defined.

Lemma restart_restores_store_witness :
  let inp := {| in_text := Some "first"; in_time := Some "7:05";
                in_priority := Some 2; in_color := None |} in
  let s0 := final (load_events (first_run "1403" "1")) in
  let s := final (add_event draw_fine [1403; 1; 1] inp s0) in
  let next :=
    mkApp [] [] [] EmptyString EmptyString "month"
          (events_file (save_events s)) None true [] in
  exists s1, load_events next = Done s1 /\ snapshot s1 = snapshot s.
Proof.
  intros inp s0 s next.
  apply (restart_restores_store draw_fine s next).
  - eapply reach_step; [|apply h_add_event].
    apply reach_start. by repeat split.
  - vm_compute. repeat constructor; discriminate.
  - reflexivity.
  - by repeat split.
  - reflexivity.
  - reflexivity.
Defined.

Lemma import_events_replaces_witness :
  let s := first_run "1403" "1" in
  let file := Some (Some (VDict [("1403-1-1", VList [VList [VStr "Nowruz"]])])) in
  let other :=
    Some (Some (VDict [(String (ascii_of_nat 28) "1-2-3",
                        VList [VList [VStr "Nowruz"]])])) in
  wf s
  /\ events_at [1403; 1; 1] (import_events draw_fine file s)
     = Some [[VStr "Nowruz"; VStr "#cccccc"; VStr EmptyString; VInt 2]]
  /\ events_at [1403; 1; 2] (import_events draw_fine file s)
     = events_at [1403; 1; 2] s
  /\ same_store s (import_events draw_fine other s).
Proof.
  intros s file other.
  pose proof (import_events_replaces draw_fine file s
                (first_run_wf "1403" "1")) as H.
  pose proof (import_events_replaces draw_fine other s
                (first_run_wf "1403" "1")) as H'.
  split; [apply first_run_wf|].
  split; [exact (H [1403; 1; 1])|].
  split; [exact (H [1403; 1; 2]) | exact H'].
Defined.

Lemma import_of_export_is_identity_witness :
  let inp := {| in_text := Some "first"; in_time := Some "7:05";
                in_priority := Some 2; in_color := None |} in
  let s0 := final (load_events (first_run "1403" "1")) in
  let s := final (add_event draw_fine [1403; 1; 1] inp s0) in
  exists doc,
    (export_events true s).2 = Some doc
    /\ imported_events (json_of_events doc) = Some (snapshot s)
    /\ forall k,
         events_at k (import_events draw_fine
                        (Some (Some (json_of_events doc))) s)
         = events_at k s.
Proof.
  intros inp s0 s.
  apply (import_of_export_is_identity draw_fine s).
  - eapply reach_step; [|apply h_add_event].
    apply reach_start. by repeat split.
  - vm_compute. repeat constructor; discriminate.
  - intros loc l Hl. destruct loc as [|[|loc]]; simpl in Hl; try done.
    injection Hl as <-. by repeat constructor.
  - reflexivity.
Defined.
